(** * libstoplight: the per-connection message framer ([Server])

    A shallow embedding of [src/libstoplight.py].  The class [Server] owns a
    receive buffer, a send buffer and the parsed-so-far fields of one request;
    it is driven by the reactor through [read] and [write].

    Python values are embedded as the inductive [pyval]; the attributes of a
    [Server] are a record; every method is a function in a state-and-exception
    monad, so that what a method has already stored when it raises stays
    visible.  The outcomes of the socket calls ([recv], [send], [close]) are
    inputs of the methods that perform them.  The library functions the class
    calls ([json.dumps], [json.load], [struct.pack], [str.encode], the
    [selectors] registry) are embedded after their CPython behaviour. *)

From Stdlib Require Import String Ascii.
From Stdlib Require Import Strings.Byte.
From Stdlib Require Import ZArith List Bool Lia.
Import ListNotations.

Local Open Scope Z_scope.

(** ** Bytes and text *)

Module Py.

(** [bytes] objects. *)
Definition bytes := list byte.

(** [str] objects: sequences of code points. *)
Definition pystr := list Z.

(** The integer value of a byte, and the byte of an integer (modulo 256). *)
Definition zb (b : byte) : Z := Z.of_N (Byte.to_N b).

Definition b8 (z : Z) : byte :=
  match Byte.of_N (Z.to_N (z mod 256)) with
  | Some b => b
  | None => Byte.x00
  end.

(** An ASCII literal as a [str]. *)
Definition u (s : string) : pystr := map zb (list_byte_of_string s).

(** An ASCII literal as a [str], every apostrophe standing for a double
    quote (code point 34): JSON texts are written [{'cmd':'status'}]. *)
Definition jq (s : string) : pystr :=
  map (fun c => if c =? 39 then 34 else c) (u s).

(** An ASCII text as [bytes]. *)
Definition ascii_bytes (s : pystr) : bytes := map b8 s.

Fixpoint pystr_eqb (a b : pystr) : bool :=
  match a, b with
  | [], [] => true
  | x :: a', y :: b' => (x =? y) && pystr_eqb a' b'
  | _, _ => false
  end.

(** [a.startswith(p)] and [p in a] on [str]. *)
Fixpoint starts_with (p a : pystr) : bool :=
  match p, a with
  | [], _ => true
  | x :: p', y :: a' => (x =? y) && starts_with p' a'
  | _ :: _, [] => false
  end.

Fixpoint substring (p a : pystr) : bool :=
  starts_with p a ||
  match a with
  | [] => false
  | _ :: a' => substring p a'
  end.

(** Code points: [is_codepoint] is what a [str] may hold, [is_scalar] what
    UTF-8 can encode (no surrogates). *)
Definition is_codepoint (c : Z) : bool := (0 <=? c) && (c <=? 1114111).

Definition is_surrogate (c : Z) : bool := (55296 <=? c) && (c <=? 57343).

Definition is_scalar (c : Z) : bool := is_codepoint c && negb (is_surrogate c).

(** Floats are kept as the decimal they were read from, [FDec m e] standing
    for [m * 10^e] before rounding to a double. *)
Inductive pyfloat : Type :=
| FDec (m e : Z)
| FNaN
| FInf
| FNegInf.

#[warnings="-register-all"]
Inductive pyval : Type :=
| PNone
| PBool (b : bool)
| PInt (z : Z)
| PFloat (f : pyfloat)
| PStr (s : pystr)
| PBytes (b : bytes)
| PList (l : list pyval)
| PDict (d : list (pystr * pyval)).

(** The messages of the exceptions that carry one. *)
Inductive message : Type :=
| Missing_required_header (reqhdr : pystr)
| Invalid_events_mask_mode (mode : pystr)
| Invalid_file_object
| Peer_closed.

(** Exceptions, by class.  [Unmodelled] marks behaviour outside this
    embedding (binary floating point arithmetic, codecs other than UTF-8,
    ASCII and Latin-1, the encoding of the locale). *)
Inductive exn : Type :=
| ValueError (msg : message)
| RuntimeError (msg : message)
| TypeError
| KeyError
| AttributeError
| OSError
| JSONDecodeError
| UnicodeDecodeError
| UnicodeEncodeError
| StructError
| Unmodelled.

(** A computation that returns or raises. *)
Definition res (A : Type) : Type := (A + exn)%type.

Definition rbind {A B} (m : res A) (k : A -> res B) : res B :=
  match m with
  | inl a => k a
  | inr e => inr e
  end.

(** Dictionaries keep insertion order; assigning to a present key keeps its
    place. *)
Fixpoint dict_get (d : list (pystr * pyval)) (k : pystr) : option pyval :=
  match d with
  | [] => None
  | (k', v) :: d' => if pystr_eqb k' k then Some v else dict_get d' k
  end.

Fixpoint dict_set (d : list (pystr * pyval)) (k : pystr) (v : pyval)
  : list (pystr * pyval) :=
  match d with
  | [] => [(k, v)]
  | (k', v') :: d' =>
      if pystr_eqb k' k then (k', v) :: d' else (k', v') :: dict_set d' k v
  end.

Definition dict_has (d : list (pystr * pyval)) (k : pystr) : bool :=
  match dict_get d k with Some _ => true | None => false end.

(** [float(x) != 0.0] for a decimal: the nearest double is zero exactly when
    the decimal is at most [2^-1075] in magnitude. *)
Definition float_truthy (f : pyfloat) : bool :=
  match f with
  | FDec m e =>
      negb (m =? 0) &&
      ((0 <=? e) || (10 ^ (- e) <? Z.abs m * 2 ^ 1075))
  | _ => true
  end.

(** [bool(v)]. *)
Definition truthy (v : pyval) : bool :=
  match v with
  | PNone => false
  | PBool b => b
  | PInt z => negb (z =? 0)
  | PFloat f => float_truthy f
  | PStr s => match s with [] => false | _ => true end
  | PBytes b => match b with [] => false | _ => true end
  | PList l => match l with [] => false | _ => true end
  | PDict d => match d with [] => false | _ => true end
  end.

Definition is_none (v : pyval) : bool :=
  match v with PNone => true | _ => false end.

(** [v == s] for a [str] literal [s]. *)
Definition eq_str (v : pyval) (s : pystr) : bool :=
  match v with
  | PStr t => pystr_eqb t s
  | _ => false
  end.

(** [k in v] for a [str] [k]. *)
Definition contains (v : pyval) (k : pystr) : res bool :=
  match v with
  | PDict d => inl (dict_has d k)
  | PList l => inl (existsb (fun x => eq_str x k) l)
  | PStr s => inl (substring k s)
  | PBytes _ => inr TypeError
  | _ => inr TypeError
  end.

(** [v[k]] for a [str] [k]. *)
Definition subscript (v : pyval) (k : pystr) : res pyval :=
  match v with
  | PDict d =>
      match dict_get d k with
      | Some x => inl x
      | None => inr KeyError
      end
  | _ => inr TypeError
  end.

(** [b[:n]] and [b[n:]] on [bytes], for an [int] [n] of either sign. *)
Definition slice_to (b : bytes) (n : Z) : bytes :=
  if 0 <=? n then firstn (Z.to_nat n) b
  else firstn (Z.to_nat (Z.of_nat (length b) + n)) b.

Definition slice_from (b : bytes) (n : Z) : bytes :=
  if 0 <=? n then skipn (Z.to_nat n) b
  else skipn (Z.to_nat (Z.of_nat (length b) + n)) b.

Definition blen (b : bytes) : Z := Z.of_nat (length b).

End Py.

Export Py.

(** ** [str.encode] and the text layer of [io.TextIOWrapper]: the codecs *)

Module Codec.

Definition utf8_char (c : Z) : bytes :=
  if c <? 128 then [b8 c]
  else if c <? 2048 then [b8 (192 + c / 64); b8 (128 + c mod 64)]
  else if c <? 65536 then
    [b8 (224 + c / 4096); b8 (128 + (c / 64) mod 64); b8 (128 + c mod 64)]
  else
    [b8 (240 + c / 262144); b8 (128 + (c / 4096) mod 64);
     b8 (128 + (c / 64) mod 64); b8 (128 + c mod 64)].

(** [s.encode("utf-8")]: a surrogate raises [UnicodeEncodeError]. *)
Fixpoint utf8_encode (s : pystr) : res bytes :=
  match s with
  | [] => inl []
  | c :: s' =>
      if is_scalar c
      then rbind (utf8_encode s') (fun r => inl (utf8_char c ++ r))
      else inr UnicodeEncodeError
  end.

Definition is_cont (b : byte) : bool := (128 <=? zb b) && (zb b <? 192).

Definition cont (b : byte) : Z := zb b - 128.

(** Strict UTF-8 decoding: overlong forms, surrogates, values above
    U+10FFFF and truncated sequences raise [UnicodeDecodeError]. *)
Fixpoint utf8_decode (b : bytes) : res pystr :=
  match b with
  | [] => inl []
  | b0 :: r0 =>
      let z0 := zb b0 in
      if z0 <? 128 then
        rbind (utf8_decode r0) (fun s => inl (z0 :: s))
      else if (194 <=? z0) && (z0 <? 224) then
        match r0 with
        | b1 :: r1 =>
            if is_cont b1 then
              rbind (utf8_decode r1)
                    (fun s => inl (((z0 - 192) * 64 + cont b1) :: s))
            else inr UnicodeDecodeError
        | _ => inr UnicodeDecodeError
        end
      else if (224 <=? z0) && (z0 <? 240) then
        match r0 with
        | b1 :: b2 :: r2 =>
            let c := (z0 - 224) * 4096 + cont b1 * 64 + cont b2 in
            if is_cont b1 && is_cont b2 && (2048 <=? c) && negb (is_surrogate c)
            then rbind (utf8_decode r2) (fun s => inl (c :: s))
            else inr UnicodeDecodeError
        | _ => inr UnicodeDecodeError
        end
      else if (240 <=? z0) && (z0 <? 245) then
        match r0 with
        | b1 :: b2 :: b3 :: r3 =>
            let c := (z0 - 240) * 262144 + cont b1 * 4096
                     + cont b2 * 64 + cont b3 in
            if is_cont b1 && is_cont b2 && is_cont b3
               && (65536 <=? c) && (c <=? 1114111)
            then rbind (utf8_decode r3) (fun s => inl (c :: s))
            else inr UnicodeDecodeError
        | _ => inr UnicodeDecodeError
        end
      else inr UnicodeDecodeError
  end.

(** *** Codec names

    [codecs.lookup] is insensitive to case and to punctuation: letters are
    folded to lower case, and every run of characters other than letters,
    digits and the dot becomes one underscore, dropped at either end of the
    name.  The result is looked up among the names of [encodings.aliases].
    Of the codecs, UTF-8, ASCII and Latin-1 are embedded; every other name,
    and a name with a character outside ASCII, is outside this embedding
    ([lookup] answers [None]). *)

Inductive codec : Type :=
| Utf_8
| Ascii
| Latin_1.

Definition is_alnum (c : Z) : bool :=
  ((48 <=? c) && (c <=? 57)) || ((65 <=? c) && (c <=? 90))
  || ((97 <=? c) && (c <=? 122)).

Definition lower (c : Z) : Z :=
  if (65 <=? c) && (c <=? 90) then c + 32 else c.

(** [started]: a character has been kept; [punct]: punctuation has been
    skipped since. *)
Fixpoint normalize_from (started punct : bool) (name : pystr) : pystr :=
  match name with
  | [] => []
  | c :: name' =>
      if is_alnum c || (c =? 46) then
        (if punct && started then [95] else [])
          ++ lower c :: normalize_from true false name'
      else normalize_from started true name'
  end.

Definition normalize (name : pystr) : pystr := normalize_from false false name.

Definition utf_8_names : list pystr :=
  [ u "utf_8"; u "u8"; u "utf"; u "utf8"; u "utf8_ucs2"; u "utf8_ucs4" ].

Definition ascii_names : list pystr :=
  [ u "ascii"; u "646"; u "ansi_x3.4_1968"; u "ansi_x3_4_1968";
    u "ansi_x3.4_1986"; u "cp367"; u "csascii"; u "ibm367"; u "iso646_us";
    u "iso_646.irv_1991"; u "iso_ir_6"; u "us"; u "us_ascii" ].

Definition latin_1_names : list pystr :=
  [ u "latin_1"; u "8859"; u "cp819"; u "csisolatin1"; u "ibm819";
    u "iso8859"; u "iso8859_1"; u "iso_8859_1"; u "iso_8859_1_1987";
    u "iso_ir_100"; u "l1"; u "latin"; u "latin1" ].

Definition lookup (name : pystr) : option codec :=
  if forallb (fun c => (0 <? c) && (c <? 128)) name then
    let n := normalize name in
    if existsb (pystr_eqb n) utf_8_names then Some Utf_8
    else if existsb (pystr_eqb n) ascii_names then Some Ascii
    else if existsb (pystr_eqb n) latin_1_names then Some Latin_1
    else None
  else None.

(** [bytes.decode] and [str.encode] with [errors="strict"]. *)
Definition decode (c : codec) (b : bytes) : res pystr :=
  match c with
  | Utf_8 => utf8_decode b
  | Ascii =>
      if forallb (fun x => zb x <? 128) b then inl (map zb b)
      else inr UnicodeDecodeError
  | Latin_1 => inl (map zb b)
  end.

Definition encode (c : codec) (s : pystr) : res bytes :=
  match c with
  | Utf_8 => utf8_encode s
  | Ascii =>
      if forallb (fun x => (0 <=? x) && (x <? 128)) s then inl (map b8 s)
      else inr UnicodeEncodeError
  | Latin_1 =>
      if forallb (fun x => (0 <=? x) && (x <? 256)) s then inl (map b8 s)
      else inr UnicodeEncodeError
  end.

End Codec.

(** ** [struct.pack(">H", n)] and [struct.unpack(">H", b)[0]] *)

Module Struct.

Definition pack_H (n : Z) : res bytes :=
  if (0 <=? n) && (n <=? 65535)
  then inl [b8 (n / 256); b8 (n mod 256)]
  else inr StructError.

Definition unpack_H (b : bytes) : res Z :=
  match b with
  | [hi; lo] => inl (zb hi * 256 + zb lo)
  | _ => inr StructError
  end.

End Struct.

(** ** The [json] module: [dumps(obj, ensure_ascii=False)] and [loads]

    Integers are unbounded (the digit limit of [int(str)] and the recursion
    limit of the scanner are not part of the embedding). *)

Module Json.

(** *** Encoder *)

Definition hex_digit (n : Z) : Z := if n <? 10 then 48 + n else 87 + n.

(** One character of a string literal: the table [ESCAPE_DCT]. *)
Definition escape_char (c : Z) : pystr :=
  if c =? 34 then [92; 34]
  else if c =? 92 then [92; 92]
  else if c =? 10 then [92; 110]
  else if c =? 13 then [92; 114]
  else if c =? 9 then [92; 116]
  else if c =? 8 then [92; 98]
  else if c =? 12 then [92; 102]
  else if (0 <=? c) && (c <? 32)
       then [92; 117; 48; 48; hex_digit (c / 16); hex_digit (c mod 16)]
  else [c].

Definition encode_basestring (s : pystr) : pystr :=
  34 :: flat_map escape_char s ++ [34].

Fixpoint digits_from (fuel : nat) (n : Z) (acc : pystr) : pystr :=
  match fuel with
  | O => acc
  | S f =>
      let acc' := (48 + n mod 10) :: acc in
      if n <? 10 then acc' else digits_from f (n / 10) acc'
  end.

Definition nat_repr (n : Z) : pystr :=
  digits_from (S (Z.to_nat (Z.log2 n))) n [].

(** [int.__repr__]. *)
Definition int_repr (n : Z) : pystr :=
  if n <? 0 then 45 :: nat_repr (- n) else nat_repr n.

Fixpoint dumps (v : pyval) : res pystr :=
  match v with
  | PNone => inl (u "null")
  | PBool true => inl (u "true")
  | PBool false => inl (u "false")
  | PInt z => inl (int_repr z)
  | PFloat FNaN => inl (u "NaN")
  | PFloat FInf => inl (u "Infinity")
  | PFloat FNegInf => inl (u "-Infinity")
  | PFloat (FDec _ _) => inr Unmodelled
  | PStr s => inl (encode_basestring s)
  | PBytes _ => inr TypeError
  | PList l =>
      let fix items (first : bool) (l : list pyval) : res pystr :=
        match l with
        | [] => inl []
        | x :: l' =>
            rbind (dumps x) (fun sx =>
            rbind (items false l') (fun r =>
            inl ((if first then [] else u ", ") ++ sx ++ r)))
        end in
      rbind (items true l) (fun body => inl (u "[" ++ body ++ u "]"))
  | PDict d =>
      let fix members (first : bool) (d : list (pystr * pyval)) : res pystr :=
        match d with
        | [] => inl []
        | (k, x) :: d' =>
            rbind (dumps x) (fun sx =>
            rbind (members false d') (fun r =>
            inl ((if first then [] else u ", ")
                 ++ encode_basestring k ++ u ": " ++ sx ++ r)))
        end in
      rbind (members true d) (fun body => inl (u "{" ++ body ++ u "}"))
  end.

(** *** Decoder *)

Definition is_ws (c : Z) : bool :=
  (c =? 32) || (c =? 9) || (c =? 10) || (c =? 13).

Fixpoint skip_ws (s : pystr) : pystr :=
  match s with
  | c :: s' => if is_ws c then skip_ws s' else s
  | [] => []
  end.

Definition is_digit (c : Z) : bool := (48 <=? c) && (c <=? 57).

Definition hex_val (c : Z) : option Z :=
  if (48 <=? c) && (c <=? 57) then Some (c - 48)
  else if (97 <=? c) && (c <=? 102) then Some (c - 87)
  else if (65 <=? c) && (c <=? 70) then Some (c - 55)
  else None.

Definition hex4 (a b c d : Z) : option Z :=
  match hex_val a, hex_val b, hex_val c, hex_val d with
  | Some x, Some y, Some z, Some w => Some (((x * 16 + y) * 16 + z) * 16 + w)
  | _, _, _, _ => None
  end.

Definition simple_escape (e : Z) : option Z :=
  if e =? 34 then Some 34
  else if e =? 92 then Some 92
  else if e =? 47 then Some 47
  else if e =? 98 then Some 8
  else if e =? 102 then Some 12
  else if e =? 110 then Some 10
  else if e =? 114 then Some 13
  else if e =? 116 then Some 9
  else None.

Definition is_high_surrogate (c : Z) : bool := (55296 <=? c) && (c <=? 56319).
Definition is_low_surrogate (c : Z) : bool := (56320 <=? c) && (c <=? 57343).

Definition join_surrogates (hi lo : Z) : Z :=
  65536 + (hi - 55296) * 1024 + (lo - 56320).

Definition push {A} (c : Z) (r : res (pystr * A)) : res (pystr * A) :=
  rbind r (fun p => inl (c :: fst p, snd p)).

(** [scanstring(s, end, strict=True)], from the character after the opening
    quote: the decoded string and what follows the closing quote. *)
Fixpoint scanstring (s : pystr) : res (pystr * pystr) :=
  match s with
  | [] => inr JSONDecodeError
  | c :: s1 =>
      if c =? 34 then inl ([], s1)
      else if c =? 92 then
        match s1 with
        | [] => inr JSONDecodeError
        | e :: s2 =>
            if e =? 117 then
              match s2 with
              | h1 :: h2 :: h3 :: h4 :: r =>
                  match hex4 h1 h2 h3 h4 with
                  | None => inr JSONDecodeError
                  | Some cu =>
                      match r with
                      | p :: q :: g1 :: g2 :: g3 :: g4 :: ((_ :: _) as r') =>
                          if is_high_surrogate cu && (p =? 92) && (q =? 117)
                          then
                            match hex4 g1 g2 g3 g4 with
                            | None => inr JSONDecodeError
                            | Some cu2 =>
                                if is_low_surrogate cu2
                                then push (join_surrogates cu cu2)
                                          (scanstring r')
                                else push cu (scanstring r)
                            end
                          else push cu (scanstring r)
                      | _ => push cu (scanstring r)
                      end
                  end
              | _ => inr JSONDecodeError
              end
            else
              match simple_escape e with
              | Some x => push x (scanstring s2)
              | None => inr JSONDecodeError
              end
        end
      else if c <? 32 then inr JSONDecodeError
      else push c (scanstring s1)
  end.

Fixpoint span_digits (s : pystr) : pystr * pystr :=
  match s with
  | c :: s' =>
      if is_digit c
      then let p := span_digits s' in (c :: fst p, snd p)
      else ([], s)
  | [] => ([], [])
  end.

Definition digits_val (ds : pystr) : Z :=
  fold_left (fun acc d => acc * 10 + (d - 48)) ds 0.

(** The integer part (an optional minus, then a lone zero or a digit run
    that does not start with zero): sign, digits, rest. *)
Definition match_int (s : pystr) : option (bool * pystr * pystr) :=
  let neg := match s with c :: _ => c =? 45 | [] => false end in
  let s1 := if neg then tl s else s in
  match s1 with
  | c :: t =>
      if c =? 48 then Some (neg, [c], t)
      else if is_digit c
           then let p := span_digits t in Some (neg, c :: fst p, snd p)
      else None
  | [] => None
  end.

(** The optional fraction: a dot and at least one digit. *)
Definition match_frac (s : pystr) : pystr * pystr :=
  match s with
  | p :: d :: t =>
      if (p =? 46) && is_digit d
      then let q := span_digits t in (d :: fst q, snd q)
      else ([], s)
  | _ => ([], s)
  end.

(** The optional exponent: [e] or [E], an optional sign, at least one
    digit. *)
Definition match_exp (s : pystr) : option Z * pystr :=
  match s with
  | e :: t =>
      if (e =? 101) || (e =? 69) then
        let neg := match t with c :: _ => c =? 45 | [] => false end in
        let signed := match t with
                      | c :: _ => (c =? 45) || (c =? 43)
                      | [] => false
                      end in
        let q := span_digits (if signed then tl t else t) in
        match fst q with
        | [] => (None, s)
        | ds => (Some (if neg then - digits_val ds else digits_val ds), snd q)
        end
      else (None, s)
  | [] => (None, s)
  end.

(** [match_number]: an [int] when neither fraction nor exponent is there. *)
Definition match_number (s : pystr) : option (pyval * pystr) :=
  match match_int s with
  | None => None
  | Some (neg, ids, r1) =>
      let fr := match_frac r1 in
      let ex := match_exp (snd fr) in
      let sign := fun z : Z => if (neg : bool) then - z else z in
      match fst fr, fst ex with
      | [], None => Some (PInt (sign (digits_val ids)), snd ex)
      | fds, oe =>
          let e := match oe with Some e => e | None => 0 end in
          Some (PFloat (FDec (sign (digits_val (ids ++ fds)))
                             (e - Z.of_nat (length fds))), snd ex)
      end
  end.

(** The literals and numbers of [scan_once]. *)
Definition scan_atom (s : pystr) : res (pyval * pystr) :=
  if starts_with (u "null") s then inl (PNone, skipn 4 s)
  else if starts_with (u "true") s then inl (PBool true, skipn 4 s)
  else if starts_with (u "false") s then inl (PBool false, skipn 5 s)
  else if starts_with (u "NaN") s then inl (PFloat FNaN, skipn 3 s)
  else if starts_with (u "Infinity") s then inl (PFloat FInf, skipn 8 s)
  else if starts_with (u "-Infinity") s then inl (PFloat FNegInf, skipn 9 s)
  else match match_number s with
       | Some r => inl r
       | None => inr JSONDecodeError
       end.

(** [scan_once], with the loops of [JSONObject] and [JSONArray].  Every call
    spends one unit of [fuel]; of two calls in a row the second starts on a
    shorter text, so more than twice the length of the text is never used
    up. *)
Fixpoint scan_once (fuel : nat) (s : pystr) {struct fuel}
  : res (pyval * pystr) :=
  match fuel with
  | O => inr Unmodelled
  | S f =>
      match s with
      | [] => inr JSONDecodeError
      | c :: t =>
          if c =? 34 then
            rbind (scanstring t) (fun p => inl (PStr (fst p), snd p))
          else if c =? 123 then
            match skip_ws t with
            | c1 :: t1 =>
                if c1 =? 125 then inl (PDict [], t1)
                else object_loop f (c1 :: t1) []
            | [] => inr JSONDecodeError
            end
          else if c =? 91 then
            match skip_ws t with
            | c1 :: t1 =>
                if c1 =? 93 then inl (PList [], t1)
                else array_loop f (c1 :: t1) []
            | [] => inr JSONDecodeError
            end
          else scan_atom s
      end
  end

with object_loop (fuel : nat) (s : pystr) (acc : list (pystr * pyval))
       {struct fuel} : res (pyval * pystr) :=
  match fuel with
  | O => inr Unmodelled
  | S f =>
      match s with
      | c :: t =>
          if c =? 34 then
            rbind (scanstring t) (fun kp =>
            match skip_ws (snd kp) with
            | c1 :: t1 =>
                if c1 =? 58 then
                  rbind (scan_once f (skip_ws t1)) (fun vp =>
                  let acc' := dict_set acc (fst kp) (fst vp) in
                  match skip_ws (snd vp) with
                  | c2 :: t2 =>
                      if c2 =? 125 then inl (PDict acc', t2)
                      else if c2 =? 44 then object_loop f (skip_ws t2) acc'
                      else inr JSONDecodeError
                  | [] => inr JSONDecodeError
                  end)
                else inr JSONDecodeError
            | [] => inr JSONDecodeError
            end)
          else inr JSONDecodeError
      | [] => inr JSONDecodeError
      end
  end

with array_loop (fuel : nat) (s : pystr) (acc : list pyval)
       {struct fuel} : res (pyval * pystr) :=
  match fuel with
  | O => inr Unmodelled
  | S f =>
      rbind (scan_once f s) (fun vp =>
      let acc' := acc ++ [fst vp] in
      match skip_ws (snd vp) with
      | c2 :: t2 =>
          if c2 =? 93 then inl (PList acc', t2)
          else if c2 =? 44 then array_loop f (skip_ws t2) acc'
          else inr JSONDecodeError
      | [] => inr JSONDecodeError
      end)
  end.

(** [json.loads(s)] for a [str]: a leading BOM and trailing data raise. *)
Definition loads (s : pystr) : res pyval :=
  if starts_with [65279] s then inr JSONDecodeError
  else
    rbind (scan_once (S (2 * length s)) (skip_ws s)) (fun vp =>
    match skip_ws (snd vp) with
    | [] => inl (fst vp)
    | _ :: _ => inr JSONDecodeError
    end).

End Json.

(** ** The [selectors] registry, as far as one socket sees it *)

Module Selectors.

Definition EVENT_READ : Z := 1.
Definition EVENT_WRITE : Z := 2.

(** File descriptor of a registered socket, with its event mask. *)
Definition selector := list (Z * Z).

Fixpoint get_key (sel : selector) (fd : Z) : option Z :=
  match sel with
  | [] => None
  | (fd', ev) :: sel' => if fd' =? fd then Some ev else get_key sel' fd
  end.

Fixpoint set_key (sel : selector) (fd ev : Z) : selector :=
  match sel with
  | [] => []
  | (fd', ev') :: sel' =>
      if fd' =? fd then (fd', ev) :: sel' else (fd', ev') :: set_key sel' fd ev
  end.

Fixpoint del_key (sel : selector) (fd : Z) : selector :=
  match sel with
  | [] => []
  | (fd', ev') :: sel' =>
      if fd' =? fd then sel' else (fd', ev') :: del_key sel' fd
  end.

(** [selector.modify(fileobj, events, data)]: [ValueError] for [None],
    [KeyError] for a socket that is not registered. *)
Definition modify (sel : selector) (fileobj : option Z) (events : Z)
  : res selector :=
  match fileobj with
  | None => inr (ValueError Invalid_file_object)
  | Some fd =>
      match get_key sel fd with
      | None => inr KeyError
      | Some _ => inl (set_key sel fd events)
      end
  end.

(** [selector.unregister(fileobj)]. *)
Definition unregister (sel : selector) (fileobj : option Z) : res selector :=
  match fileobj with
  | None => inr (ValueError Invalid_file_object)
  | Some fd =>
      match get_key sel fd with
      | None => inr KeyError
      | Some _ => inl (del_key sel fd)
      end
  end.

End Selectors.

(** ** [sys.byteorder] *)

Module Sys.

Inductive endianness : Type := little | big.

Definition name (e : endianness) : pystr :=
  match e with
  | little => u "little"
  | big => u "big"
  end.

End Sys.

(** ** The class [Server] *)

(** What [print] wrote, by call site. *)
Inductive printed : Type :=
| Print_sending (buf : bytes) (addr : pyval)
| Print_closing (addr : pyval)
| Print_unregister_error (addr : pyval) (exc : exn)
| Print_close_error (addr : pyval) (exc : exn)
| Print_received_request (request addr : pyval)
| Print_received_other (content_type addr : pyval).

(** What one call of [sock.recv(4096)], [sock.send] and [sock.close] did.
    The data of [Recv] is what [recv] returned (empty when the peer has
    closed); its length, at most 4096 on a socket, is not restricted here. *)
Inductive recv_outcome : Type :=
| Recv (data : bytes)
| Recv_BlockingIOError
| Recv_OSError.

Inductive send_outcome : Type :=
| Sent (sent : nat)
| Send_BlockingIOError
| Send_OSError.

Inductive close_outcome : Type :=
| Closed
| Close_OSError.

Module Server.

(** The attributes set by [__init__]; [sock] is the descriptor of the socket
    or [None]; [stdout] collects what was printed. *)
Record t : Type := mk {
  selector : Selectors.selector;
  sock : option Z;
  addr : pyval;
  verbose : bool;
  _recv_buffer : bytes;
  _send_buffer : bytes;
  _jsonheader_len : option Z;
  _jsonheader : pyval;
  jsonheader : pyval;
  request : pyval;
  response_created : bool;
  stdout : list printed
}.

Definition __init__ (selector : Selectors.selector) (sock : option Z)
           (addr : pyval) (verbose : bool) : t :=
  {| selector := selector; sock := sock; addr := addr; verbose := verbose;
     _recv_buffer := []; _send_buffer := [];
     _jsonheader_len := None; _jsonheader := PNone; jsonheader := PNone;
     request := PNone; response_created := false; stdout := [] |}.

Definition set_selector (v : Selectors.selector) (s : t) : t :=
  mk v (sock s) (addr s) (verbose s) (_recv_buffer s) (_send_buffer s)
     (_jsonheader_len s) (_jsonheader s) (jsonheader s) (request s)
     (response_created s) (stdout s).

Definition set_sock (v : option Z) (s : t) : t :=
  mk (selector s) v (addr s) (verbose s) (_recv_buffer s) (_send_buffer s)
     (_jsonheader_len s) (_jsonheader s) (jsonheader s) (request s)
     (response_created s) (stdout s).

Definition set_recv_buffer (v : bytes) (s : t) : t :=
  mk (selector s) (sock s) (addr s) (verbose s) v (_send_buffer s)
     (_jsonheader_len s) (_jsonheader s) (jsonheader s) (request s)
     (response_created s) (stdout s).

Definition set_send_buffer (v : bytes) (s : t) : t :=
  mk (selector s) (sock s) (addr s) (verbose s) (_recv_buffer s) v
     (_jsonheader_len s) (_jsonheader s) (jsonheader s) (request s)
     (response_created s) (stdout s).

Definition set_jsonheader_len (v : option Z) (s : t) : t :=
  mk (selector s) (sock s) (addr s) (verbose s) (_recv_buffer s)
     (_send_buffer s) v (_jsonheader s) (jsonheader s) (request s)
     (response_created s) (stdout s).

Definition set_jsonheader (v : pyval) (s : t) : t :=
  mk (selector s) (sock s) (addr s) (verbose s) (_recv_buffer s)
     (_send_buffer s) (_jsonheader_len s) (_jsonheader s) v (request s)
     (response_created s) (stdout s).

Definition set_request (v : pyval) (s : t) : t :=
  mk (selector s) (sock s) (addr s) (verbose s) (_recv_buffer s)
     (_send_buffer s) (_jsonheader_len s) (_jsonheader s) (jsonheader s) v
     (response_created s) (stdout s).

Definition set_response_created (v : bool) (s : t) : t :=
  mk (selector s) (sock s) (addr s) (verbose s) (_recv_buffer s)
     (_send_buffer s) (_jsonheader_len s) (_jsonheader s) (jsonheader s)
     (request s) v (stdout s).

Definition set_stdout (v : list printed) (s : t) : t :=
  mk (selector s) (sock s) (addr s) (verbose s) (_recv_buffer s)
     (_send_buffer s) (_jsonheader_len s) (_jsonheader s) (jsonheader s)
     (request s) (response_created s) v.

(** *** Methods: state passing with exceptions

    A method maps the object to the object it leaves behind and to its
    return value or the exception it raised. *)

Definition M (A : Type) : Type := t -> t * res A.

Definition ret {A} (a : A) : M A := fun self => (self, inl a).

Definition raise {A} (e : exn) : M A := fun self => (self, inr e).

Definition bind {A B} (m : M A) (k : A -> M B) : M B :=
  fun self =>
    match m self with
    | (self', inl a) => k a self'
    | (self', inr e) => (self', inr e)
    end.

Definition get : M t := fun self => (self, inl self).

Definition update (f : t -> t) : M unit := fun self => (f self, inl tt).

Definition lift {A} (r : res A) : M A := fun self => (self, r).

Definition when (b : bool) (m : M unit) : M unit := if b then m else ret tt.

Definition print (p : printed) : M unit :=
  update (fun self => set_stdout (stdout self ++ [p]) self).

Declare Scope py_scope.
Delimit Scope py_scope with py.
Notation "x <- m ;; k" := (bind m (fun x => k))
  (at level 61, m at next level, right associativity) : py_scope.
Notation "m ;; k" := (bind m (fun _ => k))
  (at level 61, right associativity) : py_scope.
Local Open Scope py_scope.

(** [len(v)], [n >= v] for an [int] [n], and [b[:v]] on [bytes]. *)
Definition len (v : pyval) : res Z :=
  match v with
  | PBytes b => inl (blen b)
  | PStr s => inl (Z.of_nat (length s))
  | PList l => inl (Z.of_nat (length l))
  | PDict d => inl (Z.of_nat (length d))
  | _ => inr TypeError
  end.

Definition int_ge (n : Z) (v : pyval) : res bool :=
  match v with
  | PInt m => inl (m <=? n)
  | PBool b => inl ((if b then 1 else 0) <=? n)
  | PFloat FNaN => inl false
  | PFloat FInf => inl false
  | PFloat FNegInf => inl true
  | PFloat (FDec _ _) => inr Unmodelled
  | _ => inr TypeError
  end.

Definition bytes_upto (b : bytes) (v : pyval) : res bytes :=
  match v with
  | PInt m => inl (slice_to b m)
  | PBool c => inl (slice_to b (if c then 1 else 0))
  | PNone => inl b
  | _ => inr TypeError
  end.

(** The keyword arguments of [_create_message]. *)
Record response : Type := {
  content_bytes : pyval;
  content_type : pyval;
  content_encoding : pyval
}.

Section Methods.

(** [sys.byteorder] of the platform. *)
Variable byteorder : Sys.endianness.

Definition _set_selector_events_mask (mode : pystr) : M unit :=
  events <-
    (if pystr_eqb mode (u "r") then ret Selectors.EVENT_READ
     else if pystr_eqb mode (u "w") then ret Selectors.EVENT_WRITE
     else if pystr_eqb mode (u "rw")
          then ret (Z.lor Selectors.EVENT_READ Selectors.EVENT_WRITE)
     else raise (ValueError (Invalid_events_mask_mode mode))) ;;
  self <- get ;;
  sel <- lift (Selectors.modify (selector self) (sock self) events) ;;
  update (set_selector sel).

Definition _read (r : recv_outcome) : M unit :=
  self <- get ;;
  match sock self with
  | None => raise AttributeError
  | Some _ =>
      match r with
      | Recv_BlockingIOError => ret tt
      | Recv_OSError => raise OSError
      | Recv data =>
          match data with
          | _ :: _ => update (set_recv_buffer (_recv_buffer self ++ data))
          | [] => raise (RuntimeError Peer_closed)
          end
      end
  end.

Definition close (c : close_outcome) : M unit :=
  self <- get ;;
  when (verbose self) (print (Print_closing (addr self))) ;;
  match Selectors.unregister (selector self) (sock self) with
  | inl sel => update (set_selector sel)
  | inr exc => print (Print_unregister_error (addr self) exc)
  end ;;
  match sock self with
  | None => update (set_sock None) ;; raise AttributeError
  | Some _ =>
      match c with
      | Closed => ret tt
      | Close_OSError => print (Print_close_error (addr self) OSError)
      end ;;
      update (set_sock None)
  end.

Definition _write (w : send_outcome) (c : close_outcome) : M unit :=
  self <- get ;;
  match _send_buffer self with
  | [] => ret tt
  | _ :: _ =>
      when (verbose self)
           (print (Print_sending (_send_buffer self) (addr self))) ;;
      match sock self with
      | None => raise AttributeError
      | Some _ =>
          match w with
          | Send_BlockingIOError => ret tt
          | Send_OSError => raise OSError
          | Sent sent =>
              update (set_send_buffer (skipn sent (_send_buffer self))) ;;
              self <- get ;;
              match sent, _send_buffer self with
              | S _, [] => close c
              | _, _ => ret tt
              end
          end
      end
  end.

Definition _json_encode (obj : pyval) (encoding : pystr) : res bytes :=
  rbind (Json.dumps obj) (fun text =>
  match Codec.lookup encoding with
  | Some c => Codec.encode c text
  | None => inr Unmodelled
  end).

(** [io.TextIOWrapper] looks the codec up when it is built, and raises
    [TypeError] for an [encoding] that is neither a [str] nor [None]; for
    [None] it takes the encoding of the locale.  [json.load] then reads and
    decodes the whole of the bytes ([newline=""]: no line ending is
    translated). *)
Definition _json_decode (json_bytes : bytes) (encoding : pyval) : res pyval :=
  match encoding with
  | PStr e =>
      match Codec.lookup e with
      | Some c => rbind (Codec.decode c json_bytes) Json.loads
      | None => inr Unmodelled
      end
  | PNone => inr Unmodelled
  | _ => inr TypeError
  end.

Definition _create_message (r : response) : res bytes :=
  rbind (len (content_bytes r)) (fun n =>
  let jsonheader :=
    PDict [ (u "byteorder", PStr (Sys.name byteorder));
            (u "content-type", content_type r);
            (u "content-encoding", content_encoding r);
            (u "content-length", PInt n) ] in
  rbind (_json_encode jsonheader (u "utf-8")) (fun jsonheader_bytes =>
  rbind (Struct.pack_H (blen jsonheader_bytes)) (fun message_hdr =>
  match content_bytes r with
  | PBytes b => inl (message_hdr ++ jsonheader_bytes ++ b)
  | _ => inr TypeError
  end))).

Definition _create_response_json_content : res response :=
  let answer := PInt 1 in
  let content := PDict [ (u "result", answer) ] in
  let content_encoding := u "utf-8" in
  rbind (_json_encode content content_encoding) (fun b =>
  inl {| content_bytes := PBytes b;
         content_type := PStr (u "text/json");
         content_encoding := PStr content_encoding |}).

Definition _create_empty_response_content : response :=
  {| content_bytes := PNone;
     content_type := PNone;
     content_encoding := PStr (u "binary") |}.

Definition process_protoheader : M unit :=
  let hdrlen := 2 in
  self <- get ;;
  if hdrlen <=? blen (_recv_buffer self) then
    n <- lift (Struct.unpack_H (slice_to (_recv_buffer self) hdrlen)) ;;
    update (set_jsonheader_len (Some n)) ;;
    update (set_recv_buffer (slice_from (_recv_buffer self) hdrlen))
  else ret tt.

Definition required_headers : list pystr :=
  [ u "byteorder"; u "content-length"; u "content-type";
    u "content-encoding" ].

Fixpoint check_required (reqhdrs : list pystr) : M unit :=
  match reqhdrs with
  | [] => ret tt
  | reqhdr :: rest =>
      self <- get ;;
      present <- lift (contains (jsonheader self) reqhdr) ;;
      if present then check_required rest
      else raise (ValueError (Missing_required_header reqhdr))
  end.

Definition process_jsonheader : M unit :=
  self <- get ;;
  match _jsonheader_len self with
  | None => raise TypeError
  | Some hdrlen =>
      if hdrlen <=? blen (_recv_buffer self) then
        h <- lift (_json_decode (slice_to (_recv_buffer self) hdrlen)
                                (PStr (u "utf-8"))) ;;
        update (set_jsonheader h) ;;
        update (set_recv_buffer (slice_from (_recv_buffer self) hdrlen)) ;;
        check_required required_headers
      else ret tt
  end.

Definition process_request : M unit :=
  self <- get ;;
  content_len <- lift (subscript (jsonheader self) (u "content-length")) ;;
  enough <- lift (int_ge (blen (_recv_buffer self)) content_len) ;;
  if negb enough then ret tt
  else
    data <- lift (bytes_upto (_recv_buffer self) content_len) ;;
    ctype <- lift (subscript (jsonheader self) (u "content-type")) ;;
    if eq_str ctype (u "text/json") then
      encoding <- lift (subscript (jsonheader self) (u "content-encoding")) ;;
      req <- lift (_json_decode data encoding) ;;
      update (set_request req) ;;
      when (verbose self) (print (Print_received_request req (addr self)))
    else
      update (set_request (PBytes data)) ;;
      print (Print_received_other ctype (addr self)) ;;
      _set_selector_events_mask (u "w").

Definition create_response : M unit :=
  self <- get ;;
  ctype <- lift (subscript (jsonheader self) (u "content-type")) ;;
  resp <- (if eq_str ctype (u "text/json")
           then lift _create_response_json_content
           else ret _create_empty_response_content) ;;
  message <- lift (_create_message resp) ;;
  update (set_response_created true) ;;
  self <- get ;;
  update (set_send_buffer (_send_buffer self ++ message)).

Definition read (r : recv_outcome) : M unit :=
  _read r ;;
  self <- get ;;
  when (match _jsonheader_len self with None => true | Some _ => false end)
       process_protoheader ;;
  self <- get ;;
  when (match _jsonheader_len self with None => false | Some _ => true end)
       (when (is_none (jsonheader self)) process_jsonheader) ;;
  self <- get ;;
  when (truthy (jsonheader self))
       (when (is_none (request self)) process_request).

Definition write (w : send_outcome) (c : close_outcome) : M unit :=
  self <- get ;;
  when (truthy (request self))
       (when (negb (response_created self)) create_response) ;;
  _write w c.

Definition process_events (mask : Z) (r : recv_outcome) (w : send_outcome)
           (c : close_outcome) : M unit :=
  when (negb (Z.land mask Selectors.EVENT_READ =? 0)) (read r) ;;
  when (negb (Z.land mask Selectors.EVENT_WRITE =? 0)) (write w c).

End Methods.

End Server.

(** * Vocabulary of the statements *)

Import Json.

(** Text without negative code points, and runs of decimal digits. *)
Definition nonneg (s : pystr) : Prop := Forall (fun c => 0 <= c) s.

Definition all_digits (ds : pystr) : Prop := Forall (fun c => 48 <= c <= 57) ds.

Definition dstep (acc d : Z) : Z := acc * 10 + (d - 48).

(** The header mapping that [_create_message] serialises. *)
Definition header (bo ctype cenc : pystr) (n : Z) : pyval :=
  PDict [ (u "byteorder", PStr bo);
          (u "content-type", PStr ctype);
          (u "content-encoding", PStr cenc);
          (u "content-length", PInt n) ].

(** Its serialisation by [json.dumps]. *)
Definition header_text (bo ctype cenc : pystr) (n : Z) : pystr :=
  123 :: encode_basestring (u "byteorder") ++ u ": "
      ++ encode_basestring bo ++ u ", "
      ++ encode_basestring (u "content-type") ++ u ": "
      ++ encode_basestring ctype ++ u ", "
      ++ encode_basestring (u "content-encoding") ++ u ": "
      ++ encode_basestring cenc ++ u ", "
      ++ encode_basestring (u "content-length") ++ u ": "
      ++ int_repr n ++ [125].

Import Server.
Local Open Scope py_scope.

(** What [read] does after [_read]: the three decode stages, each under its
    guard. *)
Definition stages : M unit :=
  self <- get ;;
  when (match _jsonheader_len self with None => true | Some _ => false end)
       process_protoheader ;;
  self <- get ;;
  when (match _jsonheader_len self with None => false | Some _ => true end)
       (when (is_none (jsonheader self)) process_jsonheader) ;;
  self <- get ;;
  when (truthy (jsonheader self))
       (when (is_none (request self)) process_request).

(** One read-readiness event per chunk, up to the first exception. *)
Fixpoint feed (chunks : list bytes) : M unit :=
  match chunks with
  | [] => ret tt
  | chunk :: rest => read (Recv chunk) ;; feed rest
  end.

(** The two-byte length prefix of a header of [n] bytes. *)
Definition prefix (n : Z) : bytes := [b8 (n / 256); b8 (n mod 256)].

(** A wire message: length prefix, header bytes, content.  The header bytes
    decode to a mapping with the four required keys whose content length is
    the number of content bytes. *)
Record wire_message (hdr content : bytes) (d : list (pystr * pyval)) : Prop := {
  wm_length : blen hdr <= 65535;
  wm_decode : _json_decode hdr (PStr (u "utf-8")) = inl (PDict d);
  wm_required : forallb (dict_has d) required_headers = true;
  wm_content_length :
    dict_get d (u "content-length") = Some (PInt (blen content))
}.

Definition wire (hdr content : bytes) : bytes :=
  prefix (blen hdr) ++ hdr ++ content.

(** ** Sample connections and messages *)

(** A connection whose socket (descriptor 7) is registered for reading. *)
Definition conn0 : t :=
  __init__ [(7, Selectors.EVENT_READ)] (Some 7) (PStr (u "peer")) false.

Definition plain_header : bytes :=
  ascii_bytes (jq "{'byteorder': 'little', 'content-type': 'text/plain', 'content-encoding': 'utf-8', 'content-length': 2}").

Definition plain_content : bytes := ascii_bytes (u "hi").

Definition plain_dict : list (pystr * pyval) :=
  [ (u "byteorder", PStr (u "little"));
    (u "content-type", PStr (u "text/plain"));
    (u "content-encoding", PStr (u "utf-8"));
    (u "content-length", PInt 2) ].

(** A header without the byte-order key, and one announcing an empty JSON
    object. *)
Definition headless_header : bytes :=
  ascii_bytes (jq "{'content-type': 'text/plain', 'content-encoding': 'utf-8', 'content-length': 2}").

Definition headless_dict : list (pystr * pyval) :=
  [ (u "content-type", PStr (u "text/plain"));
    (u "content-encoding", PStr (u "utf-8"));
    (u "content-length", PInt 2) ].

Definition object_header : bytes :=
  ascii_bytes (jq "{'byteorder': 'little', 'content-type': 'text/json', 'content-encoding': 'utf-8', 'content-length': 2}").

Definition object_content : bytes := ascii_bytes (u "{}").

(** The scenario of the specification: its header as written (content
    length 13), the header with the length of the content (16), and the
    content. *)
Definition scenario_header_13 : bytes :=
  ascii_bytes (jq "{'byteorder':'little','content-type':'text/json','content-encoding':'utf-8','content-length':13}").

Definition scenario_header_16 : bytes :=
  ascii_bytes (jq "{'byteorder':'little','content-type':'text/json','content-encoding':'utf-8','content-length':16}").

Definition scenario_content : bytes := ascii_bytes (jq "{'cmd':'status'}").

(** ** Events of the reactor *)

(** What the reactor, or the caller in its exception handler, may invoke,
    with the outcomes of the socket calls made on the way. *)
Inductive event : Type :=
| On_events (mask : Z) (r : recv_outcome) (w : send_outcome)
            (c : close_outcome)
| On_close (c : close_outcome).

Definition handle (byteorder : Sys.endianness) (e : event) : M unit :=
  match e with
  | On_events mask r w c => process_events byteorder mask r w c
  | On_close c => close c
  end.

(** The connection after a sequence of events, whether or not they raised. *)
Fixpoint drive (byteorder : Sys.endianness) (es : list event) (self : t) : t :=
  match es with
  | [] => self
  | e :: es' => drive byteorder es' (fst (handle byteorder e self))
  end.

(** A method preserves an observation of the object. *)
Definition preserves {A B : Type} (f : t -> B) (m : M A) : Prop :=
  forall self, f (fst (m self)) = f self.

(** The response that [create_response] builds for a JSON request. *)
Definition json_response : response :=
  {| content_bytes := PBytes (ascii_bytes (jq "{'result': 1}"));
     content_type := PStr (u "text/json");
     content_encoding := PStr (u "utf-8") |}.

(** The outbound side: the response flag and the send buffer. *)
Definition outbound (self : t) : bool * bytes :=
  (response_created self, _send_buffer self).

(** A header that is a JSON array of the four required names. *)
Definition array_header : bytes :=
  ascii_bytes (jq "['byteorder', 'content-length', 'content-type', 'content-encoding']").

Definition array_value : pyval :=
  PList [ PStr (u "byteorder"); PStr (u "content-length");
          PStr (u "content-type"); PStr (u "content-encoding") ].

(** The parsed fields of a connection. *)
Definition parsed (self : t) : option Z * pyval * pyval :=
  (_jsonheader_len self, jsonheader self, request self).

(** One read event per outcome of [recv], up to the first exception, and the
    bytes those outcomes delivered. *)
Fixpoint feed_outcomes (rs : list recv_outcome) : M unit :=
  match rs with
  | [] => ret tt
  | r :: rest => read r ;; feed_outcomes rest
  end.

Definition delivered (rs : list recv_outcome) : bytes :=
  flat_map (fun r => match r with Recv data => data | _ => [] end) rs.

(** An outcome that is a non-empty chunk or a spurious wake-up. *)
Definition benign (r : recv_outcome) : Prop :=
  match r with
  | Recv data => data <> []
  | Recv_BlockingIOError => True
  | Recv_OSError => False
  end.

(** The connection after one read event per outcome, whether or not they
    raised. *)
Fixpoint after_reads (rs : list recv_outcome) (self : t) : t :=
  match rs with
  | [] => self
  | r :: rest => after_reads rest (fst (read r self))
  end.


(** A method relates the object it leaves to the object it found. *)
Definition keeps {A : Type} (R : t -> t -> Prop) (m : M A) : Prop :=
  forall self, R self (fst (m self)).

(** The socket attribute is [fd] or [None], and the registrations of the
    other sockets. *)
Definition own_socket (fd : Z) (self : t) : Prop :=
  sock self = Some fd \/ sock self = None.

Definition others_kept (fd : Z) (self self' : t) : Prop :=
  own_socket fd self ->
  own_socket fd self' /\
  forall fd', fd' <> fd ->
    Selectors.get_key (selector self') fd'
    = Selectors.get_key (selector self) fd'.

(** The receive buffer of [self'] is a tail of the one of [self]. *)
Definition tail_of (self self' : t) : Prop :=
  exists k, _recv_buffer self' = skipn k (_recv_buffer self).

(** ** JSON values *)

(** The keys of a [dict] are pairwise different. *)
Fixpoint keys_distinct (d : list (pystr * pyval)) : bool :=
  match d with
  | [] => true
  | (k, _) :: d' => negb (dict_has d' k) && keys_distinct d'
  end.

(** What [json.dumps] and [json.loads] exchange without loss: [None],
    [bool], [int] of at most 4300 digits (the default limit of the
    conversion between [int] and [str]), [str] without surrogates, and lists
    and dicts of such values ([float] and [bytes] excluded). *)
Fixpoint json_value (v : pyval) : bool :=
  match v with
  | PNone => true
  | PBool _ => true
  | PInt z => Z.abs z <? 10 ^ 4300
  | PFloat _ => false
  | PStr s => forallb is_scalar s
  | PBytes _ => false
  | PList l => forallb json_value l
  | PDict d =>
      forallb (fun kv => forallb is_scalar (fst kv) && json_value (snd kv)) d
      && keys_distinct d
  end.

(** How deep lists and dicts are nested in a value.  The interpreter's
    recursion limit bounds the nesting [json] follows; the statements about
    [json] stay well inside its default. *)
Fixpoint nesting (v : pyval) : nat :=
  match v with
  | PList l => S (fold_right (fun x n => Nat.max (nesting x) n) O l)
  | PDict d => S (fold_right (fun kv n => Nat.max (nesting (snd kv)) n) O d)
  | _ => O
  end.

(** The items of a list and the members of a dict as [json.dumps] writes
    them, after the opening bracket. *)
Fixpoint dumps_items (first : bool) (l : list pyval) : res pystr :=
  match l with
  | [] => inl []
  | x :: l' =>
      rbind (dumps x) (fun sx =>
      rbind (dumps_items false l') (fun r =>
      inl ((if first then [] else u ", ") ++ sx ++ r)))
  end.

Fixpoint dumps_members (first : bool) (d : list (pystr * pyval))
  : res pystr :=
  match d with
  | [] => inl []
  | (k, x) :: d' =>
      rbind (dumps x) (fun sx =>
      rbind (dumps_members false d') (fun r =>
      inl ((if first then [] else u ", ")
           ++ encode_basestring k ++ u ": " ++ sx ++ r)))
  end.

(** What may follow a value inside a text written by [json.dumps]: nothing,
    a comma, or a closing bracket or brace. *)
Definition stops (rest : pystr) : Prop :=
  match rest with
  | [] => True
  | c :: _ => c = 44 \/ c = 93 \/ c = 125
  end.

(** What [JSONArray] and [JSONObject] do after an item. *)
Definition array_next (f : nat) (s : pystr) (acc : list pyval)
  : res (pyval * pystr) :=
  match skip_ws s with
  | c2 :: t2 =>
      if c2 =? 93 then inl (PList acc, t2)
      else if c2 =? 44 then array_loop f (skip_ws t2) acc
      else inr JSONDecodeError
  | [] => inr JSONDecodeError
  end.

Definition object_next (f : nat) (s : pystr) (acc : list (pystr * pyval))
  : res (pyval * pystr) :=
  match skip_ws s with
  | c2 :: t2 =>
      if c2 =? 125 then inl (PDict acc, t2)
      else if c2 =? 44 then object_loop f (skip_ws t2) acc
      else inr JSONDecodeError
  | [] => inr JSONDecodeError
  end.

(** The first character of a value as [json.dumps] writes it. *)
Definition value_start (text : pystr) : Prop :=
  exists c t,
    text = c :: t /\ is_ws c = false /\ c <> 65279 /\ c <> 93.

(** A value whose text [json.dumps] writes without surrogates and
    [scan_once] reads back, given fuel and a delimiter after it. *)
Definition reads_back (v : pyval) : Prop :=
  json_value v = true ->
  exists text,
    dumps v = inl text /\
    forallb is_scalar text = true /\
    value_start text /\
    forall f rest,
      (2 * length text < f)%nat -> stops rest ->
      scan_once f (text ++ rest) = inl (v, rest).

(** * Properties *)

(** ** Bytes *)

Lemma zb_range (b : byte) : 0 <= zb b < 256.
Proof.
  unfold zb. pose proof (Byte.to_N_bounded b). lia.
Qed.

Lemma zb_b8 (z : Z) : 0 <= z < 256 -> zb (b8 z) = z.
Proof.
  intros Hz. unfold zb, b8. rewrite Z.mod_small by lia.
  destruct (Byte.of_N (Z.to_N z)) as [b|] eqn:E.
  - apply Byte.to_of_N in E. rewrite E. lia.
  - apply Byte.of_N_None_iff in E. lia.
Qed.

Lemma b8_zb (b : byte) : b8 (zb b) = b.
Proof.
  unfold b8. rewrite Z.mod_small by apply zb_range.
  unfold zb. rewrite N2Z.id, Byte.of_to_N. reflexivity.
Qed.

Lemma slice_to_app (a b : bytes) : slice_to (a ++ b) (blen a) = a.
Proof.
  unfold slice_to, blen.
  destruct (0 <=? Z.of_nat (length a)) eqn:E; [|apply Z.leb_gt in E; lia].
  rewrite Nat2Z.id. rewrite firstn_app, Nat.sub_diag, firstn_all. simpl.
  apply app_nil_r.
Qed.

Lemma slice_from_app (a b : bytes) : slice_from (a ++ b) (blen a) = b.
Proof.
  unfold slice_from, blen.
  destruct (0 <=? Z.of_nat (length a)) eqn:E; [|apply Z.leb_gt in E; lia].
  rewrite Nat2Z.id. rewrite skipn_app, Nat.sub_diag, skipn_all. reflexivity.
Qed.

Lemma blen_app (a b : bytes) : blen (a ++ b) = blen a + blen b.
Proof. unfold blen. rewrite length_app. lia. Qed.

Lemma blen_nonneg (a : bytes) : 0 <= blen a.
Proof. unfold blen. lia. Qed.

(** ** UTF-8 *)

Module CodecFacts.
Import Codec.

Ltac divmod := Z.div_mod_to_equations; lia.

Lemma is_scalar_range (c : Z) :
  is_scalar c = true ->
  0 <= c <= 1114111 /\ (c < 55296 \/ 57343 < c).
Proof.
  unfold is_scalar, is_codepoint, is_surrogate. intros H.
  apply andb_prop in H. destruct H as [H1 H2].
  apply andb_prop in H1. apply negb_true_iff in H2.
  apply andb_false_iff in H2. lia.
Qed.

Lemma decode_char (c : Z) (r : bytes) :
  is_scalar c = true ->
  utf8_decode (utf8_char c ++ r) =
  rbind (utf8_decode r) (fun s => inl (c :: s)).
Proof.
  intros Hc. apply is_scalar_range in Hc. destruct Hc as [Hr Hs].
  unfold utf8_char.
  destruct (c <? 128) eqn:E1.
  { cbn [app utf8_decode]. rewrite zb_b8 by lia. rewrite E1. reflexivity. }
  destruct (c <? 2048) eqn:E2.
  { cbn [app utf8_decode]. unfold is_cont, cont.
    rewrite !zb_b8 by divmod.
    replace (192 + c / 64 <? 128) with false by (symmetry; apply Z.ltb_ge; divmod).
    replace ((194 <=? 192 + c / 64) && (192 + c / 64 <? 224)) with true
      by (symmetry; apply andb_true_iff; split; [apply Z.leb_le | apply Z.ltb_lt]; divmod).
    replace ((128 <=? 128 + c mod 64) && (128 + c mod 64 <? 192)) with true
      by (symmetry; apply andb_true_iff; split; [apply Z.leb_le | apply Z.ltb_lt]; divmod).
    replace ((192 + c / 64 - 192) * 64 + (128 + c mod 64 - 128)) with c by divmod.
    reflexivity. }
  destruct (c <? 65536) eqn:E3.
  { cbn [app utf8_decode]. unfold is_cont, cont.
    rewrite !zb_b8 by divmod.
    replace (224 + c / 4096 <? 128) with false by (symmetry; apply Z.ltb_ge; divmod).
    replace ((194 <=? 224 + c / 4096) && (224 + c / 4096 <? 224)) with false
      by (symmetry; apply andb_false_iff; right; apply Z.ltb_ge; divmod).
    replace ((224 <=? 224 + c / 4096) && (224 + c / 4096 <? 240)) with true
      by (symmetry; apply andb_true_iff; split; [apply Z.leb_le | apply Z.ltb_lt]; divmod).
    replace ((128 <=? 128 + (c / 64) mod 64) && (128 + (c / 64) mod 64 <? 192)) with true
      by (symmetry; apply andb_true_iff; split; [apply Z.leb_le | apply Z.ltb_lt]; divmod).
    replace ((128 <=? 128 + c mod 64) && (128 + c mod 64 <? 192)) with true
      by (symmetry; apply andb_true_iff; split; [apply Z.leb_le | apply Z.ltb_lt]; divmod).
    replace ((224 + c / 4096 - 224) * 4096 + (128 + (c / 64) mod 64 - 128) * 64
             + (128 + c mod 64 - 128)) with c by divmod.
    replace (2048 <=? c) with true by (symmetry; apply Z.leb_le; lia).
    replace (is_surrogate c) with false
      by (symmetry; unfold is_surrogate; apply andb_false_iff; lia).
    reflexivity. }
  cbn [app utf8_decode]. unfold is_cont, cont.
  rewrite !zb_b8 by divmod.
  replace (240 + c / 262144 <? 128) with false by (symmetry; apply Z.ltb_ge; divmod).
  replace ((194 <=? 240 + c / 262144) && (240 + c / 262144 <? 224)) with false
    by (symmetry; apply andb_false_iff; right; apply Z.ltb_ge; divmod).
  replace ((224 <=? 240 + c / 262144) && (240 + c / 262144 <? 240)) with false
    by (symmetry; apply andb_false_iff; right; apply Z.ltb_ge; divmod).
  replace ((240 <=? 240 + c / 262144) && (240 + c / 262144 <? 245)) with true
    by (symmetry; apply andb_true_iff; split; [apply Z.leb_le | apply Z.ltb_lt]; divmod).
  replace ((128 <=? 128 + (c / 4096) mod 64) && (128 + (c / 4096) mod 64 <? 192)) with true
    by (symmetry; apply andb_true_iff; split; [apply Z.leb_le | apply Z.ltb_lt]; divmod).
  replace ((128 <=? 128 + (c / 64) mod 64) && (128 + (c / 64) mod 64 <? 192)) with true
    by (symmetry; apply andb_true_iff; split; [apply Z.leb_le | apply Z.ltb_lt]; divmod).
  replace ((128 <=? 128 + c mod 64) && (128 + c mod 64 <? 192)) with true
    by (symmetry; apply andb_true_iff; split; [apply Z.leb_le | apply Z.ltb_lt]; divmod).
  replace ((240 + c / 262144 - 240) * 262144 + (128 + (c / 4096) mod 64 - 128) * 4096
           + (128 + (c / 64) mod 64 - 128) * 64 + (128 + c mod 64 - 128)) with c by divmod.
  replace (65536 <=? c) with true by (symmetry; apply Z.leb_le; lia).
  replace (c <=? 1114111) with true by (symmetry; apply Z.leb_le; lia).
  reflexivity.
Qed.

(** Encoding succeeds on scalar text, and decoding the result gives the
    text back. *)
Lemma utf8_encode_scalar (s : pystr) :
  forallb is_scalar s = true -> exists b, utf8_encode s = inl b.
Proof.
  induction s as [|c s IH]; cbn [forallb utf8_encode]; intros H.
  - eexists; reflexivity.
  - apply andb_prop in H. destruct H as [Hc Hs]. rewrite Hc.
    destruct (IH Hs) as [b Hb]. rewrite Hb. eexists; reflexivity.
Qed.

Lemma utf8_roundtrip (s : pystr) (b : bytes) :
  utf8_encode s = inl b -> utf8_decode b = inl s.
Proof.
  revert b. induction s as [|c s IH]; cbn [utf8_encode]; intros b H.
  - inversion H. reflexivity.
  - destruct (is_scalar c) eqn:Hc; [|discriminate].
    destruct (utf8_encode s) as [b'|e]; cbn [rbind] in H; [|discriminate].
    inversion H; subst b. rewrite decode_char by exact Hc.
    rewrite (IH b' eq_refl). reflexivity.
Qed.

End CodecFacts.

(** ** JSON text: what the decoder reads back from the encoder *)

Module JsonFacts.

Lemma hex_val_digit (x : Z) : 0 <= x < 16 -> hex_val (hex_digit x) = Some x.
Proof.
  intros H.
  assert (x = 0 \/ x = 1 \/ x = 2 \/ x = 3 \/ x = 4 \/ x = 5 \/ x = 6 \/ x = 7
          \/ x = 8 \/ x = 9 \/ x = 10 \/ x = 11 \/ x = 12 \/ x = 13
          \/ x = 14 \/ x = 15) as D by lia.
  repeat (destruct D as [->|D]; [reflexivity|]). subst x. reflexivity.
Qed.

(** A [\uXXXX] escape that is not a high surrogate stands for one code
    unit, whatever follows. *)
Lemma scanstring_u (h1 h2 h3 h4 cu : Z) (r : pystr) :
  hex4 h1 h2 h3 h4 = Some cu ->
  is_high_surrogate cu = false ->
  scanstring (92 :: 117 :: h1 :: h2 :: h3 :: h4 :: r) = push cu (scanstring r).
Proof.
  intros Hh Hs.
  cbn [scanstring]. change (92 =? 34) with false. change (92 =? 92) with true.
  change (117 =? 117) with true. cbv iota. rewrite Hh, Hs. cbn [andb].
  destruct r as [|p [|q [|g1 [|g2 [|g3 [|g4 [|x r']]]]]]]; reflexivity.
Qed.

Lemma scanstring_simple (e x : Z) (r : pystr) :
  e <> 117 -> simple_escape e = Some x ->
  scanstring (92 :: e :: r) = push x (scanstring r).
Proof.
  intros He Hx. cbn [scanstring].
  change (92 =? 34) with false. change (92 =? 92) with true. cbv iota.
  apply Z.eqb_neq in He. rewrite He, Hx. reflexivity.
Qed.

Lemma scanstring_raw (c : Z) (r : pystr) :
  c <> 34 -> c <> 92 -> 32 <= c ->
  scanstring (c :: r) = push c (scanstring r).
Proof.
  intros H1 H2 H3. cbn [scanstring].
  apply Z.eqb_neq in H1, H2. apply Z.ltb_ge in H3.
  rewrite H1, H2, H3. reflexivity.
Qed.

Lemma scanstring_char (c : Z) (r : pystr) :
  0 <= c ->
  scanstring (escape_char c ++ r) = push c (scanstring r).
Proof.
  intros Hc. unfold escape_char.
  destruct (c =? 34) eqn:E1.
  { apply Z.eqb_eq in E1; subst c. apply scanstring_simple; [lia|reflexivity]. }
  destruct (c =? 92) eqn:E2.
  { apply Z.eqb_eq in E2; subst c. apply scanstring_simple; [lia|reflexivity]. }
  destruct (c =? 10) eqn:E3.
  { apply Z.eqb_eq in E3; subst c. apply scanstring_simple; [lia|reflexivity]. }
  destruct (c =? 13) eqn:E4.
  { apply Z.eqb_eq in E4; subst c. apply scanstring_simple; [lia|reflexivity]. }
  destruct (c =? 9) eqn:E5.
  { apply Z.eqb_eq in E5; subst c. apply scanstring_simple; [lia|reflexivity]. }
  destruct (c =? 8) eqn:E6.
  { apply Z.eqb_eq in E6; subst c. apply scanstring_simple; [lia|reflexivity]. }
  destruct (c =? 12) eqn:E7.
  { apply Z.eqb_eq in E7; subst c. apply scanstring_simple; [lia|reflexivity]. }
  destruct ((0 <=? c) && (c <? 32)) eqn:E8.
  { apply andb_prop in E8. destruct E8 as [_ E8]. apply Z.ltb_lt in E8.
    cbn [app]. apply scanstring_u.
    - unfold hex4. change (hex_val 48) with (Some 0).
      rewrite !hex_val_digit by (Z.div_mod_to_equations; lia).
      f_equal. Z.div_mod_to_equations; lia.
    - unfold is_high_surrogate. apply andb_false_iff. left.
      apply Z.leb_gt. lia. }
  apply andb_false_iff in E8. apply Z.eqb_neq in E1, E2.
  cbn [app]. apply scanstring_raw; try assumption.
  destruct E8 as [E8|E8]; [apply Z.leb_gt in E8 | apply Z.ltb_ge in E8]; lia.
Qed.

(** The body of a string literal written by [encode_basestring] is read
    back up to its closing quote. *)
Lemma scanstring_escaped (s rest : pystr) :
  nonneg s ->
  scanstring (flat_map escape_char s ++ 34 :: rest) = inl (s, rest).
Proof.
  induction 1 as [|c s Hc Hs IH]; cbn [flat_map app].
  - reflexivity.
  - rewrite <- app_assoc, scanstring_char by exact Hc.
    rewrite IH. reflexivity.
Qed.

(** Decimal digits. *)

Lemma digits_from_S (f : nat) (n : Z) (acc : pystr) :
  digits_from (S f) n acc =
  if n <? 10 then (48 + n mod 10) :: acc
  else digits_from f (n / 10) ((48 + n mod 10) :: acc).
Proof. reflexivity. Qed.

Lemma digits_from_spec (f : nat) :
  forall n acc, 0 <= n < 2 ^ Z.of_nat (S f) ->
  exists d ds,
    digits_from (S f) n acc = (d :: ds) ++ acc /\
    all_digits (d :: ds) /\
    fold_left dstep (d :: ds) 0 = n /\
    (d = 48 -> n = 0 /\ ds = []).
Proof.
  induction f as [|f IH]; intros n acc Hn.
  - change (2 ^ Z.of_nat 1) with 2 in Hn.
    exists (48 + n), []. cbn [digits_from].
    replace (n <? 10) with true by (symmetry; apply Z.ltb_lt; lia).
    rewrite Z.mod_small by lia.
    split; [reflexivity|]. split; [|split].
    + constructor; [lia|constructor].
    + cbn [fold_left]. unfold dstep. lia.
    + intros; split; [lia|reflexivity].
  - rewrite digits_from_S. destruct (n <? 10) eqn:E.
    + apply Z.ltb_lt in E. rewrite Z.mod_small by lia.
      exists (48 + n), []. split; [reflexivity|]. split; [|split].
      * constructor; [lia|constructor].
      * cbn [fold_left]. unfold dstep. lia.
      * intros; split; [lia|reflexivity].
    + apply Z.ltb_ge in E.
      assert (0 <= n / 10 < 2 ^ Z.of_nat (S f)) as Hq.
      { rewrite Nat2Z.inj_succ, Z.pow_succ_r in Hn by lia.
        split; [Z.div_mod_to_equations; lia|].
        apply Z.div_lt_upper_bound; lia. }
      destruct (IH (n / 10) ((48 + n mod 10) :: acc) Hq)
        as (d & ds & Heq & Hall & Hval & Hz).
      exists d, (ds ++ [48 + n mod 10]). rewrite Heq.
      split; [|split; [|split]].
      * cbn [app]. rewrite <- app_assoc. reflexivity.
      * change (all_digits ((d :: ds) ++ [48 + n mod 10])).
        apply Forall_app. split; [exact Hall|].
        constructor; [Z.div_mod_to_equations; lia|constructor].
      * change (fold_left dstep ((d :: ds) ++ [48 + n mod 10]) 0 = n).
        rewrite fold_left_app, Hval. cbn [fold_left]. unfold dstep.
        Z.div_mod_to_equations; lia.
      * intros Hd. destruct (Hz Hd) as [Hz0 _].
        Z.div_mod_to_equations; lia.
Qed.

Lemma nat_repr_spec (n : Z) :
  0 <= n ->
  exists d ds,
    nat_repr n = d :: ds /\ all_digits (d :: ds) /\
    fold_left dstep (d :: ds) 0 = n /\ (d = 48 -> n = 0 /\ ds = []).
Proof.
  intros Hn. unfold nat_repr.
  assert (0 <= n < 2 ^ Z.of_nat (S (Z.to_nat (Z.log2 n)))) as Hb.
  { split; [exact Hn|].
    rewrite Nat2Z.inj_succ, Z2Nat.id by apply Z.log2_nonneg.
    destruct (Z.eq_dec n 0) as [->|Hnz]; [reflexivity|].
    apply Z.log2_spec. lia. }
  destruct (digits_from_spec _ n [] Hb) as (d & ds & Heq & H).
  exists d, ds. rewrite Heq, app_nil_r. exact (conj eq_refl H).
Qed.

Lemma span_digits_app (ds rest : pystr) :
  all_digits ds ->
  match rest with c :: _ => is_digit c = false | [] => True end ->
  span_digits (ds ++ rest) = (ds, rest).
Proof.
  intros Hds Hrest. induction Hds as [|c ds Hc Hds IH]; cbn [app].
  - destruct rest as [|c r]; [reflexivity|]. cbn [span_digits].
    rewrite Hrest. reflexivity.
  - cbn [span_digits]. unfold is_digit at 1.
    replace ((48 <=? c) && (c <=? 57)) with true
      by (symmetry; apply andb_true_iff; split; apply Z.leb_le; lia).
    rewrite IH. reflexivity.
Qed.

(** A non-negative integer written by the encoder and followed by a closing
    brace is read back as that integer. *)
Lemma scan_atom_int (n : Z) (rest : pystr) :
  0 <= n ->
  scan_atom (int_repr n ++ 125 :: rest) = inl (PInt n, 125 :: rest).
Proof.
  intros Hn. unfold int_repr.
  replace (n <? 0) with false by (symmetry; apply Z.ltb_ge; lia).
  destruct (nat_repr_spec n Hn) as (d & ds & Heq & Hall & Hval & Hz).
  rewrite Heq. pose proof (Forall_inv Hall) as Hd.
  pose proof (Forall_inv_tail Hall) as Hds.
  assert (span_digits (ds ++ 125 :: rest) = (ds, 125 :: rest)) as Hspan
    by (apply span_digits_app; [exact Hds|reflexivity]).
  unfold scan_atom. cbn [app].
  cbv beta in Hd.
  assert (forall p, match p with x :: _ => x < 48 \/ 57 < x | [] => False end ->
            starts_with p (d :: ds ++ 125 :: rest) = false) as Hsw.
  { intros [|p ps] Hp; [contradiction|]. cbn [starts_with].
    replace (p =? d) with false by (symmetry; apply Z.eqb_neq; lia).
    reflexivity. }
  rewrite !Hsw by (vm_compute; (left; reflexivity) || (right; reflexivity)).
  unfold match_number, match_int. cbn [tl].
  replace (d =? 45) with false by (symmetry; apply Z.eqb_neq; lia).
  assert (match_frac (125 :: rest) = ([], 125 :: rest)) as Hf
    by (destruct rest; reflexivity).
  assert (match_exp (125 :: rest) = (None, 125 :: rest)) as He
    by reflexivity.
  destruct (d =? 48) eqn:E0.
  - apply Z.eqb_eq in E0. destruct (Hz E0) as [-> ->]. subst d.
    cbn [app fst snd]. rewrite Hf. cbn [fst snd]. rewrite He. reflexivity.
  - unfold is_digit at 1.
    replace ((48 <=? d) && (d <=? 57)) with true
      by (symmetry; apply andb_true_iff; split; apply Z.leb_le; lia).
    rewrite Hspan. cbn [fst snd]. rewrite Hf. cbn [fst snd]. rewrite He.
    cbn [fst snd]. unfold digits_val.
    change (fun acc d0 : Z => acc * 10 + (d0 - 48)) with dstep.
    rewrite Hval. reflexivity.
Qed.

(** Unfolding the scanner by one call. *)

Lemma object_loop_key (f : nat) (t : pystr) (acc : list (pystr * pyval)) :
  object_loop (S f) (34 :: t) acc =
  rbind (scanstring t) (fun kp =>
  match skip_ws (snd kp) with
  | c1 :: t1 =>
      if c1 =? 58 then
        rbind (scan_once f (skip_ws t1)) (fun vp =>
        let acc' := dict_set acc (fst kp) (fst vp) in
        match skip_ws (snd vp) with
        | c2 :: t2 =>
            if c2 =? 125 then inl (PDict acc', t2)
            else if c2 =? 44 then object_loop f (skip_ws t2) acc'
            else inr JSONDecodeError
        | [] => inr JSONDecodeError
        end)
      else inr JSONDecodeError
  | [] => inr JSONDecodeError
  end).
Proof. reflexivity. Qed.

Lemma scan_once_string (f : nat) (t : pystr) :
  scan_once (S f) (34 :: t) =
  rbind (scanstring t) (fun p => inl (PStr (fst p), snd p)).
Proof. reflexivity. Qed.

Lemma scan_once_atom (f : nat) (c : Z) (t : pystr) :
  c <> 34 -> c <> 123 -> c <> 91 ->
  scan_once (S f) (c :: t) = scan_atom (c :: t).
Proof.
  intros H1 H2 H3. apply Z.eqb_neq in H1, H2, H3.
  cbn [scan_once]. rewrite H1, H2, H3. reflexivity.
Qed.

Lemma scan_once_object (f : nat) (t : pystr) :
  scan_once (S f) (123 :: 34 :: t) = object_loop f (34 :: t) [].
Proof. reflexivity. Qed.

Lemma encode_basestring_app (s rest : pystr) :
  encode_basestring s ++ rest = 34 :: flat_map escape_char s ++ 34 :: rest.
Proof.
  unfold encode_basestring. cbn [app]. rewrite <- app_assoc. reflexivity.
Qed.

Lemma skip_ws_keep (c : Z) (t : pystr) :
  is_ws c = false -> skip_ws (c :: t) = c :: t.
Proof. intros H. cbn [skip_ws]. rewrite H. reflexivity. Qed.

Lemma skip_ws_space (t : pystr) : skip_ws (32 :: t) = skip_ws t.
Proof. reflexivity. Qed.

(** One member whose value is a string, followed by another member. *)
Lemma object_loop_str (f : nat) (k v rest : pystr)
      (acc : list (pystr * pyval)) :
  nonneg k -> nonneg v ->
  object_loop (S (S f))
    (encode_basestring k ++ u ": " ++ encode_basestring v
       ++ u ", " ++ 34 :: rest) acc =
  object_loop (S f) (34 :: rest) (dict_set acc k (PStr v)).
Proof.
  intros Hk Hv.
  rewrite encode_basestring_app, object_loop_key.
  rewrite scanstring_escaped by exact Hk.
  cbn [rbind fst snd]. change (u ": ") with [58; 32]. cbn [app].
  rewrite (skip_ws_keep 58) by reflexivity.
  change (58 =? 58) with true. cbv iota.
  rewrite skip_ws_space, encode_basestring_app.
  rewrite (skip_ws_keep 34) by reflexivity.
  rewrite scan_once_string, scanstring_escaped by exact Hv.
  cbn [rbind fst snd]. change (u ", ") with [44; 32]. cbn [app].
  rewrite (skip_ws_keep 44) by reflexivity.
  change (44 =? 125) with false. change (44 =? 44) with true. cbv iota.
  rewrite skip_ws_space, (skip_ws_keep 34) by reflexivity.
  reflexivity.
Qed.

(** The last member, whose value is a non-negative integer. *)
Lemma object_loop_int (f : nat) (k rest : pystr) (n : Z)
      (acc : list (pystr * pyval)) :
  nonneg k -> 0 <= n ->
  object_loop (S (S f))
    (encode_basestring k ++ u ": " ++ int_repr n ++ 125 :: rest) acc =
  inl (PDict (dict_set acc k (PInt n)), rest).
Proof.
  intros Hk Hn.
  rewrite encode_basestring_app, object_loop_key.
  rewrite scanstring_escaped by exact Hk.
  cbn [rbind fst snd]. change (u ": ") with [58; 32]. cbn [app].
  rewrite (skip_ws_keep 58) by reflexivity.
  change (58 =? 58) with true. cbv iota.
  rewrite skip_ws_space.
  destruct (nat_repr_spec n Hn) as (d & ds & Heq & Hall & _).
  pose proof (Forall_inv Hall) as Hd. cbv beta in Hd.
  assert (int_repr n = d :: ds) as Hrepr.
  { unfold int_repr.
    replace (n <? 0) with false by (symmetry; apply Z.ltb_ge; lia).
    exact Heq. }
  pose proof (scan_atom_int n rest Hn) as Hatom.
  rewrite Hrepr in *. cbn [app] in *.
  rewrite skip_ws_keep
    by (unfold is_ws; repeat (apply orb_false_iff; split);
        apply Z.eqb_neq; lia).
  rewrite scan_once_atom by lia.
  rewrite Hatom. cbn [rbind fst snd].
  rewrite (skip_ws_keep 125) by reflexivity.
  reflexivity.
Qed.

Lemma dumps_header (bo ctype cenc : pystr) (n : Z) :
  dumps (header bo ctype cenc n) = inl (header_text bo ctype cenc n).
Proof.
  unfold header, header_text. cbn [dumps rbind].
  change (u "{") with [123]. change (u "}") with [125].
  cbn [app]. rewrite <- !app_assoc. rewrite app_nil_l. reflexivity.
Qed.

Lemma nonneg_literal (s : pystr) : forallb (fun c => 0 <=? c) s = true -> nonneg s.
Proof.
  intros H. apply Forall_forall. intros c Hc.
  rewrite forallb_forall in H. apply Z.leb_le. exact (H c Hc).
Qed.

(** [json.loads] reads the serialised header back. *)
Lemma loads_header (bo ctype cenc : pystr) (n : Z) :
  nonneg bo -> nonneg ctype -> nonneg cenc -> 0 <= n ->
  loads (header_text bo ctype cenc n) = inl (header bo ctype cenc n).
Proof.
  intros Hbo Hct Hce Hn. unfold loads.
  assert (5 <= length (header_text bo ctype cenc n))%nat as Hlen.
  { unfold header_text. cbn [length]. rewrite length_app.
    change (length (encode_basestring (u "byteorder"))) with 11%nat. lia. }
  replace (S (2 * length (header_text bo ctype cenc n)))
    with (S (S (S (S (S (S (2 * length (header_text bo ctype cenc n) - 5)))))))
    by lia.
  generalize (2 * length (header_text bo ctype cenc n) - 5)%nat. intros f.
  unfold header_text.
  change (starts_with [65279] (123 :: ?x)) with false. cbv iota.
  rewrite (skip_ws_keep 123) by reflexivity.
  rewrite (encode_basestring_app (u "byteorder")), scan_once_object.
  rewrite <- (encode_basestring_app (u "byteorder")).
  rewrite (encode_basestring_app (u "content-type")).
  rewrite object_loop_str by (try assumption; apply nonneg_literal; reflexivity).
  rewrite <- (encode_basestring_app (u "content-type")).
  rewrite (encode_basestring_app (u "content-encoding")).
  rewrite object_loop_str by (try assumption; apply nonneg_literal; reflexivity).
  rewrite <- (encode_basestring_app (u "content-encoding")).
  rewrite (encode_basestring_app (u "content-length")).
  rewrite object_loop_str by (try assumption; apply nonneg_literal; reflexivity).
  rewrite <- (encode_basestring_app (u "content-length")).
  change [125] with (125 :: @nil Z).
  rewrite object_loop_int by (try assumption; apply nonneg_literal; reflexivity).
  reflexivity.
Qed.

End JsonFacts.

(** ** The decode stages *)

Module StageFacts.

Lemma read_stages (r : recv_outcome) : read r = (_read r ;; stages).
Proof. reflexivity. Qed.

Lemma bind_ret_tt (m : M unit) (self : t) : (m ;; ret tt) self = m self.
Proof.
  unfold bind, ret. destruct (m self) as [s [[]|e]]; reflexivity.
Qed.

Lemma unpack_prefix (n : Z) :
  0 <= n <= 65535 ->
  Struct.unpack_H (prefix n) = inl n.
Proof.
  intros Hn. unfold prefix, Struct.unpack_H.
  rewrite !zb_b8 by (Z.div_mod_to_equations; lia).
  f_equal. Z.div_mod_to_equations; lia.
Qed.

Lemma split_at (A : Type) (X Z P Q : list A) :
  X ++ Z = P ++ Q -> (length P <= length X)%nat ->
  exists X', X = P ++ X' /\ Q = X' ++ Z.
Proof.
  revert X. induction P as [|p P IH]; intros X H Hlen.
  - exists X. split; [reflexivity|]. symmetry. exact H.
  - destruct X as [|x X]; [cbn in Hlen; lia|].
    cbn [app] in H. inversion H; subst x.
    destruct (IH X H2) as (X' & -> & ->); [cbn in Hlen; lia|].
    exists X'. split; reflexivity.
Qed.

(** Symbolic execution of a method on an explicit object. *)
Ltac run :=
  cbv beta iota zeta delta
      [bind get update lift ret raise when print rbind
       set_selector set_sock set_recv_buffer set_send_buffer
       set_jsonheader_len set_jsonheader set_request set_response_created
       set_stdout selector sock addr verbose _recv_buffer _send_buffer
       _jsonheader_len _jsonheader jsonheader request response_created
       stdout is_none negb fst snd].

Section Stages.

Variables (sel : Selectors.selector) (fd : Z) (ad : pyval) (vb : bool)
          (sb : bytes) (jh0 : pyval) (rc : bool) (out : list printed).

(** The connection by stage: awaiting the length, the header, the payload. *)
Local Abbreviation st0 B :=
  (mk sel (Some fd) ad vb B sb None jh0 PNone PNone rc out).
Local Abbreviation st1 L B :=
  (mk sel (Some fd) ad vb B sb (Some L) jh0 PNone PNone rc out).
Local Abbreviation st2 L h B :=
  (mk sel (Some fd) ad vb B sb (Some L) jh0 h PNone rc out).

Lemma stages_length_short (B : bytes) :
  blen B < 2 -> stages (st0 B) = (st0 B, inl tt).
Proof.
  intros H. unfold stages. run. unfold process_protoheader. run.
  replace (2 <=? blen B) with false by (symmetry; apply Z.leb_gt; lia).
  run. 
  reflexivity.
Qed.

Lemma blen_prefix (n : Z) : blen (prefix n) = 2.
Proof. reflexivity. Qed.

Lemma stages_length_long (L : Z) (B : bytes) :
  0 <= L <= 65535 ->
  stages (st0 (prefix L ++ B)) = stages (st1 L B).
Proof.
  intros HL. unfold stages. run. unfold process_protoheader. run.
  replace (2 <=? blen (prefix L ++ B)) with true
    by (symmetry; apply Z.leb_le; rewrite blen_app, blen_prefix;
        pose proof (blen_nonneg B); lia).
  rewrite <- (blen_prefix L), slice_to_app, slice_from_app.
  rewrite unpack_prefix by exact HL. run. reflexivity.
Qed.

Lemma stages_header_short (L : Z) (B : bytes) :
  blen B < L -> stages (st1 L B) = (st1 L B, inl tt).
Proof.
  intros H. unfold stages. run. unfold process_jsonheader. run.
  replace (L <=? blen B) with false by (symmetry; apply Z.leb_gt; lia).
  run. reflexivity.
Qed.

Lemma check_required_present (d : list (pystr * pyval)) (l : list pystr)
      (self : t) :
  jsonheader self = PDict d ->
  forallb (dict_has d) l = true ->
  check_required l self = (self, inl tt).
Proof.
  intros Hj. destruct self. cbn [jsonheader] in Hj. subst.
  induction l as [|k l IH]; cbn [forallb check_required]; intros H.
  - reflexivity.
  - apply andb_prop in H. destruct H as [Hk Hl].
    run. cbn [contains]. rewrite Hk. apply IH. exact Hl.
Qed.

Section Frame.

Variables (hdr content : bytes) (d : list (pystr * pyval)).
Hypothesis frame : wire_message hdr content d.

Lemma stages_header_long (B : bytes) :
  stages (st1 (blen hdr) (hdr ++ B)) = stages (st2 (blen hdr) (PDict d) B).
Proof.
  unfold stages. run. unfold process_jsonheader. run.
  replace (blen hdr <=? blen (hdr ++ B)) with true
    by (symmetry; apply Z.leb_le; rewrite blen_app;
        pose proof (blen_nonneg B); lia).
  rewrite slice_to_app, slice_from_app, (wm_decode _ _ _ frame). run.
  rewrite (check_required_present d) by (reflexivity || exact (wm_required _ _ _ frame)).
  run. reflexivity.
Qed.

Lemma frame_truthy : truthy (PDict d) = true.
Proof.
  pose proof (wm_content_length _ _ _ frame) as H.
  destruct d; [discriminate|reflexivity].
Qed.

Lemma stages_payload_short (L : Z) (B : bytes) :
  blen B < blen content ->
  stages (st2 L (PDict d) B) = (st2 L (PDict d) B, inl tt).
Proof.
  intros H. unfold stages. run. rewrite frame_truthy. run.
  unfold process_request. run. cbn [subscript].
  rewrite (wm_content_length _ _ _ frame). run. cbn [int_ge]. run.
  replace (blen content <=? blen B) with false
    by (symmetry; apply Z.leb_gt; lia).
  run. reflexivity.
Qed.

Lemma stages_payload (L : Z) (B : bytes) :
  stages (st2 L (PDict d) B) = process_request (st2 L (PDict d) B).
Proof.
  unfold stages. run. rewrite frame_truthy. run.
  destruct (process_request (st2 L (PDict d) B)) as [s [[]|e]]; reflexivity.
Qed.

Lemma read_recv (self : t) (data : bytes) :
  sock self <> None -> data <> [] ->
  read (Recv data) self =
  stages (set_recv_buffer (_recv_buffer self ++ data) self).
Proof.
  intros Hs Hd. rewrite read_stages. destruct self as [? [k|] ? ? ? ? ? ? ? ? ? ?];
    [|contradiction]. destruct data as [|b data]; [contradiction|].
  unfold _read. run. reflexivity.
Qed.

(** After a strict part [X] of the message the connection is parked in a
    stage, and the next chunk brings it where [X ++ chunk] at once would. *)
Lemma absorb (X chunk Y : bytes) :
  X ++ chunk ++ Y = wire hdr content -> chunk <> [] ->
  exists cX,
    stages (st0 X) = (cX, inl tt) /\ sock cX <> None /\
    stages (set_recv_buffer (_recv_buffer cX ++ chunk) cX)
    = stages (st0 (X ++ chunk)).
Proof.
  intros HM Hch. unfold wire in HM.
  pose proof (wm_length _ _ _ frame) as HL. pose proof (blen_nonneg hdr) as HL0.
  assert (0 < blen chunk) as Hpos
    by (destruct chunk; [contradiction|unfold blen; cbn [length]; lia]).
  destruct (Z_lt_ge_dec (blen X) 2) as [H2|H2].
  { exists (st0 X). split; [apply stages_length_short; exact H2|].
    split; [discriminate|reflexivity]. }
  destruct (split_at _ X (chunk ++ Y) (prefix (blen hdr)) (hdr ++ content) HM)
    as (X1 & -> & HM1).
  { unfold blen in H2. cbn [prefix length]. lia. }
  rewrite <- app_assoc. rewrite !stages_length_long by lia.
  destruct (Z_lt_ge_dec (blen X1) (blen hdr)) as [H3|H3].
  { exists (st1 (blen hdr) X1). split; [apply stages_header_short; exact H3|].
    split; [discriminate|reflexivity]. }
  symmetry in HM1.
  destruct (split_at _ X1 (chunk ++ Y) hdr content HM1) as (X2 & -> & HM2).
  { unfold blen in H3. lia. }
  rewrite <- app_assoc. rewrite !stages_header_long.
  exists (st2 (blen hdr) (PDict d) X2). split.
  { apply stages_payload_short. rewrite HM2, !blen_app.
    pose proof (blen_nonneg Y). lia. }
  split; [discriminate|reflexivity].
Qed.

Lemma feed_from (chunks : list bytes) :
  forall X cX,
    Forall (fun chunk => chunk <> []) chunks -> chunks <> [] ->
    X ++ concat chunks = wire hdr content ->
    stages (st0 X) = (cX, inl tt) ->
    feed chunks cX = stages (st0 (wire hdr content)).
Proof.
  induction chunks as [|chunk rest IH]; intros X cX Hne Hnil HM HX;
    [contradiction|].
  pose proof (Forall_inv Hne) as Hch. pose proof (Forall_inv_tail Hne) as Hrest.
  cbn [concat] in HM.
  destruct (absorb X chunk (concat rest) HM Hch) as (c & Hc & Hsock & Hstep).
  rewrite HX in Hc. inversion Hc; subst c. clear Hc.
  cbn [feed]. destruct rest as [|chunk' rest].
  - cbn [concat] in HM. rewrite app_nil_r in HM. cbn [feed].
    rewrite bind_ret_tt, read_recv by assumption.
    rewrite Hstep, HM. reflexivity.
  - assert (chunk' <> []) as Hch' by exact (Forall_inv Hrest).
    rewrite app_assoc in HM. cbn [concat] in HM.
    destruct (absorb (X ++ chunk) chunk' (concat rest) HM Hch')
      as (c' & Hc' & _ & _).
    unfold bind at 1. rewrite read_recv, Hstep, Hc' by assumption.
    apply (IH (X ++ chunk)); try assumption. discriminate.
Qed.

End Frame.

End Stages.

(** The payload stage on a complete payload of a type other than
    ["text/json"]. *)
Lemma process_request_raw (self : t) (d : list (pystr * pyval)) (ctype : pyval)
      (fd ev : Z) (data rest : bytes) :
  jsonheader self = PDict d ->
  dict_get d (u "content-length") = Some (PInt (blen data)) ->
  dict_get d (u "content-type") = Some ctype ->
  eq_str ctype (u "text/json") = false ->
  _recv_buffer self = data ++ rest ->
  sock self = Some fd ->
  Selectors.get_key (selector self) fd = Some ev ->
  process_request self =
  (set_selector (Selectors.set_key (selector self) fd Selectors.EVENT_WRITE)
     (set_stdout (stdout self ++ [Print_received_other ctype (addr self)])
        (set_request (PBytes data) self)), inl tt).
Proof.
  intros Hj Hlen Hct Hne Hbuf Hsock Hkey.
  destruct self. cbn [jsonheader _recv_buffer sock selector] in *. subst.
  unfold process_request. run. cbn [subscript]. rewrite Hlen, Hct. run.
  cbn [int_ge bytes_upto]. run.
  replace (blen data <=? blen (data ++ rest)) with true
    by (symmetry; apply Z.leb_le; rewrite blen_app;
        pose proof (blen_nonneg rest); lia).
  run. rewrite Hne, slice_to_app. run.
  unfold _set_selector_events_mask. run.
  change (pystr_eqb (u "w") (u "r")) with false.
  change (pystr_eqb (u "w") (u "w")) with true. run.
  unfold Selectors.modify. rewrite Hkey. run. reflexivity.
Qed.

Lemma get_set_key (sel : Selectors.selector) (fd ev ev' : Z) :
  Selectors.get_key sel fd = Some ev ->
  Selectors.get_key (Selectors.set_key sel fd ev') fd = Some ev'.
Proof.
  induction sel as [|[k e] sel IH]; cbn [Selectors.get_key Selectors.set_key].
  - discriminate.
  - destruct (k =? fd) eqn:E; cbn [Selectors.get_key]; rewrite E.
    + reflexivity.
    + exact IH.
Qed.

End StageFacts.

(** ** The message builder *)

Module BuilderFacts.
Import JsonFacts CodecFacts StageFacts.

Lemma utf8_encode_nonneg (s : pystr) (b : bytes) :
  Codec.utf8_encode s = inl b -> nonneg s.
Proof.
  revert b. induction s as [|c s IH]; cbn [Codec.utf8_encode]; intros b H.
  - constructor.
  - destruct (is_scalar c) eqn:Hc; [|discriminate].
    destruct (Codec.utf8_encode s) as [b'|e]; [|discriminate].
    constructor; [|exact (IH b' eq_refl)].
    apply is_scalar_range in Hc. lia.
Qed.

Lemma escape_char_nonneg (c : Z) : nonneg (escape_char c) -> 0 <= c.
Proof.
  intros H. destruct (Z_lt_ge_dec c 0) as [Hneg|]; [|lia].
  unfold escape_char in H.
  repeat match type of H with
         | context [?a =? ?b] =>
             replace (a =? b) with false in H
               by (symmetry; apply Z.eqb_neq; lia)
         end.
  replace (0 <=? c) with false in H by (symmetry; apply Z.leb_gt; lia).
  cbn [andb] in H. exact (Forall_inv H).
Qed.

Lemma escaped_nonneg (s : pystr) :
  nonneg (flat_map escape_char s) -> nonneg s.
Proof.
  induction s as [|c s IH]; cbn [flat_map]; intros H.
  - constructor.
  - apply Forall_app in H. destruct H as [Hc Hs].
    constructor; [exact (escape_char_nonneg c Hc)|exact (IH Hs)].
Qed.

Lemma basestring_nonneg (s rest : pystr) :
  nonneg (encode_basestring s ++ rest) -> nonneg s /\ nonneg rest.
Proof.
  rewrite encode_basestring_app. intros H.
  apply Forall_inv_tail in H. apply Forall_app in H. destruct H as [Hs Hr].
  split; [exact (escaped_nonneg s Hs)|exact (Forall_inv_tail Hr)].
Qed.

Lemma header_text_nonneg (bo ctype cenc : pystr) (n : Z) :
  nonneg (header_text bo ctype cenc n) ->
  nonneg bo /\ nonneg ctype /\ nonneg cenc.
Proof.
  unfold header_text. intros H. apply Forall_inv_tail in H.
  apply basestring_nonneg in H. destruct H as [_ H].
  apply Forall_app in H. destruct H as [_ H].
  apply basestring_nonneg in H. destruct H as [Hbo H].
  apply Forall_app in H. destruct H as [_ H].
  apply basestring_nonneg in H. destruct H as [_ H].
  apply Forall_app in H. destruct H as [_ H].
  apply basestring_nonneg in H. destruct H as [Hct H].
  apply Forall_app in H. destruct H as [_ H].
  apply basestring_nonneg in H. destruct H as [_ H].
  apply Forall_app in H. destruct H as [_ H].
  apply basestring_nonneg in H. destruct H as [Hce _].
  auto.
Qed.

Section Builder.

Variable byteorder : Sys.endianness.
Variables (content : bytes) (ctype cenc : pystr).

Let resp : response :=
  {| content_bytes := PBytes content;
     content_type := PStr ctype;
     content_encoding := PStr cenc |}.

(** What the builder returns: prefix, encoded header text, content. *)
Lemma create_message_inv (msg : bytes) :
  _create_message byteorder resp = inl msg ->
  exists hdr,
    Codec.utf8_encode
      (header_text (Sys.name byteorder) ctype cenc (blen content)) = inl hdr
    /\ blen hdr <= 65535 /\ msg = wire hdr content.
Proof.
  unfold _create_message, resp.
  cbn [content_bytes content_type content_encoding len rbind].
  unfold _json_encode.
  change (PDict _) with (header (Sys.name byteorder) ctype cenc (blen content)).
  rewrite dumps_header. cbn [rbind].
  change (Codec.lookup (u "utf-8")) with (Some Codec.Utf_8).
  cbv iota. cbn [Codec.encode Codec.decode].
  destruct (Codec.utf8_encode _) as [hdr|e]; cbn [rbind]; [|discriminate].
  unfold Struct.pack_H.
  destruct ((0 <=? blen hdr) && (blen hdr <=? 65535)) eqn:E;
    cbn [rbind]; [|discriminate].
  intros H. inversion H. exists hdr. split; [reflexivity|].
  apply andb_prop in E. destruct E as [_ E]. apply Z.leb_le in E.
  split; [exact E|reflexivity].
Qed.

(** A message the builder returns is a wire message. *)
Lemma create_message_wire (msg : bytes) :
  _create_message byteorder resp = inl msg ->
  exists hdr,
    msg = wire hdr content /\
    wire_message hdr content
      [ (u "byteorder", PStr (Sys.name byteorder));
        (u "content-type", PStr ctype);
        (u "content-encoding", PStr cenc);
        (u "content-length", PInt (blen content)) ].
Proof.
  intros H. destruct (create_message_inv msg H) as (hdr & Henc & Hlen & ->).
  exists hdr. split; [reflexivity|].
  pose proof (utf8_encode_nonneg _ _ Henc) as Hnn.
  apply header_text_nonneg in Hnn. destruct Hnn as (Hbo & Hct & Hce).
  constructor.
  - exact Hlen.
  - unfold _json_decode.
    change (Codec.lookup (u "utf-8")) with (Some Codec.Utf_8).
  cbv iota. cbn [Codec.encode Codec.decode].
    rewrite (utf8_roundtrip _ _ Henc). cbn [rbind].
    rewrite loads_header by (try assumption; apply blen_nonneg).
    reflexivity.
  - reflexivity.
  - reflexivity.
Qed.

End Builder.

End BuilderFacts.

(** ** A header without a required key *)

Module RejectFacts.
Import StageFacts.

Lemma check_required_missing (d : list (pystr * pyval)) (l : list pystr)
      (self : t) :
  jsonheader self = PDict d ->
  forallb (dict_has d) l = false ->
  exists k,
    In k l /\ dict_has d k = false /\
    check_required l self = (self, inr (ValueError (Missing_required_header k))).
Proof.
  intros Hj. destruct self. cbn [jsonheader] in Hj. subst.
  induction l as [|k l IH]; cbn [forallb check_required]; intros H.
  - discriminate.
  - run. cbn [contains]. destruct (dict_has d k) eqn:Hk.
    + cbn [andb] in H. destruct (IH H) as (k' & Hin & Hk' & Hc).
      exists k'. split; [right; exact Hin|]. split; [exact Hk'|exact Hc].
    + exists k. split; [left; reflexivity|]. split; [exact Hk|reflexivity].
Qed.

(** The header stage on a complete header span that lacks a required key:
    the mapping is stored and the span consumed before the exception. *)
Lemma process_jsonheader_missing (self : t) (hdr rest : bytes)
      (d : list (pystr * pyval)) :
  _jsonheader_len self = Some (blen hdr) ->
  _recv_buffer self = hdr ++ rest ->
  _json_decode hdr (PStr (u "utf-8")) = inl (PDict d) ->
  forallb (dict_has d) required_headers = false ->
  exists k,
    In k required_headers /\ dict_has d k = false /\
    process_jsonheader self =
    (set_recv_buffer rest (set_jsonheader (PDict d) self),
     inr (ValueError (Missing_required_header k))).
Proof.
  intros Hlen Hbuf Hdec Hmiss.
  destruct (check_required_missing d required_headers
              (set_recv_buffer rest (set_jsonheader (PDict d) self))) 
    as (k & Hin & Hk & Hc).
  { destruct self; reflexivity. }
  { exact Hmiss. }
  exists k. split; [exact Hin|]. split; [exact Hk|].
  destruct self. cbn [_jsonheader_len _recv_buffer] in *. subst.
  unfold process_jsonheader. run.
  replace (blen hdr <=? blen (hdr ++ rest)) with true
    by (symmetry; apply Z.leb_le; rewrite blen_app;
        pose proof (blen_nonneg rest); lia).
  rewrite slice_to_app, slice_from_app, Hdec. run.
  revert Hc. run. intros ->. reflexivity.
Qed.

Section Reject.

Variables (sel : Selectors.selector) (fd : Z) (ad : pyval) (vb : bool)
          (sb : bytes) (jh0 : pyval) (rc : bool) (out : list printed).
Variables (hdr rest : bytes) (d : list (pystr * pyval)).
Hypothesis hdr_length : blen hdr <= 65535.
Hypothesis hdr_decode : _json_decode hdr (PStr (u "utf-8")) = inl (PDict d).
Hypothesis hdr_missing : forallb (dict_has d) required_headers = false.

Local Abbreviation st0 B :=
  (mk sel (Some fd) ad vb B sb None jh0 PNone PNone rc out).
Local Abbreviation st1 B :=
  (mk sel (Some fd) ad vb B sb (Some (blen hdr)) jh0 PNone PNone rc out).
Local Abbreviation bad B :=
  (mk sel (Some fd) ad vb B sb (Some (blen hdr)) jh0 (PDict d) PNone rc out).

Lemma stages_header_bad (B : bytes) :
  exists k,
    In k required_headers /\ dict_has d k = false /\
    stages (st1 (hdr ++ B)) = (bad B, inr (ValueError (Missing_required_header k))).
Proof.
  destruct (process_jsonheader_missing (st1 (hdr ++ B)) hdr B d)
    as (k & Hin & Hk & Hp); try reflexivity; try assumption.
  exists k. split; [exact Hin|]. split; [exact Hk|].
  unfold stages. run. revert Hp. run. intros ->. reflexivity.
Qed.

(** Before the header span is complete the connection is parked, and the
    next chunk brings it where the longer buffer at once would. *)
Lemma absorb_header (X Z : bytes) :
  X ++ Z = prefix (blen hdr) ++ hdr ++ rest ->
  blen X < 2 + blen hdr ->
  exists cX,
    stages (st0 X) = (cX, inl tt) /\ sock cX <> None /\
    forall chunk,
      stages (set_recv_buffer (_recv_buffer cX ++ chunk) cX)
      = stages (st0 (X ++ chunk)).
Proof.
  intros HM Hlt. pose proof (blen_nonneg hdr) as HL0.
  destruct (Z_lt_ge_dec (blen X) 2) as [H2|H2].
  { exists (st0 X). split; [apply stages_length_short; exact H2|].
    split; [discriminate|reflexivity]. }
  destruct (split_at _ X Z (prefix (blen hdr)) (hdr ++ rest) HM)
    as (X1 & -> & HM1).
  { unfold blen in H2. cbn [prefix length]. lia. }
  rewrite stages_length_long by lia.
  exists (st1 X1). split.
  { apply stages_header_short. rewrite blen_app, blen_prefix in Hlt. lia. }
  split; [discriminate|]. intros chunk.
  rewrite <- app_assoc, stages_length_long by lia. reflexivity.
Qed.

Lemma feed_rejected (chunks : list bytes) :
  forall X cX,
    Forall (fun chunk => chunk <> []) chunks ->
    X ++ concat chunks = prefix (blen hdr) ++ hdr ++ rest ->
    blen X < 2 + blen hdr ->
    stages (st0 X) = (cX, inl tt) ->
    exists k self',
      In k required_headers /\ dict_has d k = false /\
      feed chunks cX = (self', inr (ValueError (Missing_required_header k))) /\
      jsonheader self' = PDict d /\ request self' = PNone /\
      sock self' <> None.
Proof.
  pose proof (blen_nonneg hdr) as HL0.
  induction chunks as [|chunk more IH]; intros X cX Hne HM Hlt HX.
  - cbn [concat] in HM. rewrite app_nil_r in HM. subst X.
    rewrite !blen_app, blen_prefix in Hlt. pose proof (blen_nonneg rest). lia.
  - pose proof (Forall_inv Hne) as Hch.
    pose proof (Forall_inv_tail Hne) as Hmore. cbn [concat] in HM.
    destruct (absorb_header X _ HM Hlt) as (c & Hc & Hsock & Hstep).
    rewrite HX in Hc. inversion Hc; subst c. clear Hc.
    cbn [feed]. unfold bind at 1. rewrite read_recv, Hstep by assumption.
    rewrite app_assoc in HM.
    destruct (Z_lt_ge_dec (blen (X ++ chunk)) (2 + blen hdr)) as [Hlt'|Hge].
    + destruct (absorb_header (X ++ chunk) _ HM Hlt') as (c' & Hc' & _ & _).
      rewrite Hc'. apply (IH (X ++ chunk)); assumption.
    + destruct (split_at _ (X ++ chunk) (concat more) (prefix (blen hdr))
                  (hdr ++ rest) HM) as (X1 & HX1 & HM1).
      { rewrite blen_app in Hge. unfold blen in *. rewrite length_app.
        cbn [prefix length]. lia. }
      symmetry in HM1.
      destruct (split_at _ X1 (concat more) hdr rest HM1) as (X2 & -> & HM2).
      { rewrite HX1, blen_app, blen_prefix in Hge. unfold blen in Hge. lia. }
      rewrite HX1, stages_length_long by lia.
      destruct (stages_header_bad X2) as (k & Hin & Hk & Hs).
      rewrite Hs. exists k, (bad X2).
      repeat (split; [assumption || reflexivity|]). discriminate.
Qed.

End Reject.

(** Once [close] has run, a read event raises before any stage and changes
    nothing. *)
Lemma read_after_close (self : t) (c : close_outcome) (r : recv_outcome) :
  sock self <> None ->
  sock (fst (close c self)) = None /\
  request (fst (close c self)) = request self /\
  read r (fst (close c self)) = (fst (close c self), inr AttributeError).
Proof.
  intros Hs. destruct self as [sel [fd|] ad vb buf sb jl jh0 jh rq rc out];
    [|contradiction].
  unfold close. run. cbn [Selectors.unregister].
  destruct vb, (Selectors.get_key sel fd), c; run;
    (split; [reflexivity|]; split; [reflexivity|]);
    rewrite read_stages; unfold _read; run; reflexivity.
Qed.

End RejectFacts.

(** ** What the methods leave alone *)

Module FrameFacts.
Import StageFacts.

Section Preserves.

Context {B : Type} (f : t -> B).

Lemma preserves_ret {A} (a : A) : preserves f (ret a).
Proof. intros self. reflexivity. Qed.

Lemma preserves_raise {A} (e : exn) : preserves f (@raise A e).
Proof. intros self. reflexivity. Qed.

Lemma preserves_get : preserves f get.
Proof. intros self. reflexivity. Qed.

Lemma preserves_lift {A} (r : res A) : preserves f (lift r).
Proof. intros self. reflexivity. Qed.

Lemma preserves_update (g : t -> t) :
  (forall self, f (g self) = f self) -> preserves f (update g).
Proof. intros H self. apply H. Qed.

Lemma preserves_bind {A C} (m : M A) (k : A -> M C) :
  preserves f m -> (forall a, preserves f (k a)) -> preserves f (bind m k).
Proof.
  intros Hm Hk self. unfold bind. specialize (Hm self).
  destruct (m self) as [s [a|e]]; cbn [fst] in *.
  - rewrite Hk. exact Hm.
  - exact Hm.
Qed.

Lemma preserves_when (b : bool) (m : M unit) :
  preserves f m -> preserves f (when b m).
Proof. intros H. destruct b; [exact H|apply preserves_ret]. Qed.

Lemma preserves_if {A} (b : bool) (m1 m2 : M A) :
  preserves f m1 -> preserves f m2 -> preserves f (if b then m1 else m2).
Proof. intros H1 H2. destruct b; assumption. Qed.

End Preserves.

(** Decomposes a method into its primitive steps. *)
Ltac frame :=
  repeat first
    [ apply preserves_ret | apply preserves_raise | apply preserves_get
    | apply preserves_lift | apply preserves_when | apply preserves_if
    | apply preserves_bind; [|intros ?]
    | apply preserves_update; intros []; reflexivity
    | match goal with
      | |- preserves _ (match ?x with _ => _ end) => destruct x
      end ].

Lemma read_outbound (r : recv_outcome) : preserves outbound (read r).
Proof.
  unfold read, _read, process_protoheader, process_jsonheader,
    process_request, _set_selector_events_mask, print.
  frame.
Qed.

Lemma close_outbound (c : close_outcome) : preserves outbound (close c).
Proof. unfold close, print. frame. Qed.

Lemma close_request (c : close_outcome) : preserves request (close c).
Proof. unfold close, print. frame. Qed.

(** [_write] never clears the flag and only takes bytes off the front of
    the send buffer. *)
Lemma _write_outbound (w : send_outcome) (c : close_outcome) (self : t) :
  response_created (fst (_write w c self)) = response_created self /\
  exists k, _send_buffer (fst (_write w c self)) = skipn k (_send_buffer self).
Proof.
  destruct self as [sel sk ad vb buf sb jl jh0 jh rq rc out].
  unfold _write. run. destruct sb as [|b sb].
  { split; [reflexivity|exists 0%nat; reflexivity]. }
  assert (forall s : t,
            response_created s = rc ->
            (exists k, _send_buffer s = skipn k (b :: sb)) ->
            response_created (fst (close c s)) = rc /\
            exists k, _send_buffer (fst (close c s)) = skipn k (b :: sb))
    as Hclose.
  { intros s H1 H2. pose proof (close_outbound c s) as H.
    unfold outbound in H. injection H as Ha Hb.
    rewrite Ha, Hb. split; assumption. }
  destruct vb, sk as [fd|], w as [n| |]; run;
    try (split; [reflexivity|exists 0%nat; reflexivity]).
  all: destruct n as [|n];
    [split; [reflexivity|exists 0%nat; reflexivity]|].
  all: destruct (skipn (S n) (b :: sb)) eqn:E;
    [|split; [reflexivity|exists (S n); symmetry; exact E]].
  all: apply Hclose; [reflexivity|exists (S n); symmetry; exact E].
Qed.

Lemma write_created (byteorder : Sys.endianness) (w : send_outcome)
      (c : close_outcome) (self : t) :
  response_created self = true ->
  write byteorder w c self = _write w c self.
Proof.
  destruct self as [sel sk ad vb buf sb jl jh0 jh rq rc out].
  cbn [response_created]. intros ->. unfold write. run.
  destruct (truthy rq); reflexivity.
Qed.

Lemma handle_outbound (byteorder : Sys.endianness) (e : event) (self : t) :
  response_created self = true ->
  response_created (fst (handle byteorder e self)) = true /\
  exists k,
    _send_buffer (fst (handle byteorder e self)) = skipn k (_send_buffer self).
Proof.
  intros Hrc. destruct e as [mask r w c|c]; cbn [handle].
  - unfold process_events.
    assert (forall s : t, outbound s = outbound self ->
              response_created (fst (when (negb (Z.land mask Selectors.EVENT_WRITE =? 0))
                                          (write byteorder w c) s)) = true /\
              exists k, _send_buffer (fst (when (negb (Z.land mask Selectors.EVENT_WRITE =? 0))
                                               (write byteorder w c) s))
                        = skipn k (_send_buffer self)) as Hw.
    { intros s Hs. unfold outbound in Hs. injection Hs as Ha Hb.
      destruct (negb (Z.land mask Selectors.EVENT_WRITE =? 0)); cbn [when].
      - rewrite write_created by congruence.
        destruct (_write_outbound w c s) as [H1 [k H2]].
        rewrite H1, H2, Hb. split; [congruence|exists k; reflexivity].
      - cbn [ret fst]. split; [congruence|exists 0%nat; exact Hb]. }
    unfold bind.
    destruct (negb (Z.land mask Selectors.EVENT_READ =? 0)); cbn [when].
    + pose proof (read_outbound r self) as Hr.
      destruct (read r self) as [s1 [[]|e]]; cbn [fst] in *.
      * apply Hw. exact Hr.
      * unfold outbound in Hr. injection Hr as Ha Hb.
        split; [congruence|exists 0%nat; exact Hb].
    + cbn [ret]. apply Hw. reflexivity.
  - pose proof (close_outbound c self) as H. unfold outbound in H.
    injection H as Ha Hb. split; [congruence|exists 0%nat; exact Hb].
Qed.

Lemma drive_outbound (byteorder : Sys.endianness) (es : list event) :
  forall self,
    response_created self = true ->
    response_created (drive byteorder es self) = true /\
    exists k,
      _send_buffer (drive byteorder es self) = skipn k (_send_buffer self).
Proof.
  induction es as [|e es IH]; intros self Hrc; cbn [drive].
  - split; [exact Hrc|exists 0%nat; reflexivity].
  - destruct (handle_outbound byteorder e self Hrc) as [H1 [k H2]].
    destruct (IH _ H1) as [H3 [k' H4]].
    split; [exact H3|]. exists (k' + k)%nat.
    rewrite H4, H2. apply skipn_skipn.
Qed.

End FrameFacts.

(** ** The scanner never runs out of fuel *)

Module ScanFacts.















End ScanFacts.

(** ** When the builder returns *)

Module BuilderReturns.
Import JsonFacts CodecFacts.

Lemma is_scalar_small (c : Z) : 0 <= c < 55296 -> is_scalar c = true.
Proof.
  intros H. unfold is_scalar, is_codepoint, is_surrogate.
  apply andb_true_iff. split.
  - apply andb_true_iff. split; apply Z.leb_le; lia.
  - apply negb_true_iff. apply andb_false_iff. left. apply Z.leb_gt. lia.
Qed.

Lemma hex_digit_range (x : Z) : 0 <= x < 16 -> 0 <= hex_digit x < 55296.
Proof. intros H. unfold hex_digit. destruct (x <? 10); lia. Qed.

Lemma escape_char_scalar (c : Z) :
  is_scalar c = true -> forallb is_scalar (escape_char c) = true.
Proof.
  intros Hc. unfold escape_char.
  repeat match goal with
         | |- context [if ?a =? ?b then _ else _] =>
             destruct (a =? b); [reflexivity|]
         end.
  destruct ((0 <=? c) && (c <? 32)) eqn:E.
  - apply andb_prop in E. destruct E as [E1 E2].
    apply Z.leb_le in E1. apply Z.ltb_lt in E2.
    cbn [forallb].
    rewrite (is_scalar_small (hex_digit (c / 16)))
      by (apply hex_digit_range; Z.div_mod_to_equations; lia).
    rewrite (is_scalar_small (hex_digit (c mod 16)))
      by (apply hex_digit_range; Z.div_mod_to_equations; lia).
    reflexivity.
  - cbn [forallb]. rewrite Hc. reflexivity.
Qed.

Lemma basestring_scalar (s : pystr) :
  forallb is_scalar s = true ->
  forallb is_scalar (encode_basestring s) = true.
Proof.
  intros Hs. unfold encode_basestring. cbn [forallb].
  rewrite forallb_app. cbn [forallb andb].
  change (is_scalar 34) with true. rewrite andb_true_r. cbn [andb].
  induction s as [|c s IH]; cbn [flat_map forallb] in *; [reflexivity|].
  apply andb_prop in Hs. destruct Hs as [Hc Hs].
  rewrite forallb_app, (escape_char_scalar c Hc), (IH Hs). reflexivity.
Qed.

Lemma int_repr_scalar (n : Z) :
  0 <= n -> forallb is_scalar (int_repr n) = true.
Proof.
  intros Hn. unfold int_repr.
  replace (n <? 0) with false by (symmetry; apply Z.ltb_ge; lia).
  destruct (nat_repr_spec n Hn) as (dg & ds & -> & Hall & _).
  apply forallb_forall. intros c Hc.
  unfold all_digits in Hall. rewrite Forall_forall in Hall.
  apply is_scalar_small. specialize (Hall c Hc). cbv beta in Hall. lia.
Qed.

Lemma header_text_scalar (bo ctype cenc : pystr) (n : Z) :
  forallb is_scalar bo = true ->
  forallb is_scalar ctype = true ->
  forallb is_scalar cenc = true ->
  0 <= n ->
  forallb is_scalar (header_text bo ctype cenc n) = true.
Proof.
  intros Hbo Hct Hce Hn. unfold header_text. cbn [forallb].
  rewrite !forallb_app.
  rewrite !basestring_scalar by (assumption || reflexivity).
  rewrite int_repr_scalar by exact Hn. reflexivity.
Qed.

(** For tags without surrogates the builder fails only on a header longer
    than 65535 bytes. *)
Lemma create_message_returns
      (byteorder : Sys.endianness) (content : bytes) (ctype cenc : pystr) :
  forallb is_scalar ctype = true ->
  forallb is_scalar cenc = true ->
  exists hdr,
    Codec.utf8_encode
      (header_text (Sys.name byteorder) ctype cenc (blen content)) = inl hdr
    /\
    _create_message byteorder
      {| content_bytes := PBytes content;
         content_type := PStr ctype;
         content_encoding := PStr cenc |}
    = if blen hdr <=? 65535 then inl (wire hdr content) else inr StructError.
Proof.
  intros Hct Hce.
  destruct (utf8_encode_scalar
              (header_text (Sys.name byteorder) ctype cenc (blen content)))
    as [hdr Hhdr].
  { apply header_text_scalar; try assumption.
    - destruct byteorder; reflexivity.
    - apply blen_nonneg. }
  exists hdr. split; [exact Hhdr|].
  unfold _create_message.
  cbn [content_bytes content_type content_encoding len rbind].
  unfold _json_encode.
  change (PDict _) with (header (Sys.name byteorder) ctype cenc (blen content)).
  rewrite dumps_header. cbn [rbind].
  change (Codec.lookup (u "utf-8")) with (Some Codec.Utf_8).
  cbv iota. cbn [Codec.encode Codec.decode].
  rewrite Hhdr. cbn [rbind]. unfold Struct.pack_H.
  replace (0 <=? blen hdr) with true
    by (symmetry; apply Z.leb_le; apply blen_nonneg).
  cbn [andb]. destruct (blen hdr <=? 65535); reflexivity.
Qed.

(** A lone surrogate in a tag makes the builder raise. *)
Example create_message_surrogate :
  _create_message Sys.little
    {| content_bytes := PBytes [];
       content_type := PStr [55296];
       content_encoding := PStr (u "utf-8") |} = inr UnicodeEncodeError.
Proof. vm_compute. reflexivity. Qed.

(** A tag of 65536 characters makes the header too long for the two-byte
    prefix. *)
Example create_message_too_long :
  _create_message Sys.little
    {| content_bytes := PBytes [];
       content_type := PStr (repeat 97 (Z.to_nat 65536));
       content_encoding := PStr (u "utf-8") |} = inr StructError.
Proof. vm_compute. reflexivity. Qed.

End BuilderReturns.

(** ** After the teardown *)

Module ClosedFacts.
Import StageFacts.

(** On a connection whose socket attribute is [None] and whose request is
    unset, no event sets the request. *)
Lemma handle_closed (byteorder : Sys.endianness) (e : event) (self : t) :
  sock self = None -> request self = PNone ->
  sock (fst (handle byteorder e self)) = None /\
  request (fst (handle byteorder e self)) = PNone.
Proof.
  destruct self as [sel sk ad vb buf sb jl jh0 jh rq rc out].
  cbn [sock request]. intros -> ->.
  destruct e as [mask r w c|c]; cbn [handle].
  - unfold process_events.
    destruct (negb (Z.land mask Selectors.EVENT_READ =? 0)),
             (negb (Z.land mask Selectors.EVENT_WRITE =? 0));
      rewrite ?read_stages; unfold _read, write, _write, close; run;
      cbn [truthy]; run; try (split; reflexivity);
      destruct sb, vb; run; split; reflexivity.
  - unfold close. run. cbn [Selectors.unregister].
    destruct vb; run; split; reflexivity.
Qed.

Lemma drive_closed (byteorder : Sys.endianness) (es : list event) :
  forall self,
    sock self = None -> request self = PNone ->
    request (drive byteorder es self) = PNone.
Proof.
  induction es as [|e es IH]; intros self Hs Hr; cbn [drive].
  - exact Hr.
  - destruct (handle_closed byteorder e self Hs Hr) as [H1 H2].
    apply IH; assumption.
Qed.

End ClosedFacts.

(** * The claims *)

Import JsonFacts CodecFacts StageFacts BuilderFacts RejectFacts FrameFacts
       ClosedFacts.

(** ** C8: the header-length stage *)

(** C8.  With at least two bytes buffered, [process_protoheader] takes the
    first two bytes off the receive buffer and stores their big-endian
    value, an unsigned 16-bit integer, as the header length; with fewer than
    two bytes buffered it leaves the connection as it is. *)
Theorem process_protoheader_spec (self : t) :
  (2 <= blen (_recv_buffer self) ->
   exists hi lo rest,
     _recv_buffer self = hi :: lo :: rest /\
     0 <= zb hi * 256 + zb lo < 65536 /\
     process_protoheader self =
     (set_recv_buffer rest
        (set_jsonheader_len (Some (zb hi * 256 + zb lo)) self), inl tt)) /\
  (blen (_recv_buffer self) < 2 ->
   process_protoheader self = (self, inl tt)).
Proof.
  destruct self as [sel sk ad vb buf sb jl jh0 jh rq rc out].
  cbn [_recv_buffer]. split; intros H.
  - destruct buf as [|hi [|lo rest]]; try (unfold blen in H; cbn in H; lia).
    exists hi, lo, rest. split; [reflexivity|].
    split; [pose proof (zb_range hi); pose proof (zb_range lo); lia|].
    unfold process_protoheader. run.
    replace (2 <=? blen (hi :: lo :: rest)) with true
      by (symmetry; apply Z.leb_le; exact H).
    reflexivity.
  - unfold process_protoheader. run.
    replace (2 <=? blen buf) with false by (symmetry; apply Z.leb_gt; lia).
    reflexivity.
Qed.

Lemma process_protoheader_spec_witness :
  (exists hi lo rest,
     _recv_buffer (set_recv_buffer (wire plain_header plain_content) conn0)
     = hi :: lo :: rest /\
     0 <= zb hi * 256 + zb lo < 65536 /\
     process_protoheader
       (set_recv_buffer (wire plain_header plain_content) conn0) =
     (set_recv_buffer rest
        (set_jsonheader_len (Some (zb hi * 256 + zb lo))
           (set_recv_buffer (wire plain_header plain_content) conn0)),
      inl tt)) /\
  process_protoheader conn0 = (conn0, inl tt).
Proof.
  split.
  - apply (process_protoheader_spec
             (set_recv_buffer (wire plain_header plain_content) conn0)).
    vm_compute. discriminate.
  - apply (process_protoheader_spec conn0). reflexivity.
Defined.

(** ** C7: content of another type passes through *)



(** ** C2: fragmentation invariance *)

Lemma set_selector_events_mask_jsonheader (mode : pystr) (self : t) :
  jsonheader (fst (_set_selector_events_mask mode self)) = jsonheader self.
Proof.
  destruct self. unfold _set_selector_events_mask.
  destruct (pystr_eqb mode (u "r")); run;
    [destruct (Selectors.modify _ _ _); reflexivity|].
  destruct (pystr_eqb mode (u "w")); run;
    [destruct (Selectors.modify _ _ _); reflexivity|].
  destruct (pystr_eqb mode (u "rw")); run;
    [destruct (Selectors.modify _ _ _); reflexivity|reflexivity].
Qed.

(** The payload stage never touches the parsed header. *)
Lemma process_request_jsonheader (self : t) :
  jsonheader (fst (process_request self)) = jsonheader self.
Proof.
  destruct self as [sel sk ad vb buf sb jl jh0 jh rq rc out].
  unfold process_request. run.
  destruct (subscript jh (u "content-length")) as [cl|]; [|reflexivity].
  destruct (int_ge (blen buf) cl) as [[|]|]; cbn [negb]; try reflexivity.
  destruct (bytes_upto buf cl) as [data|]; [|reflexivity].
  destruct (subscript jh (u "content-type")) as [ct|]; [|reflexivity].
  destruct (eq_str ct (u "text/json")).
  - destruct (subscript jh (u "content-encoding")) as [enc|]; [|reflexivity].
    destruct (_json_decode data enc) as [req|]; [|reflexivity].
    destruct vb; reflexivity.
  - match goal with
    | |- context [_set_selector_events_mask ?m ?s] =>
        exact (set_selector_events_mask_jsonheader m s)
    end.
Qed.

(** C2.  A wire message cut into non-empty chunks and delivered one read
    event per chunk leaves the connection, and the outcome of the last
    event, exactly as one read event delivering the whole message does; in
    particular the parsed header (the decoded mapping) and the request are
    the same. *)
Theorem fragmentation_invariance
        (sel : Selectors.selector) (fd : Z) (ad : pyval) (vb : bool)
        (hdr content : bytes) (d : list (pystr * pyval))
        (chunks : list bytes) :
  wire_message hdr content d ->
  Forall (fun chunk => chunk <> []) chunks ->
  concat chunks = wire hdr content ->
  let conn := __init__ sel (Some fd) ad vb in
  let whole := read (Recv (wire hdr content)) conn in
  feed chunks conn = whole /\
  jsonheader (fst (feed chunks conn)) = jsonheader (fst whole) /\
  request (fst (feed chunks conn)) = request (fst whole) /\
  jsonheader (fst whole) = PDict d.
Proof.
  intros Hw Hne Hcat conn whole.
  assert (wire hdr content <> []) as Hnil by discriminate.
  assert (whole = stages (set_recv_buffer (wire hdr content) conn)) as Hwhole.
  { unfold whole. rewrite read_recv; [reflexivity|discriminate|exact Hnil]. }
  assert (feed chunks conn = whole) as Hfeed.
  { rewrite Hwhole.
    apply (feed_from sel fd ad vb [] PNone false [] hdr content d Hw chunks []).
    - exact Hne.
    - intros ->. cbn [concat] in Hcat. symmetry in Hcat. contradiction.
    - exact Hcat.
    - apply stages_length_short. reflexivity. }
  rewrite Hfeed. repeat split.
  rewrite Hwhole.
  change (set_recv_buffer (wire hdr content) conn)
    with (mk sel (Some fd) ad vb (prefix (blen hdr) ++ hdr ++ content) []
             None PNone PNone PNone false []).
  rewrite stages_length_long
    by (pose proof (wm_length _ _ _ Hw); pose proof (blen_nonneg hdr); lia).
  rewrite (stages_header_long _ _ _ _ _ _ _ _ hdr content d Hw).
  rewrite (stages_payload _ _ _ _ _ _ _ _ hdr content d Hw).
  apply process_request_jsonheader.
Qed.

Lemma plain_wire_message : wire_message plain_header plain_content plain_dict.
Proof.
  constructor.
  - vm_compute. discriminate.
  - vm_compute. reflexivity.
  - vm_compute. reflexivity.
  - vm_compute. reflexivity.
Qed.

Lemma fragmentation_invariance_witness :
  let chunks := [ firstn 1 (wire plain_header plain_content);
                  firstn 60 (skipn 1 (wire plain_header plain_content));
                  skipn 61 (wire plain_header plain_content) ] in
  let whole := read (Recv (wire plain_header plain_content)) conn0 in
  feed chunks conn0 = whole /\
  jsonheader (fst (feed chunks conn0)) = jsonheader (fst whole) /\
  request (fst (feed chunks conn0)) = request (fst whole) /\
  jsonheader (fst whole) = PDict plain_dict.
Proof.
  apply (fragmentation_invariance
           [(7, Selectors.EVENT_READ)] 7 (PStr (u "peer")) false
           plain_header plain_content plain_dict).
  - exact plain_wire_message.
  - repeat constructor; vm_compute; discriminate.
  - vm_compute. reflexivity.
Defined.

(** ** C1: the builder against the decode stages *)

(** C1, amended.  Whenever the builder returns a message for content [C] and
    [str] tags [T] and [E], and [T] is not ["text/json"], one read event
    delivering that message to a fresh, registered connection returns
    normally and leaves the parsed header with content type [T], content
    encoding [E], content length [len(C)] and the platform's byte order, and
    the request equal to [C]. *)
Theorem builder_roundtrip
        (byteorder : Sys.endianness) (sel : Selectors.selector) (fd ev : Z)
        (ad : pyval) (vb : bool) (content : bytes) (ctype cenc : pystr)
        (msg : bytes) :
  _create_message byteorder
    {| content_bytes := PBytes content;
       content_type := PStr ctype;
       content_encoding := PStr cenc |} = inl msg ->
  pystr_eqb ctype (u "text/json") = false ->
  Selectors.get_key sel fd = Some ev ->
  let decoded := read (Recv msg) (__init__ sel (Some fd) ad vb) in
  snd decoded = inl tt /\
  jsonheader (fst decoded)
  = header (Sys.name byteorder) ctype cenc (blen content) /\
  request (fst decoded) = PBytes content.
Proof.
  intros Hmsg Hne Hkey decoded.
  destruct (create_message_wire byteorder content ctype cenc msg Hmsg)
    as (hdr & -> & Hw).
  assert (decoded =
          process_request
            (mk sel (Some fd) ad vb content [] (Some (blen hdr)) PNone
                (header (Sys.name byteorder) ctype cenc (blen content))
                PNone false [])) as Hdec.
  { unfold decoded. rewrite read_recv by discriminate.
    change (set_recv_buffer _ _)
      with (mk sel (Some fd) ad vb (prefix (blen hdr) ++ hdr ++ content) []
               None PNone PNone PNone false []).
    rewrite stages_length_long
      by (pose proof (wm_length _ _ _ Hw); pose proof (blen_nonneg hdr); lia).
    rewrite (stages_header_long _ _ _ _ _ _ _ _ hdr content _ Hw).
    rewrite (stages_payload _ _ _ _ _ _ _ _ hdr content _ Hw).
    reflexivity. }
  rewrite Hdec.
  erewrite (process_request_raw _ _ (PStr ctype) fd ev content []);
    try reflexivity; try assumption.
  - repeat split.
  - cbn [_recv_buffer]. symmetry. apply app_nil_r.
Qed.

Lemma builder_roundtrip_witness :
  let decoded := read (Recv (wire plain_header plain_content)) conn0 in
  snd decoded = inl tt /\
  jsonheader (fst decoded)
  = header (Sys.name Sys.little) (u "text/plain") (u "utf-8")
           (blen plain_content) /\
  request (fst decoded) = PBytes plain_content.
Proof.
  apply (builder_roundtrip Sys.little [(7, Selectors.EVENT_READ)] 7
           Selectors.EVENT_READ (PStr (u "peer")) false plain_content
           (u "text/plain") (u "utf-8") (wire plain_header plain_content));
    vm_compute; reflexivity.
Defined.

(** The claim as written fails for content of type ["text/json"]: the
    payload stage parses it, and the request is the parsed value, not the
    content bytes. *)
Lemma builder_roundtrip_counterexample :
  exists msg,
    _create_message Sys.little
      {| content_bytes := PBytes (ascii_bytes (u "1"));
         content_type := PStr (u "text/json");
         content_encoding := PStr (u "utf-8") |} = inl msg /\
    request (fst (read (Recv msg) conn0)) = PInt 1 /\
    request (fst (read (Recv msg) conn0)) <> PBytes (ascii_bytes (u "1")).
Proof.
  eexists. split; [vm_compute; reflexivity|].
  split; [vm_compute; reflexivity|vm_compute; discriminate].
Qed.

(** ** C3 and C10: a header without a required key *)

(** C3 (amended).  Let the header bytes decode to a mapping that lacks one
    of the four required keys.  However the prefix, the header and whatever
    follows are cut into non-empty chunks, feeding them to a fresh connection
    ends in [ValueError] (missing required header) for a required key the
    mapping lacks, with the request still unset: no payload has been
    extracted when the header stage fails.  The class itself keeps no mark of
    the failure; it is the caller's teardown that makes it final: once the
    caller has closed the connection, no sequence of events ever sets the
    request. *)
Theorem required_field_rejection
        (sel : Selectors.selector) (fd : Z) (ad : pyval) (vb : bool)
        (hdr rest : bytes) (d : list (pystr * pyval))
        (chunks : list bytes) :
  blen hdr <= 65535 ->
  _json_decode hdr (PStr (u "utf-8")) = inl (PDict d) ->
  forallb (dict_has d) required_headers = false ->
  Forall (fun chunk => chunk <> []) chunks ->
  concat chunks = prefix (blen hdr) ++ hdr ++ rest ->
  exists k self',
    In k required_headers /\ dict_has d k = false /\
    feed chunks (__init__ sel (Some fd) ad vb)
    = (self', inr (ValueError (Missing_required_header k))) /\
    request self' = PNone /\
    forall c byteorder es,
      request (drive byteorder es (fst (close c self'))) = PNone.
Proof.
  intros Hlen Hdec Hmiss Hne Hcat.
  destruct (feed_rejected sel fd ad vb [] PNone false [] hdr rest d
              Hlen Hdec Hmiss chunks [] (__init__ sel (Some fd) ad vb))
    as (k & self' & Hin & Hk & Hfeed & _ & Hreq & Hsock);
    try assumption.
  { pose proof (blen_nonneg hdr). unfold blen at 1. cbn [length]. lia. }
  { apply stages_length_short. reflexivity. }
  exists k, self'. repeat (split; [assumption|]).
  intros c byteorder es.
  destruct (read_after_close self' c Recv_BlockingIOError Hsock)
    as (H0 & H1 & _).
  apply drive_closed; [exact H0|]. rewrite H1. exact Hreq.
Qed.

Lemma headless_decode :
  _json_decode headless_header (PStr (u "utf-8")) = inl (PDict headless_dict).
Proof. vm_compute. reflexivity. Qed.

Lemma required_field_rejection_witness :
  exists k self',
    In k required_headers /\ dict_has headless_dict k = false /\
    feed [ prefix (blen headless_header);
           headless_header ++ plain_content ] conn0
    = (self', inr (ValueError (Missing_required_header k))) /\
    request self' = PNone /\
    forall c byteorder es,
      request (drive byteorder es (fst (close c self'))) = PNone.
Proof.
  apply (required_field_rejection
           [(7, Selectors.EVENT_READ)] 7 (PStr (u "peer")) false
           headless_header plain_content headless_dict).
  - vm_compute. discriminate.
  - exact headless_decode.
  - reflexivity.
  - repeat constructor; vm_compute; discriminate.
  - cbn [concat]. rewrite app_nil_r. reflexivity.
Defined.

(** C3 as written fails on a connection that is left open.  A header
    without the byte-order key is rejected with [ValueError], but it stays
    stored (see C10), and the next read event, with nothing new to read,
    runs the payload stage on it: the request becomes the payload. *)
Lemma required_field_rejection_counterexample :
  _json_decode headless_header (PStr (u "utf-8"))
  = inl (PDict headless_dict) /\
  forallb (dict_has headless_dict) required_headers = false /\
  let rejected := read (Recv (wire headless_header plain_content)) conn0 in
  snd rejected = inr (ValueError (Missing_required_header (u "byteorder"))) /\
  request (fst rejected) = PNone /\
  snd (read Recv_BlockingIOError (fst rejected)) = inl tt /\
  request (fst (read Recv_BlockingIOError (fst rejected)))
  = PBytes plain_content.
Proof. vm_compute. repeat split; reflexivity. Qed.

(** C10.  When the header stage raises for a missing required key, the
    connection it leaves behind already holds the decoded mapping in
    [jsonheader] and a receive buffer advanced past the whole header span;
    nothing is rolled back. *)
Theorem header_failure_not_atomic
        (self : t) (hdr rest : bytes) (d : list (pystr * pyval)) :
  _jsonheader_len self = Some (blen hdr) ->
  _recv_buffer self = hdr ++ rest ->
  _json_decode hdr (PStr (u "utf-8")) = inl (PDict d) ->
  forallb (dict_has d) required_headers = false ->
  exists k self',
    process_jsonheader self
    = (self', inr (ValueError (Missing_required_header k))) /\
    dict_has d k = false /\
    jsonheader self' = PDict d /\
    _recv_buffer self' = rest /\
    self' = set_recv_buffer rest (set_jsonheader (PDict d) self).
Proof.
  intros Hlen Hbuf Hdec Hmiss.
  destruct (process_jsonheader_missing self hdr rest d Hlen Hbuf Hdec Hmiss)
    as (k & _ & Hk & Hp).
  exists k, (set_recv_buffer rest (set_jsonheader (PDict d) self)).
  split; [exact Hp|]. split; [exact Hk|]. destruct self. repeat split.
Qed.

Lemma header_failure_not_atomic_witness :
  exists k self',
    process_jsonheader
      (set_recv_buffer (headless_header ++ plain_content)
         (set_jsonheader_len (Some (blen headless_header)) conn0))
    = (self', inr (ValueError (Missing_required_header k))) /\
    dict_has headless_dict k = false /\
    jsonheader self' = PDict headless_dict /\
    _recv_buffer self' = plain_content /\
    self' = set_recv_buffer plain_content
              (set_jsonheader (PDict headless_dict)
                 (set_recv_buffer (headless_header ++ plain_content)
                    (set_jsonheader_len (Some (blen headless_header)) conn0))).
Proof.
  apply (header_failure_not_atomic
           (set_recv_buffer (headless_header ++ plain_content)
              (set_jsonheader_len (Some (blen headless_header)) conn0))
           headless_header plain_content headless_dict).
  - reflexivity.
  - reflexivity.
  - exact headless_decode.
  - reflexivity.
Defined.

(** ** C4: the response to content of another type *)

(** C4 (what the code does).  For a header whose content type is not
    ["text/json"], [create_response] takes the empty response, whose content
    is [None], to the builder, which raises [TypeError] on [len(None)]:
    nothing is appended to the send buffer and the flag stays as it was. *)
Theorem empty_response_raises
        (byteorder : Sys.endianness) (self : t)
        (d : list (pystr * pyval)) (ctype : pyval) :
  jsonheader self = PDict d ->
  dict_get d (u "content-type") = Some ctype ->
  eq_str ctype (u "text/json") = false ->
  _create_message byteorder _create_empty_response_content = inr TypeError /\
  create_response byteorder self = (self, inr TypeError) /\
  (truthy (request self) = true -> response_created self = false ->
   forall w c, write byteorder w c self = (self, inr TypeError)).
Proof.
  intros Hj Hct Hne.
  assert (create_response byteorder self = (self, inr TypeError)) as Hcr.
  { destruct self. cbn [jsonheader] in Hj. subst.
    unfold create_response. run. cbn [subscript]. rewrite Hct. run.
    rewrite Hne. run. reflexivity. }
  split; [reflexivity|]. split; [exact Hcr|].
  intros Hreq Hrc w c. unfold write, bind, get.
  rewrite Hreq, Hrc. cbn [negb when]. rewrite Hcr. reflexivity.
Qed.

Lemma empty_response_raises_witness :
  let self := fst (read (Recv (wire plain_header plain_content)) conn0) in
  _create_message Sys.little _create_empty_response_content = inr TypeError /\
  create_response Sys.little self = (self, inr TypeError) /\
  (truthy (request self) = true -> response_created self = false ->
   forall w c, write Sys.little w c self = (self, inr TypeError)).
Proof.
  apply (empty_response_raises Sys.little
           (fst (read (Recv (wire plain_header plain_content)) conn0))
           plain_dict (PStr (u "text/plain"))); vm_compute; reflexivity.
Defined.

(** ** C5: the response is created once *)

Lemma json_response_message (byteorder : Sys.endianness) :
  _create_response_json_content = inl json_response /\
  exists msg, _create_message byteorder json_response = inl msg.
Proof.
  split; [vm_compute; reflexivity|].
  destruct byteorder; eexists; vm_compute; reflexivity.
Qed.

(** C5, amended.  With a JSON header, a request that is truthy and the flag
    false, a write event builds the response message, appends it to the send
    buffer and sets the flag before sending; and once the flag is true,
    whatever events follow, it stays true and the send buffer is only ever
    shortened from the front: no further response is created. *)
Theorem response_created_once
        (byteorder : Sys.endianness) (self : t)
        (d : list (pystr * pyval)) (ctype : pyval) :
  jsonheader self = PDict d ->
  dict_get d (u "content-type") = Some ctype ->
  eq_str ctype (u "text/json") = true ->
  truthy (request self) = true ->
  response_created self = false ->
  (forall w c,
     exists msg,
       _create_message byteorder json_response = inl msg /\
       write byteorder w c self
       = _write w c (set_send_buffer (_send_buffer self ++ msg)
                       (set_response_created true self)) /\
       response_created (fst (write byteorder w c self)) = true) /\
  (forall self' es,
     response_created self' = true ->
     response_created (drive byteorder es self') = true /\
     exists k,
       _send_buffer (drive byteorder es self') = skipn k (_send_buffer self')).
Proof.
  intros Hj Hct Heq Hreq Hrc. split.
  - intros w c.
    destruct (json_response_message byteorder) as [Hresp [msg Hmsg]].
    exists msg. split; [exact Hmsg|].
    assert (write byteorder w c self
            = _write w c (set_send_buffer (_send_buffer self ++ msg)
                            (set_response_created true self))) as Hw.
    { destruct self. cbn [jsonheader request response_created] in *. subst.
      unfold write. run. rewrite Hreq. run.
      unfold create_response. run. cbn [subscript]. rewrite Hct. run.
      rewrite Heq, Hresp. run. rewrite Hmsg. run.
      match goal with
      | |- context [_write w c ?s] => destruct (_write w c s) as [s' [[]|e]]
      end; reflexivity. }
    split; [exact Hw|]. rewrite Hw.
    destruct (_write_outbound w c
                (set_send_buffer (_send_buffer self ++ msg)
                   (set_response_created true self))) as [H _].
    rewrite H. destruct self. reflexivity.
  - intros self' es. apply drive_outbound.
Qed.

Lemma response_created_once_witness :
  let self :=
    fst (read (Recv (wire scenario_header_16 scenario_content)) conn0) in
  (forall w c,
     exists msg,
       _create_message Sys.little json_response = inl msg /\
       write Sys.little w c self
       = _write w c (set_send_buffer (_send_buffer self ++ msg)
                       (set_response_created true self)) /\
       response_created (fst (write Sys.little w c self)) = true) /\
  (forall self' es,
     response_created self' = true ->
     response_created (drive Sys.little es self') = true /\
     exists k,
       _send_buffer (drive Sys.little es self')
       = skipn k (_send_buffer self')).
Proof.
  apply (response_created_once Sys.little
           (fst (read (Recv (wire scenario_header_16 scenario_content)) conn0))
           [ (u "byteorder", PStr (u "little"));
             (u "content-type", PStr (u "text/json"));
             (u "content-encoding", PStr (u "utf-8"));
             (u "content-length", PInt 16) ]
           (PStr (u "text/json"))); vm_compute; reflexivity.
Defined.

(** The claim as written fails for a request that is set but falsy: after
    the JSON payload [{}] the request is the empty mapping, the flag is
    false, and a write event creates no response. *)
Lemma response_created_once_counterexample :
  let self := fst (read (Recv (wire object_header object_content)) conn0) in
  request self = PDict [] /\
  is_none (request self) = false /\
  response_created self = false /\
  write Sys.little (Sent 1) Closed self = (self, inl tt) /\
  response_created (fst (write Sys.little (Sent 1) Closed self)) = false /\
  _send_buffer (fst (write Sys.little (Sent 1) Closed self)) = [].
Proof. vm_compute. repeat split. Qed.

(** ** C6: teardown *)

(** [close] on an open connection returns normally whatever the registry
    and the socket do, and leaves the socket attribute [None]. *)
Lemma close_open (self : t) (fd : Z) (c : close_outcome) :
  sock self = Some fd ->
  exists self',
    close c self = (self', inl tt) /\ sock self' = None /\
    _send_buffer self' = _send_buffer self.
Proof.
  destruct self as [sel sk ad vb buf sb jl jh0 jh rq rc out].
  cbn [sock]. intros ->. unfold close. run.
  destruct vb, (Selectors.unregister sel (Some fd)), c; run;
    eexists; repeat split.
Qed.

(** [close] on a connection whose socket attribute is [None] raises. *)
Lemma close_closed (self : t) (c : close_outcome) :
  sock self = None -> snd (close c self) = inr AttributeError.
Proof.
  destruct self as [sel sk ad vb buf sb jl jh0 jh rq rc out].
  cbn [sock]. intros ->. unfold close. run. cbn [Selectors.unregister].
  destruct vb; reflexivity.
Qed.

(** A send that takes the whole buffer ends in [close]. *)
Lemma write_drained (self : t) (fd : Z) (b : byte) (rest : bytes)
      (sent : nat) (c : close_outcome) :
  sock self = Some fd ->
  _send_buffer self = b :: rest ->
  (length (b :: rest) <= sent)%nat ->
  exists s1,
    _write (Sent sent) c self = close c s1 /\ sock s1 = Some fd /\
    _send_buffer s1 = [].
Proof.
  intros Hs Hb Hlen.
  destruct self as [sel sk ad vb buf sb jl jh0 jh rq rc out].
  cbn [sock _send_buffer] in Hs, Hb. subst sk sb.
  destruct sent as [|n]; [cbn [length] in Hlen; lia|].
  assert (skipn (S n) (b :: rest) = []) as Hskip
    by (apply skipn_all2; exact Hlen).
  unfold _write. run. destruct vb; run; rewrite Hskip;
    eexists; repeat split.
Qed.

(** C6 (what the code does).  A send that drains the send buffer closes the
    connection, whatever [sock.close] did: [_write] returns normally, the
    socket attribute is [None], and later write events find the buffer
    empty and do nothing.  A second call of [close] on that connection is
    not a no-op: [self.sock.close()] on [None] raises [AttributeError],
    which the [except OSError] clause does not catch. *)
Theorem second_close_raises
        (self : t) (fd : Z) (b : byte) (rest : bytes) (sent : nat)
        (c c' : close_outcome) (w : send_outcome) :
  sock self = Some fd ->
  _send_buffer self = b :: rest ->
  (length (b :: rest) <= sent)%nat ->
  let closed := fst (_write (Sent sent) c self) in
  snd (_write (Sent sent) c self) = inl tt /\
  sock closed = None /\
  _send_buffer closed = [] /\
  _write w c' closed = (closed, inl tt) /\
  snd (close c' closed) = inr AttributeError.
Proof.
  intros Hs Hb Hlen closed.
  destruct (write_drained self fd b rest sent c Hs Hb Hlen)
    as (s1 & Hw & Hs1 & Hb1).
  destruct (close_open s1 fd c Hs1) as (s2 & Hc & Hs2 & Hb2).
  assert (closed = s2) as -> by (unfold closed; rewrite Hw, Hc; reflexivity).
  rewrite Hw, Hc. split; [reflexivity|]. split; [exact Hs2|].
  split; [congruence|]. split.
  - rewrite Hb1 in Hb2. clear Hw Hc Hs1 Hb1.
    destruct s2. cbn [sock _send_buffer] in Hs2, Hb2. subst.
    unfold _write. run. reflexivity.
  - apply close_closed. exact Hs2.
Qed.

Lemma second_close_raises_witness :
  let self :=
    fst (write Sys.little Send_BlockingIOError Closed
           (fst (read (Recv (wire scenario_header_16 scenario_content))
                      conn0))) in
  let closed := fst (_write (Sent 200) Closed self) in
  snd (_write (Sent 200) Closed self) = inl tt /\
  sock closed = None /\
  _send_buffer closed = [] /\
  _write (Sent 1) Closed closed = (closed, inl tt) /\
  snd (close Closed closed) = inr AttributeError.
Proof.
  apply (second_close_raises
           (fst (write Sys.little Send_BlockingIOError Closed
                   (fst (read (Recv (wire scenario_header_16 scenario_content))
                              conn0))))
           7 "000"%byte
           (tl (_send_buffer
                  (fst (write Sys.little Send_BlockingIOError Closed
                          (fst (read (Recv (wire scenario_header_16
                                                 scenario_content))
                                     conn0))))))
           200%nat Closed Closed (Sent 1)).
  - vm_compute. reflexivity.
  - vm_compute. reflexivity.
  - vm_compute. repeat constructor.
Defined.

(** ** C9: the scenario *)

(** C9, amended.  With the content length the content has (16), one read
    event delivering the scenario's message leaves the request equal to the
    mapping with [cmd] set to [status].  The next write event builds the
    message of the JSON response (the mapping with [result] set to 1) and
    queues it; while the socket takes nothing or only a part, the
    connection stays open; when the last byte is sent the socket is
    unregistered and closed. *)
Theorem scenario (byteorder : Sys.endianness) :
  let arrived :=
    read (Recv (wire scenario_header_16 scenario_content)) conn0 in
  let self := fst arrived in
  snd arrived = inl tt /\
  request self = PDict [ (u "cmd", PStr (u "status")) ] /\
  _create_response_json_content = inl json_response /\
  _json_decode (ascii_bytes (jq "{'result': 1}")) (PStr (u "utf-8"))
  = inl (PDict [ (u "result", PInt 1) ]) /\
  exists msg,
    _create_message byteorder json_response = inl msg /\
    (let queued := fst (write byteorder Send_BlockingIOError Closed self) in
     _send_buffer queued = msg /\ response_created queued = true /\
     sock queued = Some 7) /\
    (let part := write byteorder (Sent 10) Closed self in
     snd part = inl tt /\ _send_buffer (fst part) = skipn 10 msg /\
     sock (fst part) = Some 7 /\
     let rest := write byteorder (Sent (length msg - 10)) Closed (fst part) in
     snd rest = inl tt /\ _send_buffer (fst rest) = [] /\
     sock (fst rest) = None /\ selector (fst rest) = []) /\
    (let done := write byteorder (Sent (length msg)) Closed self in
     snd done = inl tt /\ _send_buffer (fst done) = [] /\
     sock (fst done) = None /\ selector (fst done) = []).
Proof.
  cbv zeta.
  split; [vm_compute; reflexivity|].
  split; [vm_compute; reflexivity|].
  split; [vm_compute; reflexivity|].
  split; [vm_compute; reflexivity|].
  destruct byteorder; eexists; (split; [vm_compute; reflexivity|]);
    vm_compute; repeat split.
Qed.

(** The scenario as written announces 13 content bytes, while the content
    has 16: the payload stage parses the first 13 bytes, an unterminated
    string, and raises; no request is set. *)
Lemma scenario_counterexample :
  blen scenario_content = 16 /\
  snd (read (Recv (wire scenario_header_13 scenario_content)) conn0)
  = inr JSONDecodeError /\
  request (fst (read (Recv (wire scenario_header_13 scenario_content)) conn0))
  = PNone.
Proof. vm_compute. repeat split. Qed.

(** * Further properties of the code *)

Module MoreFacts.
Import StageFacts.

Lemma get_set_key_other (sel : Selectors.selector) (fd fd' ev : Z) :
  fd' <> fd ->
  Selectors.get_key (Selectors.set_key sel fd ev) fd'
  = Selectors.get_key sel fd'.
Proof.
  intros Hne. induction sel as [|[k e] sel IH];
    cbn [Selectors.get_key Selectors.set_key]; [reflexivity|].
  destruct (k =? fd) eqn:E; cbn [Selectors.get_key].
  - apply Z.eqb_eq in E. subst k.
    replace (fd =? fd') with false by (symmetry; apply Z.eqb_neq; lia).
    reflexivity.
  - destruct (k =? fd'); [reflexivity|exact IH].
Qed.

Lemma get_del_key_other (sel : Selectors.selector) (fd fd' : Z) :
  fd' <> fd ->
  Selectors.get_key (Selectors.del_key sel fd) fd'
  = Selectors.get_key sel fd'.
Proof.
  intros Hne. induction sel as [|[k e] sel IH];
    cbn [Selectors.get_key Selectors.del_key]; [reflexivity|].
  destruct (k =? fd) eqn:E; cbn [Selectors.get_key].
  - apply Z.eqb_eq in E. subst k.
    replace (fd =? fd') with false by (symmetry; apply Z.eqb_neq; lia).
    reflexivity.
  - destruct (k =? fd'); [reflexivity|exact IH].
Qed.

Lemma get_key_absent (sel : Selectors.selector) (fd : Z) :
  ~ In fd (map fst sel) -> Selectors.get_key sel fd = None.
Proof.
  induction sel as [|[k e] sel IH]; cbn [Selectors.get_key map fst In];
    intros H; [reflexivity|].
  destruct (k =? fd) eqn:E.
  - apply Z.eqb_eq in E. exfalso. apply H. left. exact E.
  - apply IH. intros Hin. apply H. right. exact Hin.
Qed.

Lemma get_del_key_same (sel : Selectors.selector) (fd : Z) :
  NoDup (map fst sel) ->
  Selectors.get_key (Selectors.del_key sel fd) fd = None.
Proof.
  induction sel as [|[k e] sel IH]; cbn [Selectors.del_key map fst];
    intros H; [reflexivity|].
  inversion H as [|? ? Hnotin Hnd]; subst.
  destruct (k =? fd) eqn:E.
  - apply Z.eqb_eq in E. subst k. apply get_key_absent. exact Hnotin.
  - cbn [Selectors.get_key]. rewrite E. exact (IH Hnd).
Qed.

End MoreFacts.

Import MoreFacts.

(** ** [_read] and [read]: what the socket may answer *)

(** X1.  On an open socket, a zero-length [recv] (the peer has closed) makes
    [read] raise [RuntimeError] ("Peer closed.") and any other [OSError]
    propagates; in both cases no stage runs and the connection is left
    exactly as it was. *)
Theorem read_failure_leaves_connection (self : t) (fd : Z) :
  sock self = Some fd ->
  read (Recv []) self = (self, inr (RuntimeError Peer_closed)) /\
  read Recv_OSError self = (self, inr OSError).
Proof.
  destruct self as [sel sk ad vb buf sb jl jh0 jh rq rc out].
  cbn [sock]. intros ->. rewrite !read_stages. unfold _read. run.
  split; reflexivity.
Qed.

Lemma read_failure_leaves_connection_witness :
  read (Recv []) conn0 = (conn0, inr (RuntimeError Peer_closed)) /\
  read Recv_OSError conn0 = (conn0, inr OSError).
Proof.
  apply (read_failure_leaves_connection conn0 7). reflexivity.
Defined.

(** ** [_set_selector_events_mask] *)

(** X2.  On a registered socket the modes ["r"], ["w"] and ["rw"] set the
    socket's event mask to [EVENT_READ], [EVENT_WRITE] and their union, and
    change neither another socket's registration nor any attribute but the
    selector; every other mode raises [ValueError] and changes nothing. *)
Theorem set_selector_events_mask_spec
        (self : t) (fd ev : Z) (mode : pystr) :
  sock self = Some fd ->
  Selectors.get_key (selector self) fd = Some ev ->
  let events :=
    if pystr_eqb mode (u "r") then Some Selectors.EVENT_READ
    else if pystr_eqb mode (u "w") then Some Selectors.EVENT_WRITE
    else if pystr_eqb mode (u "rw")
         then Some (Z.lor Selectors.EVENT_READ Selectors.EVENT_WRITE)
    else None in
  match events with
  | Some e =>
      exists sel',
        _set_selector_events_mask mode self
        = (set_selector sel' self, inl tt) /\
        Selectors.get_key sel' fd = Some e /\
        forall fd', fd' <> fd ->
          Selectors.get_key sel' fd' = Selectors.get_key (selector self) fd'
  | None =>
      _set_selector_events_mask mode self
      = (self, inr (ValueError (Invalid_events_mask_mode mode)))
  end.
Proof.
  destruct self as [sel sk ad vb buf sb jl jh0 jh rq rc out].
  cbn [sock selector]. intros -> Hkey. cbv zeta.
  unfold _set_selector_events_mask.
  assert (forall e,
            exists sel',
              (let (self', r) :=
                 lift (Selectors.modify sel (Some fd) e)
                      (mk sel (Some fd) ad vb buf sb jl jh0 jh rq rc out) in
               match r with
               | inl a => update (set_selector a) self'
               | inr e0 => (self', inr e0)
               end)
              = (mk sel' (Some fd) ad vb buf sb jl jh0 jh rq rc out, inl tt)
              /\ Selectors.get_key sel' fd = Some e
              /\ forall fd', fd' <> fd ->
                   Selectors.get_key sel' fd' = Selectors.get_key sel fd')
    as Hmod.
  { intros e. exists (Selectors.set_key sel fd e).
    unfold Selectors.modify. rewrite Hkey. run.
    split; [reflexivity|]. split; [exact (get_set_key _ _ _ _ Hkey)|].
    intros fd' Hne. apply get_set_key_other. exact Hne. }
  destruct (pystr_eqb mode (u "r")); [run; apply Hmod|].
  destruct (pystr_eqb mode (u "w")); [run; apply Hmod|].
  destruct (pystr_eqb mode (u "rw")); [run; apply Hmod|].
  run. reflexivity.
Qed.

Lemma set_selector_events_mask_spec_witness :
  (exists sel',
     _set_selector_events_mask (u "rw") conn0 = (set_selector sel' conn0, inl tt)
     /\ Selectors.get_key sel' 7 = Some 3
     /\ forall fd', fd' <> 7 ->
          Selectors.get_key sel' fd' = Selectors.get_key (selector conn0) fd')
  /\ _set_selector_events_mask (u "x") conn0
     = (conn0, inr (ValueError (Invalid_events_mask_mode (u "x")))).
Proof.
  split.
  - apply (set_selector_events_mask_spec conn0 7 Selectors.EVENT_READ (u "rw"));
      reflexivity.
  - apply (set_selector_events_mask_spec conn0 7 Selectors.EVENT_READ (u "x"));
      reflexivity.
Defined.

(** ** [process_jsonheader]: what the header may be *)

Lemma slice_to_longer (b data : bytes) (n : Z) :
  0 <= n <= blen b -> slice_to (b ++ data) n = slice_to b n.
Proof.
  unfold slice_to, blen. intros [H0 Hn].
  replace (0 <=? n) with true by (symmetry; apply Z.leb_le; exact H0).
  rewrite firstn_app.
  replace (Z.to_nat n - length b)%nat with O by lia.
  cbn [firstn]. apply app_nil_r.
Qed.

(** A connection whose header span is complete and does not decode raises
    at every read event that reaches the stages. *)
Lemma read_stuck (self : t) (hdrlen : Z) (e : exn) (r : recv_outcome) :
  _jsonheader_len self = Some hdrlen ->
  0 <= hdrlen <= blen (_recv_buffer self) ->
  _json_decode (slice_to (_recv_buffer self) hdrlen) (PStr (u "utf-8"))
  = inr e ->
  jsonheader self = PNone -> sock self <> None ->
  benign r ->
  read r self
  = (set_recv_buffer (_recv_buffer self ++ delivered [r]) self, inr e).
Proof.
  destruct self as [sel sk ad vb buf sb jl jh0 jh rq rc out].
  cbn [_jsonheader_len _recv_buffer jsonheader sock set_recv_buffer].
  intros -> Hlen Hdec -> Hs Hr. destruct sk as [fd|]; [|contradiction].
  assert (forall data,
            stages (mk sel (Some fd) ad vb (buf ++ data) sb (Some hdrlen)
                       jh0 PNone rq rc out)
            = (mk sel (Some fd) ad vb (buf ++ data) sb (Some hdrlen)
                  jh0 PNone rq rc out, inr e)) as Hst.
  { intros data. unfold stages, process_jsonheader. run.
    replace (hdrlen <=? blen (buf ++ data)) with true
      by (symmetry; apply Z.leb_le; rewrite blen_app;
          pose proof (blen_nonneg data); lia).
    rewrite slice_to_longer by exact Hlen. rewrite Hdec. run. reflexivity. }
  destruct r as [data| |]; cbn [benign] in Hr; [| |contradiction].
  - rewrite read_recv by (cbn [sock]; congruence).
    cbn [_recv_buffer set_recv_buffer delivered flat_map].
    rewrite app_nil_r. apply Hst.
  - rewrite read_stages. unfold _read. run.
    cbn [delivered flat_map]. rewrite app_nil_r.
    specialize (Hst []). rewrite app_nil_r in Hst. revert Hst.
    unfold stages. run. intros ->. reflexivity.
Qed.

(** X3.  When the bytes of the header span do not decode (invalid UTF-8, or
    not a JSON text), [process_jsonheader] raises the decoder's exception
    having changed nothing: the span stays in the receive buffer and the
    header stays unset.  From then on every read event that receives data or
    finds nothing to read raises that same exception again, and all that
    such events change is the receive buffer, which grows by the data
    received. *)
Theorem malformed_header_not_consumed (self : t) (hdrlen : Z) (e : exn) :
  _jsonheader_len self = Some hdrlen ->
  hdrlen <= blen (_recv_buffer self) ->
  _json_decode (slice_to (_recv_buffer self) hdrlen) (PStr (u "utf-8"))
  = inr e ->
  process_jsonheader self = (self, inr e) /\
  (jsonheader self = PNone -> sock self <> None -> 0 <= hdrlen ->
   forall rs, Forall benign rs ->
     after_reads rs self
     = set_recv_buffer (_recv_buffer self ++ delivered rs) self /\
     forall r, benign r -> snd (read r (after_reads rs self)) = inr e).
Proof.
  intros Hjl Hlen Hdec. split.
  { destruct self as [sel sk ad vb buf sb jl jh0 jh rq rc out].
    cbn [_jsonheader_len _recv_buffer] in *. subst jl.
    unfold process_jsonheader. run.
    replace (hdrlen <=? blen buf) with true
      by (symmetry; apply Z.leb_le; exact Hlen).
    rewrite Hdec. run. reflexivity. }
  intros Hjh Hs H0 rs Hrs.
  assert (forall buf',
            let self' := set_recv_buffer (_recv_buffer self ++ buf') self in
            _jsonheader_len self' = Some hdrlen /\
            0 <= hdrlen <= blen (_recv_buffer self') /\
            _json_decode (slice_to (_recv_buffer self') hdrlen)
                         (PStr (u "utf-8")) = inr e /\
            jsonheader self' = PNone /\ sock self' <> None /\
            forall more,
              set_recv_buffer (_recv_buffer self' ++ more) self'
              = set_recv_buffer (_recv_buffer self ++ buf' ++ more) self)
    as Hinv.
  { intros buf'. destruct self as [sel sk ad vb buf sb jl jh0 jh rq rc out].
    cbn [_jsonheader_len _recv_buffer jsonheader sock set_recv_buffer] in *.
    split; [exact Hjl|]. split.
    { rewrite blen_app. pose proof (blen_nonneg buf'). lia. }
    split; [rewrite slice_to_longer by lia; exact Hdec|].
    split; [exact Hjh|]. split; [exact Hs|].
    intros more. rewrite <- app_assoc. reflexivity. }
  assert (forall rs', Forall benign rs' ->
          forall buf',
            after_reads rs'
              (set_recv_buffer (_recv_buffer self ++ buf') self)
            = set_recv_buffer (_recv_buffer self ++ buf' ++ delivered rs') self)
    as Hgo.
  { induction 1 as [|r rs' Hr _ IH]; intros buf'; cbn [after_reads].
    - cbn [delivered flat_map]. rewrite app_nil_r. reflexivity.
    - destruct (Hinv buf') as (I1 & I2 & I3 & I4 & I5 & I6).
      rewrite (read_stuck _ hdrlen e r I1 I2 I3 I4 I5 Hr). cbn [fst].
      rewrite I6, IH.
      cbn [delivered flat_map]. rewrite app_nil_r, <- !app_assoc.
      reflexivity. }
  assert (set_recv_buffer (_recv_buffer self ++ []) self = self) as Hself
    by (rewrite app_nil_r; destruct self; reflexivity).
  pose proof (Hgo rs Hrs []) as Hafter.
  rewrite Hself in Hafter. cbn [app] in Hafter.
  split; [exact Hafter|]. intros r Hr. rewrite Hafter.
  destruct (Hinv (delivered rs)) as (I1 & I2 & I3 & I4 & I5 & _).
  rewrite (read_stuck _ hdrlen e r I1 I2 I3 I4 I5 Hr). reflexivity.
Qed.

Lemma malformed_header_not_consumed_witness :
  let self :=
    set_recv_buffer (ascii_bytes (u "{]xx"))
      (set_jsonheader_len (Some 2) conn0) in
  process_jsonheader self = (self, inr JSONDecodeError) /\
  (jsonheader self = PNone -> sock self <> None -> 0 <= 2 ->
   forall rs, Forall benign rs ->
     after_reads rs self
     = set_recv_buffer (_recv_buffer self ++ delivered rs) self /\
     forall r, benign r ->
       snd (read r (after_reads rs self)) = inr JSONDecodeError).
Proof.
  apply (malformed_header_not_consumed
           (set_recv_buffer (ascii_bytes (u "{]xx"))
              (set_jsonheader_len (Some 2) conn0)) 2 JSONDecodeError).
  - reflexivity.
  - vm_compute. discriminate.
  - vm_compute. reflexivity.
Defined.

(** X4.  On a complete header span that decodes to a mapping, the header
    stage returns normally exactly when the mapping has the four required
    keys; it then stores the mapping and takes the span off the receive
    buffer.  Neither the values of the keys nor further keys are looked
    at. *)
Theorem header_accepted_iff_required_keys
        (self : t) (hdr rest : bytes) (d : list (pystr * pyval)) :
  _jsonheader_len self = Some (blen hdr) ->
  _recv_buffer self = hdr ++ rest ->
  _json_decode hdr (PStr (u "utf-8")) = inl (PDict d) ->
  (snd (process_jsonheader self) = inl tt <->
   forallb (dict_has d) required_headers = true) /\
  (forallb (dict_has d) required_headers = true ->
   process_jsonheader self
   = (set_recv_buffer rest (set_jsonheader (PDict d) self), inl tt)).
Proof.
  intros Hlen Hbuf Hdec.
  assert (forallb (dict_has d) required_headers = true ->
          process_jsonheader self
          = (set_recv_buffer rest (set_jsonheader (PDict d) self), inl tt))
    as Hok.
  { intros Hall.
    destruct self as [sel sk ad vb buf sb jl jh0 jh rq rc out].
    cbn [_jsonheader_len _recv_buffer] in Hlen, Hbuf. subst jl buf.
    unfold process_jsonheader. run.
    replace (blen hdr <=? blen (hdr ++ rest)) with true
      by (symmetry; apply Z.leb_le; rewrite blen_app;
          pose proof (blen_nonneg rest); lia).
    rewrite slice_to_app, slice_from_app, Hdec. run.
    rewrite (check_required_present d) by (reflexivity || exact Hall).
    reflexivity. }
  split; [|exact Hok]. split.
  - intros Hret.
    destruct (forallb (dict_has d) required_headers) eqn:E; [reflexivity|].
    destruct (process_jsonheader_missing self hdr rest d Hlen Hbuf Hdec E)
      as (k & _ & _ & Hp).
    rewrite Hp in Hret. discriminate.
  - intros Hall. rewrite (Hok Hall). reflexivity.
Qed.

Lemma plain_decode :
  _json_decode plain_header (PStr (u "utf-8")) = inl (PDict plain_dict).
Proof. vm_compute. reflexivity. Qed.

Lemma header_accepted_iff_required_keys_witness :
  let self :=
    set_recv_buffer (plain_header ++ plain_content)
      (set_jsonheader_len (Some (blen plain_header)) conn0) in
  (snd (process_jsonheader self) = inl tt <->
   forallb (dict_has plain_dict) required_headers = true) /\
  (forallb (dict_has plain_dict) required_headers = true ->
   process_jsonheader self
   = (set_recv_buffer plain_content
        (set_jsonheader (PDict plain_dict) self), inl tt)).
Proof.
  apply (header_accepted_iff_required_keys
           (set_recv_buffer (plain_header ++ plain_content)
              (set_jsonheader_len (Some (blen plain_header)) conn0))
           plain_header plain_content plain_dict).
  - reflexivity.
  - reflexivity.
  - exact plain_decode.
Defined.

Lemma check_required_outcome (h : pyval) (l : list pystr) (self : t) :
  jsonheader self = h ->
  (check_required l self = (self, inl tt) /\
   forall k, In k l -> contains h k = inl true) \/
  (exists k, In k l /\
     check_required l self = (self, inr (ValueError (Missing_required_header k))))
  \/ check_required l self = (self, inr TypeError).
Proof.
  intros Hj. destruct self as [sel sk ad vb buf sb jl jh0 jh rq rc out].
  cbn [jsonheader] in Hj. subst jh.
  induction l as [|k l IH]; cbn [check_required].
  - left. split; [reflexivity|]. intros k [].
  - run. destruct (contains h k) as [[|]|e] eqn:E; run.
    + destruct IH as [[H1 H2]|[(k' & Hin & H)|H]].
      * left. split; [exact H1|]. intros k' [<-|Hin]; [exact E|exact (H2 k' Hin)].
      * right. left. exists k'. split; [right; exact Hin|exact H].
      * right. right. exact H.
    + right. left. exists k. split; [left; reflexivity|reflexivity].
    + right. right. destruct h; cbn [contains] in E; inversion E; reflexivity.
Qed.

(** X5.  A header span that decodes to anything but a mapping is stored as
    the header and taken off the receive buffer like a mapping (for [null]
    the header attribute so stays [None]).  The header stage then raises
    [TypeError] (the value supports no [in]) or [ValueError] (a required
    name is not in it), or, for an array or string that holds the four
    required names, returns normally; in that last case the payload stage,
    applied to the connection it left, raises [TypeError] on the subscript
    and changes nothing. *)
Theorem non_mapping_header
        (self : t) (hdr rest : bytes) (h : pyval) :
  _jsonheader_len self = Some (blen hdr) ->
  _recv_buffer self = hdr ++ rest ->
  _json_decode hdr (PStr (u "utf-8")) = inl h ->
  (forall d, h <> PDict d) ->
  let stored := set_recv_buffer rest (set_jsonheader h self) in
  fst (process_jsonheader self) = stored /\
  (snd (process_jsonheader self) = inr TypeError \/
   (exists k,
      snd (process_jsonheader self)
      = inr (ValueError (Missing_required_header k))) \/
   (snd (process_jsonheader self) = inl tt /\ truthy h = true /\
    process_request stored = (stored, inr TypeError))).
Proof.
  intros Hlen Hbuf Hdec Hnd stored.
  assert (process_jsonheader self = check_required required_headers stored)
    as Hp.
  { unfold stored. destruct self as [sel sk ad vb buf sb jl jh0 jh rq rc out].
    cbn [_jsonheader_len _recv_buffer] in Hlen, Hbuf. subst jl buf.
    unfold process_jsonheader. run.
    replace (blen hdr <=? blen (hdr ++ rest)) with true
      by (symmetry; apply Z.leb_le; rewrite blen_app;
          pose proof (blen_nonneg rest); lia).
    rewrite slice_to_app, slice_from_app, Hdec. run. reflexivity. }
  rewrite Hp.
  assert (jsonheader stored = h) as Hj by (destruct self; reflexivity).
  destruct (check_required_outcome h required_headers stored Hj)
    as [[H1 H2]|[(k & _ & H)|H]]; rewrite ?H1, ?H; cbn [fst snd].
  - split; [reflexivity|]. right. right. split; [reflexivity|].
    pose proof (H2 (u "byteorder") (or_introl eq_refl)) as Hc.
    assert (truthy h = true) as Ht.
    { destruct h as [| | | |s| |l|d]; cbn [contains] in Hc; try discriminate.
      - destruct s; [discriminate|reflexivity].
      - destruct l; [discriminate|reflexivity].
      - exfalso. exact (Hnd d eq_refl). }
    split; [exact Ht|].
    unfold stored. destruct self as [sel sk ad vb buf sb jl jh0 jh rq rc out].
    unfold process_request. run.
    destruct h; try reflexivity. exfalso. exact (Hnd _ eq_refl).
  - split; [reflexivity|]. right. left. exists k. reflexivity.
  - split; [reflexivity|]. left. reflexivity.
Qed.

Lemma non_mapping_header_witness :
  let self :=
    set_recv_buffer (array_header ++ plain_content)
      (set_jsonheader_len (Some (blen array_header)) conn0) in
  let stored :=
    set_recv_buffer plain_content (set_jsonheader array_value self) in
  fst (process_jsonheader self) = stored /\
  (snd (process_jsonheader self) = inr TypeError \/
   (exists k,
      snd (process_jsonheader self)
      = inr (ValueError (Missing_required_header k))) \/
   (snd (process_jsonheader self) = inl tt /\ truthy array_value = true /\
    process_request stored = (stored, inr TypeError))).
Proof.
  apply (non_mapping_header
           (set_recv_buffer (array_header ++ plain_content)
              (set_jsonheader_len (Some (blen array_header)) conn0))
           array_header plain_content array_value).
  - reflexivity.
  - reflexivity.
  - vm_compute. reflexivity.
  - discriminate.
Defined.

(** ** [process_request] *)

Lemma process_request_recv_buffer :
  preserves _recv_buffer process_request.
Proof.
  unfold process_request, _set_selector_events_mask, print.
  FrameFacts.frame.
Qed.

(** X6.  The payload stage never takes the payload off the receive buffer:
    [process_request] leaves the buffer as it is, and after one read event
    has delivered a whole wire message to a fresh connection the buffer
    holds exactly the content bytes. *)
Theorem payload_stays_buffered
        (sel : Selectors.selector) (fd : Z) (ad : pyval) (vb : bool)
        (hdr content : bytes) (d : list (pystr * pyval)) :
  wire_message hdr content d ->
  (forall self, _recv_buffer (fst (process_request self)) = _recv_buffer self)
  /\
  _recv_buffer
    (fst (read (Recv (wire hdr content)) (__init__ sel (Some fd) ad vb)))
  = content.
Proof.
  intros Hw. split; [exact process_request_recv_buffer|].
  rewrite read_recv by discriminate.
  change (set_recv_buffer _ _)
    with (mk sel (Some fd) ad vb (prefix (blen hdr) ++ hdr ++ content) []
             None PNone PNone PNone false []).
  rewrite stages_length_long
    by (pose proof (wm_length _ _ _ Hw); pose proof (blen_nonneg hdr); lia).
  rewrite (stages_header_long _ _ _ _ _ _ _ _ hdr content d Hw).
  rewrite (stages_payload _ _ _ _ _ _ _ _ hdr content d Hw).
  rewrite process_request_recv_buffer. reflexivity.
Qed.

Lemma payload_stays_buffered_witness :
  (forall self, _recv_buffer (fst (process_request self)) = _recv_buffer self)
  /\
  _recv_buffer (fst (read (Recv (wire plain_header plain_content)) conn0))
  = plain_content.
Proof.
  apply (payload_stays_buffered [(7, Selectors.EVENT_READ)] 7
           (PStr (u "peer")) false plain_header plain_content plain_dict).
  constructor; vm_compute; try reflexivity. discriminate.
Defined.

(** X7.  While fewer bytes are buffered than an integer content length asks
    for, the payload stage returns without any change to the connection. *)
Theorem payload_stage_waits
        (self : t) (d : list (pystr * pyval)) (n : Z) :
  jsonheader self = PDict d ->
  dict_get d (u "content-length") = Some (PInt n) ->
  blen (_recv_buffer self) < n ->
  process_request self = (self, inl tt).
Proof.
  intros Hj Hlen Hshort.
  destruct self as [sel sk ad vb buf sb jl jh0 jh rq rc out].
  cbn [jsonheader _recv_buffer] in *. subst jh.
  unfold process_request. run. cbn [subscript].
  rewrite Hlen. run. cbn [int_ge]. run.
  replace (n <=? blen buf) with false by (symmetry; apply Z.leb_gt; lia).
  reflexivity.
Qed.

Lemma payload_stage_waits_witness :
  let waiting :=
    set_recv_buffer (ascii_bytes (u "h"))
      (set_jsonheader (PDict plain_dict) conn0) in
  process_request waiting = (waiting, inl tt).
Proof.
  apply (payload_stage_waits
           (set_recv_buffer (ascii_bytes (u "h"))
              (set_jsonheader (PDict plain_dict) conn0)) plain_dict 2);
    reflexivity.
Defined.



(** The decoders raise within the embedding. *)





(** ** Once the request is set *)

Lemma write_parsed (byteorder : Sys.endianness) (w : send_outcome)
      (c : close_outcome) : preserves parsed (write byteorder w c).
Proof.
  unfold write, create_response, _write, close, print. FrameFacts.frame.
Qed.

Lemma close_parsed (c : close_outcome) : preserves parsed (close c).
Proof. unfold close, print. FrameFacts.frame. Qed.

Lemma stages_settled (self : t) :
  _jsonheader_len self <> None ->
  is_none (jsonheader self) = false ->
  is_none (request self) = false ->
  stages self = (self, inl tt).
Proof.
  destruct self as [sel sk ad vb buf sb [L|] jh0 jh rq rc out];
    cbn [_jsonheader_len jsonheader request]; [|contradiction].
  intros _ Hj Hr.
  destruct jh; try discriminate; destruct rq; try discriminate;
    unfold stages; run;
    try match goal with
        | |- context [truthy ?x] => destruct (truthy x)
        end; reflexivity.
Qed.

Lemma read_parsed (r : recv_outcome) (self : t) :
  _jsonheader_len self <> None ->
  is_none (jsonheader self) = false ->
  is_none (request self) = false ->
  parsed (fst (read r self)) = parsed self.
Proof.
  intros Hl Hj Hr. rewrite read_stages. unfold bind.
  destruct (_read r self) as [s1 [[]|e]] eqn:E.
  - assert (parsed s1 = parsed self /\ _jsonheader_len s1 <> None /\
            is_none (jsonheader s1) = false /\ is_none (request s1) = false)
      as (Hp & Hl1 & Hj1 & Hr1).
    { destruct self as [sel sk ad vb buf sb jl jh0 jh rq rc out].
      unfold _read in E. revert E. run.
      destruct sk as [fd|]; [|discriminate].
      destruct r as [[|b data]| |]; run; intros E; inversion E; subst;
        repeat split; assumption. }
    rewrite (stages_settled s1 Hl1 Hj1 Hr1). exact Hp.
  - destruct self as [sel sk ad vb buf sb jl jh0 jh rq rc out].
    unfold _read in E. revert E. run.
    destruct sk as [fd|]; [|intros E; inversion E; reflexivity].
    destruct r as [[|b data]| |]; run; intros E; inversion E; reflexivity.
Qed.

(** X10.  The parsed fields are written once: when the header length, the
    header and the request are set (not [None]), no sequence of read, write
    and close events changes any of them. *)
Theorem parsed_fields_final
        (byteorder : Sys.endianness) (es : list event) (self : t) :
  _jsonheader_len self <> None ->
  is_none (jsonheader self) = false ->
  is_none (request self) = false ->
  parsed (drive byteorder es self) = parsed self.
Proof.
  revert self. induction es as [|e es IH]; intros self Hl Hj Hr; cbn [drive].
  - reflexivity.
  - assert (parsed (fst (handle byteorder e self)) = parsed self) as Hstep.
    { destruct e as [mask r w c|c]; cbn [handle].
      - unfold process_events, bind.
        destruct (negb (Z.land mask Selectors.EVENT_READ =? 0)); cbn [when].
        + pose proof (read_parsed r self Hl Hj Hr) as Hrd.
          destruct (read r self) as [s1 [[]|e]]; cbn [fst] in *;
            [|exact Hrd].
          destruct (negb (Z.land mask Selectors.EVENT_WRITE =? 0)); cbn [when].
          * rewrite write_parsed. exact Hrd.
          * exact Hrd.
        + cbn [ret].
          destruct (negb (Z.land mask Selectors.EVENT_WRITE =? 0)); cbn [when].
          * apply write_parsed.
          * reflexivity.
      - apply close_parsed. }
    rewrite IH.
    + exact Hstep.
    + unfold parsed in Hstep. injection Hstep as H1 H2 H3. rewrite H1. exact Hl.
    + unfold parsed in Hstep. injection Hstep as H1 H2 H3. rewrite H2. exact Hj.
    + unfold parsed in Hstep. injection Hstep as H1 H2 H3. rewrite H3. exact Hr.
Qed.

Lemma parsed_fields_final_witness :
  let self := fst (read (Recv (wire plain_header plain_content)) conn0) in
  parsed
    (drive Sys.little
       [ On_events 1 (Recv plain_content) (Sent 0) Closed;
         On_events 3 Recv_BlockingIOError Send_BlockingIOError Closed;
         On_close Closed ] self)
  = parsed self.
Proof.
  apply (parsed_fields_final Sys.little
           [ On_events 1 (Recv plain_content) (Sent 0) Closed;
             On_events 3 Recv_BlockingIOError Send_BlockingIOError Closed;
             On_close Closed ]
           (fst (read (Recv (wire plain_header plain_content)) conn0)));
    vm_compute; (discriminate || reflexivity).
Defined.

(** ** The receive buffer *)

Module TailFacts.

Lemma tail_of_refl (self : t) : tail_of self self.
Proof. exists 0%nat. reflexivity. Qed.

Lemma tail_of_trans (a b c : t) : tail_of a b -> tail_of b c -> tail_of a c.
Proof.
  intros [k Hk] [k' Hk']. exists (k' + k)%nat.
  rewrite Hk', Hk. apply skipn_skipn.
Qed.

Lemma slice_from_skipn (b : bytes) (n : Z) : exists k, slice_from b n = skipn k b.
Proof. unfold slice_from. destruct (0 <=? n); eexists; reflexivity. Qed.

Lemma keeps_bind {A B} (R : t -> t -> Prop) (m : M A) (k : A -> M B) :
  (forall a b c, R a b -> R b c -> R a c) ->
  keeps R m -> (forall a, keeps R (k a)) -> keeps R (bind m k).
Proof.
  intros Htrans Hm Hk self. unfold bind. specialize (Hm self).
  destruct (m self) as [s [a|e]]; cbn [fst] in *.
  - exact (Htrans _ _ _ Hm (Hk a s)).
  - exact Hm.
Qed.

Lemma keeps_when (R : t -> t -> Prop) (b : bool) (m : M unit) :
  (forall a, R a a) -> keeps R m -> keeps R (when b m).
Proof. intros Hrefl H. destruct b; [exact H|intros self; apply Hrefl]. Qed.

Lemma keeps_get (R : t -> t -> Prop) :
  (forall a, R a a) -> keeps R get.
Proof. intros Hrefl self. apply Hrefl. Qed.

Lemma process_protoheader_tail : keeps tail_of process_protoheader.
Proof.
  intros [sel sk ad vb buf sb jl jh0 jh rq rc out].
  unfold process_protoheader. run.
  destruct (2 <=? blen buf); [|apply tail_of_refl].
  destruct (Struct.unpack_H (slice_to buf 2)); run; [|apply tail_of_refl].
  apply slice_from_skipn.
Qed.

Lemma check_required_same (l : list pystr) (self : t) :
  fst (check_required l self) = self.
Proof.
  destruct self as [sel sk ad vb buf sb jl jh0 jh rq rc out].
  induction l as [|k l IH]; cbn [check_required]; [reflexivity|].
  run. destruct (contains jh k) as [[|]|e]; run; [exact IH| |]; reflexivity.
Qed.

Lemma process_jsonheader_tail : keeps tail_of process_jsonheader.
Proof.
  intros [sel sk ad vb buf sb jl jh0 jh rq rc out].
  unfold process_jsonheader. run.
  destruct jl as [L|]; [|apply tail_of_refl].
  destruct (L <=? blen buf); [|apply tail_of_refl].
  destruct (_json_decode (slice_to buf L) (PStr (u "utf-8"))) as [h|e]; run;
    [|apply tail_of_refl].
  match goal with
  | |- tail_of _ (let (x, _) := check_required ?l ?s in x) =>
      change (tail_of (mk sel sk ad vb buf sb (Some L) jh0 jh rq rc out)
                      (fst (check_required l s)));
      rewrite (check_required_same l s)
  end.
  apply slice_from_skipn.
Qed.

Lemma process_request_tail : keeps tail_of process_request.
Proof.
  intros self. exists 0%nat. apply process_request_recv_buffer.
Qed.

Lemma stages_tail : keeps tail_of stages.
Proof.
  unfold stages.
  repeat first
    [ exact process_protoheader_tail
    | exact process_jsonheader_tail
    | exact process_request_tail
    | apply keeps_get; exact tail_of_refl
    | apply keeps_when; [exact tail_of_refl|]
    | apply keeps_bind; [exact tail_of_trans| |intros ?] ].
Qed.

End TailFacts.

(** X11.  A read event only appends what [recv] returned to the receive
    buffer and takes bytes off its head: afterwards the buffer is a tail of
    the old buffer followed by the received data, whatever the stages did
    and whether or not they raised. *)
Theorem receive_buffer_is_consumed_from_head
        (self : t) (fd : Z) (data : bytes) :
  sock self = Some fd ->
  exists k,
    _recv_buffer (fst (read (Recv data) self))
    = skipn k (_recv_buffer self ++ data).
Proof.
  intros Hs. destruct data as [|b data].
  - exists 0%nat. destruct self as [sel sk ad vb buf sb jl jh0 jh rq rc out].
    cbn [sock] in Hs. subst sk. rewrite read_stages. unfold _read. run.
    cbn [skipn]. symmetry. apply app_nil_r.
  - rewrite read_recv by (rewrite Hs || idtac; discriminate).
    destruct (TailFacts.stages_tail
                (set_recv_buffer (_recv_buffer self ++ b :: data) self))
      as [k Hk].
    exists k. rewrite Hk. destruct self. reflexivity.
Qed.

Lemma receive_buffer_is_consumed_from_head_witness :
  exists k,
    _recv_buffer (fst (read (Recv (wire plain_header plain_content)) conn0))
    = skipn k (_recv_buffer conn0 ++ wire plain_header plain_content).
Proof.
  apply (receive_buffer_is_consumed_from_head conn0 7). reflexivity.
Defined.

(** ** [_write] and [close] *)

(** X12.  A send on an open socket takes the sent bytes off the head of a
    non-empty send buffer and returns normally; the connection is closed by
    it exactly when the buffer is drained.  A send that would block changes
    neither the buffer nor the socket. *)
Theorem write_closes_exactly_when_drained
        (self : t) (fd : Z) (sent : nat) (c : close_outcome) :
  sock self = Some fd ->
  _send_buffer self <> [] ->
  let after := _write (Sent sent) c self in
  snd after = inl tt /\
  _send_buffer (fst after) = skipn sent (_send_buffer self) /\
  (sock (fst after) = None <-> (length (_send_buffer self) <= sent)%nat) /\
  (sock (fst after) <> None -> sock (fst after) = Some fd /\
                               selector (fst after) = selector self) /\
  _send_buffer (fst (_write Send_BlockingIOError c self)) = _send_buffer self /\
  sock (fst (_write Send_BlockingIOError c self)) = Some fd.
Proof.
  destruct self as [sel sk ad vb buf sb jl jh0 jh rq rc out].
  cbn [sock _send_buffer]. intros -> Hne.
  destruct sb as [|b sb]; [contradiction|]. cbv zeta.
  assert (_send_buffer (fst (_write Send_BlockingIOError c
            (mk sel (Some fd) ad vb buf (b :: sb) jl jh0 jh rq rc out)))
          = b :: sb /\
          sock (fst (_write Send_BlockingIOError c
            (mk sel (Some fd) ad vb buf (b :: sb) jl jh0 jh rq rc out)))
          = Some fd) as Hblock.
  { unfold _write. run. destruct vb; split; reflexivity. }
  destruct (le_lt_dec (length (b :: sb)) sent) as [Hall|Hpart].
  - destruct (write_drained
                (mk sel (Some fd) ad vb buf (b :: sb) jl jh0 jh rq rc out)
                fd b sb sent c eq_refl eq_refl Hall) as (s1 & Hw & Hs1 & Hb1).
    destruct (close_open s1 fd c Hs1) as (s2 & Hc & Hs2 & Hb2).
    rewrite Hw, Hc. cbn [fst snd]. split; [reflexivity|].
    split; [rewrite Hb2, Hb1; symmetry; apply skipn_all2; exact Hall|].
    split; [split; intros _; assumption|].
    split; [intros H; contradiction|exact Hblock].
  - assert (skipn sent (b :: sb) <> []) as Hrest.
    { intros H. apply (f_equal (@length byte)) in H.
      rewrite length_skipn in H. cbn [length] in *. lia. }
    unfold _write. run.
    destruct vb; run; destruct sent as [|n]; cbn [skipn];
      try (split; [reflexivity|]; split; [reflexivity|];
           split; [split; [discriminate|cbn [length]; lia]|];
           split; [intros _; split; reflexivity|exact Hblock]).
    all: destruct (skipn n sb) eqn:E;
      [exfalso; apply Hrest; cbn [skipn]; exact E|].
    all: split; [reflexivity|]; split; [reflexivity|];
      split; [split; [discriminate|intros H; cbn [length] in *; lia]|];
      split; [intros _; split; reflexivity|exact Hblock].
Qed.

Lemma write_closes_exactly_when_drained_witness :
  let self := set_send_buffer (ascii_bytes (u "hello")) conn0 in
  let after := _write (Sent 2) Closed self in
  snd after = inl tt /\
  _send_buffer (fst after) = skipn 2 (_send_buffer self) /\
  (sock (fst after) = None <-> (length (_send_buffer self) <= 2)%nat) /\
  (sock (fst after) <> None -> sock (fst after) = Some 7 /\
                               selector (fst after) = selector self) /\
  _send_buffer (fst (_write Send_BlockingIOError Closed self))
  = _send_buffer self /\
  sock (fst (_write Send_BlockingIOError Closed self)) = Some 7.
Proof.
  apply (write_closes_exactly_when_drained
           (set_send_buffer (ascii_bytes (u "hello")) conn0) 7 2 Closed).
  - reflexivity.
  - vm_compute. discriminate.
Defined.

(** X13.  [close] on an open connection always returns normally, whether or
    not the socket is registered and whatever [sock.close] does.  It leaves
    the socket attribute [None], removes the socket's registration (given a
    registry with one key per socket) and no other, and keeps the buffers
    and the parsed fields. *)
Theorem close_open_connection (self : t) (fd : Z) (c : close_outcome) :
  sock self = Some fd ->
  let after := close c self in
  snd after = inl tt /\
  sock (fst after) = None /\
  (NoDup (map fst (selector self)) ->
   Selectors.get_key (selector (fst after)) fd = None) /\
  (forall fd', fd' <> fd ->
     Selectors.get_key (selector (fst after)) fd'
     = Selectors.get_key (selector self) fd') /\
  _recv_buffer (fst after) = _recv_buffer self /\
  outbound (fst after) = outbound self /\
  parsed (fst after) = parsed self.
Proof.
  destruct self as [sel sk ad vb buf sb jl jh0 jh rq rc out].
  cbn [sock]. intros ->. cbv zeta. unfold close. run.
  cbn [Selectors.unregister].
  destruct (Selectors.get_key sel fd) as [ev|] eqn:Hkey.
  - destruct vb, c; run; cbn [selector];
      (split; [reflexivity|]; split; [reflexivity|];
       split; [apply get_del_key_same|];
       split; [intros fd' Hne; apply get_del_key_other; exact Hne|];
       repeat split).
  - destruct vb, c; run; cbn [selector];
      (split; [reflexivity|]; split; [reflexivity|];
       split; [intros _; exact Hkey|];
       split; [reflexivity|]; repeat split).
Qed.

Lemma close_open_connection_witness :
  let after := close Close_OSError conn0 in
  snd after = inl tt /\
  sock (fst after) = None /\
  (NoDup (map fst (selector conn0)) ->
   Selectors.get_key (selector (fst after)) 7 = None) /\
  (forall fd', fd' <> 7 ->
     Selectors.get_key (selector (fst after)) fd'
     = Selectors.get_key (selector conn0) fd') /\
  _recv_buffer (fst after) = _recv_buffer conn0 /\
  outbound (fst after) = outbound conn0 /\
  parsed (fst after) = parsed conn0.
Proof.
  apply (close_open_connection conn0 7 Close_OSError). reflexivity.
Defined.

(** ** [create_response] and [_create_message] *)

(** X14.  [create_response] is all or nothing.  Either it raises and leaves
    the connection exactly as it was, or it returns, having appended one
    message to the send buffer and set the flag, with nothing else
    changed. *)
Theorem create_response_all_or_nothing
        (byteorder : Sys.endianness) (self : t) :
  (exists e, create_response byteorder self = (self, inr e)) \/
  (exists msg,
     create_response byteorder self
     = (set_send_buffer (_send_buffer self ++ msg)
          (set_response_created true self), inl tt)).
Proof.
  destruct self as [sel sk ad vb buf sb jl jh0 jh rq rc out].
  unfold create_response. run.
  destruct (subscript jh (u "content-type")) as [ct|e]; run;
    [|left; eexists; reflexivity].
  destruct (eq_str ct (u "text/json")); run.
  - destruct _create_response_json_content as [resp|e]; run;
      [|left; eexists; reflexivity].
    destruct (_create_message byteorder resp) as [msg|e]; run;
      [right; exists msg; reflexivity|left; eexists; reflexivity].
  - destruct (_create_message byteorder _create_empty_response_content)
      as [msg|e]; run;
      [right; exists msg; reflexivity|left; eexists; reflexivity].
Qed.

(** X15.  The builder returns only for content that is a [bytes] object,
    and what it returns is laid out as two bytes holding the length of the
    encoded header (at most 65535) in big-endian order, the encoded header,
    and the content: its length is the sum of the three. *)
Theorem create_message_layout
        (byteorder : Sys.endianness) (r : response) (msg : bytes) :
  _create_message byteorder r = inl msg ->
  exists hdr content,
    content_bytes r = PBytes content /\
    _json_encode
      (PDict [ (u "byteorder", PStr (Sys.name byteorder));
               (u "content-type", content_type r);
               (u "content-encoding", content_encoding r);
               (u "content-length", PInt (blen content)) ]) (u "utf-8")
    = inl hdr /\
    blen hdr <= 65535 /\
    msg = [b8 (blen hdr / 256); b8 (blen hdr mod 256)] ++ hdr ++ content /\
    Struct.unpack_H (firstn 2 msg) = inl (blen hdr) /\
    blen msg = 2 + blen hdr + blen content.
Proof.
  unfold _create_message. intros H.
  destruct (content_bytes r) as [| | | |s|content|l|d];
    cbn [len rbind] in H; try discriminate;
    try (destruct (_json_encode _ _) as [hdr|e]; cbn [rbind] in H;
         [|discriminate];
         destruct (Struct.pack_H (blen hdr)); cbn [rbind] in H; discriminate).
  destruct (_json_encode _ _) as [hdr|e] eqn:Henc; cbn [rbind] in H;
    [|discriminate].
  unfold Struct.pack_H in H.
  destruct ((0 <=? blen hdr) && (blen hdr <=? 65535)) eqn:E;
    cbn [rbind] in H; [|discriminate].
  inversion H; subst msg. clear H.
  apply andb_prop in E. destruct E as [_ E]. apply Z.leb_le in E.
  exists hdr, content. split; [reflexivity|]. split; [exact Henc|].
  split; [exact E|]. split; [reflexivity|]. split.
  - cbn [app firstn]. change ([b8 (blen hdr / 256); b8 (blen hdr mod 256)])
      with (prefix (blen hdr)).
    apply unpack_prefix. pose proof (blen_nonneg hdr). lia.
  - unfold blen. cbn [app length]. rewrite length_app. lia.
Qed.

Lemma create_message_layout_witness :
  exists hdr content,
    content_bytes json_response = PBytes content /\
    _json_encode
      (PDict [ (u "byteorder", PStr (Sys.name Sys.little));
               (u "content-type", content_type json_response);
               (u "content-encoding", content_encoding json_response);
               (u "content-length", PInt (blen content)) ]) (u "utf-8")
    = inl hdr /\
    blen hdr <= 65535 /\
    wire (ascii_bytes (jq "{'byteorder': 'little', 'content-type': 'text/json', 'content-encoding': 'utf-8', 'content-length': 13}"))
         (ascii_bytes (jq "{'result': 1}"))
    = [b8 (blen hdr / 256); b8 (blen hdr mod 256)] ++ hdr ++ content /\
    Struct.unpack_H
      (firstn 2
         (wire (ascii_bytes (jq "{'byteorder': 'little', 'content-type': 'text/json', 'content-encoding': 'utf-8', 'content-length': 13}"))
               (ascii_bytes (jq "{'result': 1}"))))
    = inl (blen hdr) /\
    blen (wire (ascii_bytes (jq "{'byteorder': 'little', 'content-type': 'text/json', 'content-encoding': 'utf-8', 'content-length': 13}"))
               (ascii_bytes (jq "{'result': 1}")))
    = 2 + blen hdr + blen content.
Proof.
  apply (create_message_layout Sys.little json_response).
  vm_compute. reflexivity.
Defined.

(** ** The registry *)

Module RegistryFacts.
Import TailFacts.

Section Others.

Variable fd : Z.

Lemma others_kept_refl (self : t) : others_kept fd self self.
Proof. intros H. split; [exact H|reflexivity]. Qed.

Lemma others_kept_trans (a b c : t) :
  others_kept fd a b -> others_kept fd b c -> others_kept fd a c.
Proof.
  intros Hab Hbc Ha. destruct (Hab Ha) as [Hb H1].
  destruct (Hbc Hb) as [Hc H2]. split; [exact Hc|].
  intros fd' Hne. rewrite (H2 fd' Hne). exact (H1 fd' Hne).
Qed.

Lemma keeps_of_preserves {A} (m : M A) :
  preserves (fun self => (sock self, selector self)) m ->
  keeps (others_kept fd) m.
Proof.
  intros H self Hown. specialize (H self). injection H as H1 H2.
  unfold own_socket in *. rewrite H1, H2. split; [exact Hown|reflexivity].
Qed.

Lemma keeps_if {A} (R : t -> t -> Prop) (b : bool) (m1 m2 : M A) :
  keeps R m1 -> keeps R m2 -> keeps R (if b then m1 else m2).
Proof. intros H1 H2. destruct b; assumption. Qed.

Lemma set_selector_events_mask_others (mode : pystr) :
  keeps (others_kept fd) (_set_selector_events_mask mode).
Proof.
  intros [sel sk ad vb buf sb jl jh0 jh rq rc out] Hown.
  assert (forall ev,
            others_kept fd
              (mk sel sk ad vb buf sb jl jh0 jh rq rc out)
              (fst (bind (lift (Selectors.modify sel sk ev))
                         (fun s => update (set_selector s))
                         (mk sel sk ad vb buf sb jl jh0 jh rq rc out))))
    as Hmod.
  { intros ev _. unfold Selectors.modify.
    destruct Hown as [Hs|Hs]; cbn [sock] in Hs; subst sk; run.
    - destruct (Selectors.get_key sel fd); run;
        (split; [left; reflexivity|]); [|reflexivity].
      intros fd' Hne. apply MoreFacts.get_set_key_other. exact Hne.
    - split; [right; reflexivity|reflexivity]. }
  unfold _set_selector_events_mask.
  destruct (pystr_eqb mode (u "r")); [exact (Hmod _ Hown)|].
  destruct (pystr_eqb mode (u "w")); [exact (Hmod _ Hown)|].
  destruct (pystr_eqb mode (u "rw")); [exact (Hmod _ Hown)|].
  run. split; [exact Hown|reflexivity].
Qed.

Lemma close_others (c : close_outcome) : keeps (others_kept fd) (close c).
Proof.
  intros [sel sk ad vb buf sb jl jh0 jh rq rc out] Hown.
  unfold close, Selectors.unregister. run.
  destruct Hown as [Hs|Hs]; cbn [sock] in Hs; subst sk.
  - destruct vb, (Selectors.get_key sel fd), c; run;
      (split; [right; reflexivity|]); try reflexivity;
      intros fd' Hne; apply MoreFacts.get_del_key_other; exact Hne.
  - destruct vb; run; (split; [right; reflexivity|reflexivity]).
Qed.

(** Decomposes a method down to the two that touch the registry. *)
Ltac others :=
  repeat first
    [ exact (set_selector_events_mask_others _)
    | exact (close_others _)
    | apply keeps_of_preserves; unfold print; FrameFacts.frame; fail
    | apply keeps_get; exact others_kept_refl
    | apply keeps_when; [exact others_kept_refl|]
    | apply keeps_if
    | apply keeps_bind; [exact others_kept_trans| |intros ?]
    | match goal with
      | |- keeps _ (match ?x with _ => _ end) => destruct x
      end ].

Lemma read_others (r : recv_outcome) : keeps (others_kept fd) (read r).
Proof.
  unfold read.
  apply keeps_bind; [exact others_kept_trans| |intros ?].
  { apply keeps_of_preserves. unfold _read. FrameFacts.frame. }
  apply keeps_bind; [exact others_kept_trans| |intros ?].
  { apply keeps_get. exact others_kept_refl. }
  apply keeps_bind; [exact others_kept_trans| |intros ?].
  { apply keeps_of_preserves. unfold process_protoheader. FrameFacts.frame. }
  apply keeps_bind; [exact others_kept_trans| |intros ?].
  { apply keeps_get. exact others_kept_refl. }
  apply keeps_bind; [exact others_kept_trans| |intros ?].
  { apply keeps_of_preserves. unfold process_jsonheader. FrameFacts.frame. }
  apply keeps_bind; [exact others_kept_trans| |intros ?].
  { apply keeps_get. exact others_kept_refl. }
  apply keeps_when; [exact others_kept_refl|].
  apply keeps_when; [exact others_kept_refl|].
  unfold process_request. others.
Qed.

Lemma write_others (byteorder : Sys.endianness) (w : send_outcome)
      (c : close_outcome) :
  keeps (others_kept fd) (write byteorder w c).
Proof.
  unfold write.
  apply keeps_bind; [exact others_kept_trans| |intros ?].
  { apply keeps_get. exact others_kept_refl. }
  apply keeps_bind; [exact others_kept_trans| |intros ?].
  { apply keeps_of_preserves. unfold create_response. FrameFacts.frame. }
  unfold _write. others.
Qed.

Lemma handle_others (byteorder : Sys.endianness) (e : event) :
  keeps (others_kept fd) (handle byteorder e).
Proof.
  destruct e as [mask r w c|c]; cbn [handle].
  - unfold process_events.
    apply keeps_bind; [exact others_kept_trans| |intros ?];
      (apply keeps_when; [exact others_kept_refl|]).
    + apply read_others.
    + apply write_others.
  - apply close_others.
Qed.

Lemma drive_others (byteorder : Sys.endianness) (es : list event) :
  forall self, others_kept fd self (drive byteorder es self).
Proof.
  induction es as [|e es IH]; intros self; cbn [drive].
  - apply others_kept_refl.
  - exact (others_kept_trans _ _ _ (handle_others byteorder e self) (IH _)).
Qed.

End Others.

End RegistryFacts.

(** X16.  A connection only ever touches the registration of its own
    socket: whatever events it handles, the event mask of every other
    socket in the selector is what it was, and its socket attribute stays
    that socket or [None]. *)
Theorem other_registrations_untouched
        (byteorder : Sys.endianness) (es : list event) (self : t)
        (fd fd' : Z) :
  sock self = Some fd ->
  fd' <> fd ->
  Selectors.get_key (selector (drive byteorder es self)) fd'
  = Selectors.get_key (selector self) fd' /\
  (sock (drive byteorder es self) = Some fd \/
   sock (drive byteorder es self) = None).
Proof.
  intros Hs Hne.
  destruct (RegistryFacts.drive_others fd byteorder es self (or_introl Hs))
    as [Hown H].
  split; [exact (H fd' Hne)|exact Hown].
Qed.

Lemma other_registrations_untouched_witness :
  let self :=
    __init__ [(7, Selectors.EVENT_READ); (9, Selectors.EVENT_WRITE)]
             (Some 7) (PStr (u "peer")) false in
  let es :=
    [ On_events 1 (Recv (wire plain_header plain_content)) (Sent 0) Closed;
      On_events 2 Recv_BlockingIOError (Sent 5) Closed;
      On_close Closed ] in
  Selectors.get_key (selector (drive Sys.little es self)) 9
  = Selectors.get_key (selector self) 9 /\
  (sock (drive Sys.little es self) = Some 7 \/
   sock (drive Sys.little es self) = None).
Proof.
  apply (other_registrations_untouched Sys.little
           [ On_events 1 (Recv (wire plain_header plain_content)) (Sent 0)
                       Closed;
             On_events 2 Recv_BlockingIOError (Sent 5) Closed;
             On_close Closed ]
           (__init__ [(7, Selectors.EVENT_READ); (9, Selectors.EVENT_WRITE)]
                     (Some 7) (PStr (u "peer")) false) 7 9).
  - reflexivity.
  - discriminate.
Defined.

(** ** Spurious wake-ups *)

Module SpuriousFacts.

Lemma read_blocked (self : t) :
  sock self <> None -> read Recv_BlockingIOError self = stages self.
Proof.
  intros Hs. rewrite read_stages.
  destruct self as [? [k|] ? ? ? ? ? ? ? ? ? ?]; [|contradiction].
  unfold _read. run. reflexivity.
Qed.

Section Parked.

Variables (sel : Selectors.selector) (fd : Z) (ad : pyval) (vb : bool)
          (sb : bytes) (jh0 : pyval) (rc : bool) (out : list printed).
Variables (hdr content : bytes) (d : list (pystr * pyval)).
Hypothesis frame : wire_message hdr content d.

Local Abbreviation st0 B :=
  (mk sel (Some fd) ad vb B sb None jh0 PNone PNone rc out).

(** After a strict part of the message the connection is parked: the stages
    find nothing to do. *)
Lemma parked (X chunk Y : bytes) (cX : t) :
  X ++ chunk ++ Y = wire hdr content -> chunk <> [] ->
  stages (st0 X) = (cX, inl tt) ->
  stages cX = (cX, inl tt).
Proof.
  intros HM Hch HX. unfold wire in HM.
  pose proof (wm_length _ _ _ frame) as HL. pose proof (blen_nonneg hdr) as HL0.
  assert (0 < blen chunk) as Hpos
    by (destruct chunk; [contradiction|unfold blen; cbn [length]; lia]).
  destruct (Z_lt_ge_dec (blen X) 2) as [H2|H2].
  { rewrite stages_length_short in HX by exact H2.
    inversion HX; subst cX. apply stages_length_short. exact H2. }
  destruct (split_at _ X (chunk ++ Y) (prefix (blen hdr)) (hdr ++ content) HM)
    as (X1 & -> & HM1).
  { unfold blen in H2. cbn [prefix length]. lia. }
  rewrite stages_length_long in HX by lia.
  destruct (Z_lt_ge_dec (blen X1) (blen hdr)) as [H3|H3].
  { rewrite stages_header_short in HX by exact H3.
    inversion HX; subst cX. apply stages_header_short. exact H3. }
  symmetry in HM1.
  destruct (split_at _ X1 (chunk ++ Y) hdr content HM1) as (X2 & -> & HM2).
  { unfold blen in H3. lia. }
  assert (blen X2 < blen content) as Hshort.
  { rewrite HM2, !blen_app. pose proof (blen_nonneg Y). lia. }
  rewrite (stages_header_long _ _ _ _ _ _ _ _ hdr content d frame) in HX.
  rewrite (stages_payload_short _ _ _ _ _ _ _ _ hdr content d frame) in HX
    by exact Hshort.
  inversion HX; subst cX.
  apply (stages_payload_short _ _ _ _ _ _ _ _ hdr content d frame).
  exact Hshort.
Qed.

Lemma feed_outcomes_from (rs : list recv_outcome) :
  forall X cX d0,
    Forall benign (rs ++ [Recv d0]) -> d0 <> [] ->
    X ++ delivered (rs ++ [Recv d0]) = wire hdr content ->
    stages (st0 X) = (cX, inl tt) ->
    feed_outcomes (rs ++ [Recv d0]) cX = stages (st0 (wire hdr content)).
Proof.
  induction rs as [|r rs IH]; intros X cX d0 Hben Hd0 HM HX.
  - cbn [app delivered flat_map] in *. rewrite app_nil_r in HM.
    destruct (absorb sel fd ad vb sb jh0 rc out hdr content d frame
                X d0 [] ) as (c & Hc & Hsock & Hstep).
    { rewrite app_nil_r. exact HM. }
    { exact Hd0. }
    rewrite HX in Hc. inversion Hc; subst c.
    cbn [feed_outcomes]. rewrite bind_ret_tt, read_recv by assumption.
    rewrite Hstep, HM. reflexivity.
  - cbn [app] in *. pose proof (Forall_inv Hben) as Hr.
    pose proof (Forall_inv_tail Hben) as Hrest.
    assert (delivered (rs ++ [Recv d0]) <> []) as Hmore.
    { unfold delivered. rewrite flat_map_app. cbn [flat_map].
      rewrite app_nil_r. intros H. apply app_eq_nil in H.
      destruct H as [_ H]. contradiction. }
    cbn [feed_outcomes]. unfold bind at 1.
    destruct r as [data| |]; cbn [benign] in Hr; [| |contradiction].
    + change (delivered (Recv data :: rs ++ [Recv d0]))
        with (data ++ delivered (rs ++ [Recv d0])) in HM.
      destruct (absorb sel fd ad vb sb jh0 rc out hdr content d frame
                  X data _ HM Hr) as (c & Hc & Hsock & Hstep).
      rewrite HX in Hc. inversion Hc; subst c.
      rewrite read_recv, Hstep by assumption.
      rewrite app_assoc in HM.
      destruct (delivered (rs ++ [Recv d0])) as [|b0 more] eqn:Edel;
        [contradiction|].
      destruct (absorb sel fd ad vb sb jh0 rc out hdr content d frame
                  (X ++ data) (b0 :: more) [])
        as (c' & Hc' & _ & _).
      { rewrite app_nil_r. exact HM. }
      { discriminate. }
      rewrite Hc'. apply (IH (X ++ data)); try assumption.
      rewrite Edel. exact HM.
    + change (delivered (Recv_BlockingIOError :: rs ++ [Recv d0]))
        with (delivered (rs ++ [Recv d0])) in HM.
      destruct (delivered (rs ++ [Recv d0])) as [|b0 more] eqn:Edel;
        [contradiction|].
      destruct (absorb sel fd ad vb sb jh0 rc out hdr content d frame
                  X (b0 :: more) [])
        as (c & Hc & Hsock & _).
      { rewrite app_nil_r. exact HM. }
      { discriminate. }
      rewrite HX in Hc. inversion Hc; subst c.
      rewrite read_blocked by exact Hsock.
      rewrite (parked X (b0 :: more) [] cX); try assumption.
      * apply (IH X); try assumption. rewrite Edel. exact HM.
      * rewrite app_nil_r. exact HM.
Qed.

End Parked.

End SpuriousFacts.

(** X17.  Spurious wake-ups do no harm: when the chunks of a wire message
    come interleaved with read events that find nothing to read
    ([BlockingIOError]), the events up to the one delivering the last chunk
    leave the connection, and the outcome, exactly as one read event
    delivering the whole message does. *)
Theorem spurious_reads_are_harmless
        (sel : Selectors.selector) (fd : Z) (ad : pyval) (vb : bool)
        (hdr content : bytes) (d : list (pystr * pyval))
        (rs : list recv_outcome) (last : bytes) :
  wire_message hdr content d ->
  Forall benign rs ->
  last <> [] ->
  delivered rs ++ last = wire hdr content ->
  let conn := __init__ sel (Some fd) ad vb in
  feed_outcomes (rs ++ [Recv last]) conn
  = read (Recv (wire hdr content)) conn.
Proof.
  intros Hw Hben Hlast HM conn.
  rewrite (read_recv conn) by discriminate.
  apply (SpuriousFacts.feed_outcomes_from sel fd ad vb [] PNone false []
           hdr content d Hw rs []).
  - apply Forall_app. split; [exact Hben|]. constructor; [exact Hlast|constructor].
  - exact Hlast.
  - cbn [app]. unfold delivered. rewrite flat_map_app. cbn [flat_map].
    rewrite app_nil_r. exact HM.
  - apply stages_length_short. reflexivity.
Qed.

Lemma spurious_reads_are_harmless_witness :
  feed_outcomes
    ([ Recv_BlockingIOError;
       Recv (firstn 1 (wire plain_header plain_content));
       Recv_BlockingIOError;
       Recv (firstn 60 (skipn 1 (wire plain_header plain_content)));
       Recv_BlockingIOError ]
       ++ [Recv (skipn 61 (wire plain_header plain_content))]) conn0
  = read (Recv (wire plain_header plain_content)) conn0.
Proof.
  apply (spurious_reads_are_harmless
           [(7, Selectors.EVENT_READ)] 7 (PStr (u "peer")) false
           plain_header plain_content plain_dict).
  - constructor; vm_compute; try reflexivity. discriminate.
  - repeat constructor; vm_compute; discriminate.
  - vm_compute. discriminate.
  - vm_compute. reflexivity.
Defined.

(** ** [_json_encode] and [_json_decode] *)

Module RoundTrip.
Import JsonFacts CodecFacts BuilderReturns.

Lemma dumps_list (l : list pyval) :
  dumps (PList l) =
  rbind (dumps_items true l) (fun body => inl (u "[" ++ body ++ u "]")).
Proof. reflexivity. Qed.

Lemma dumps_dict (d : list (pystr * pyval)) :
  dumps (PDict d) =
  rbind (dumps_members true d) (fun body => inl (u "{" ++ body ++ u "}")).
Proof. reflexivity. Qed.

Lemma pyval_induction (P : pyval -> Prop) :
  P PNone ->
  (forall b, P (PBool b)) ->
  (forall z, P (PInt z)) ->
  (forall f, P (PFloat f)) ->
  (forall s, P (PStr s)) ->
  (forall b, P (PBytes b)) ->
  (forall l, Forall P l -> P (PList l)) ->
  (forall d, Forall (fun kv => P (snd kv)) d -> P (PDict d)) ->
  forall v, P v.
Proof.
  intros HN HB HI HF HS HY HL HD. fix IH 1. intros [| b | z | f | s | b | l | d].
  - exact HN.
  - apply HB.
  - apply HI.
  - apply HF.
  - apply HS.
  - apply HY.
  - apply HL.
    exact ((fix aux (l : list pyval) : Forall P l :=
              match l with
              | [] => Forall_nil P
              | x :: l' => Forall_cons x (IH x) (aux l')
              end) l).
  - apply HD.
    exact ((fix aux (d : list (pystr * pyval))
              : Forall (fun kv => P (snd kv)) d :=
              match d with
              | [] => Forall_nil _
              | (k, x) :: d' =>
                  Forall_cons (P := fun kv => P (snd kv)) (k, x) (IH x) (aux d')
              end) d).
Qed.

Lemma stops_head (rest : pystr) :
  stops rest ->
  match rest with
  | [] => True
  | c :: _ => is_digit c = false /\ c <> 46 /\ c <> 101 /\ c <> 69
              /\ is_ws c = false
  end.
Proof.
  destruct rest as [|c r]; [trivial|]. cbn [stops].
  intros [-> | [-> | ->]]; repeat split; discriminate.
Qed.

(** An integer written by the encoder and followed by a delimiter is read
    back as that integer. *)
Lemma scan_atom_int_any (z : Z) (rest : pystr) :
  stops rest ->
  scan_atom (int_repr z ++ rest) = inl (PInt z, rest).
Proof.
  intros Hstop. apply stops_head in Hstop.
  assert (match_frac rest = ([], rest)) as Hf.
  { destruct rest as [|p [|dg t]]; try reflexivity.
    destruct Hstop as (_ & Hp & _). unfold match_frac.
    replace (p =? 46) with false by (symmetry; apply Z.eqb_neq; exact Hp).
    reflexivity. }
  assert (match_exp rest = (None, rest)) as He.
  { destruct rest as [|p t]; [reflexivity|].
    destruct Hstop as (_ & _ & H1 & H2 & _). unfold match_exp.
    replace (p =? 101) with false by (symmetry; apply Z.eqb_neq; exact H1).
    replace (p =? 69) with false by (symmetry; apply Z.eqb_neq; exact H2).
    reflexivity. }
  assert (forall ds, all_digits ds -> span_digits (ds ++ rest) = (ds, rest))
    as Hspan.
  { intros ds Hds. apply span_digits_app; [exact Hds|].
    destruct rest; [trivial|]. exact (proj1 Hstop). }
  assert (forall n, 0 <= n -> forall dg ds,
            nat_repr n = dg :: ds -> all_digits (dg :: ds) ->
            fold_left dstep (dg :: ds) 0 = n ->
            (dg = 48 -> n = 0 /\ ds = []) ->
            match_int (dg :: ds ++ rest) = Some (false, dg :: ds, rest) /\
            digits_val (dg :: ds) = n) as Hint.
  { intros n Hn dg ds Heq Hall Hval Hz.
    pose proof (Forall_inv Hall) as Hd. cbv beta in Hd.
    pose proof (Forall_inv_tail Hall) as Hds.
    split; [|exact Hval].
    unfold match_int.
    replace (dg =? 45) with false by (symmetry; apply Z.eqb_neq; lia).
    destruct (dg =? 48) eqn:E0.
    - apply Z.eqb_eq in E0. destruct (Hz E0) as [_ ->]. subst dg. reflexivity.
    - unfold is_digit at 1.
      replace ((48 <=? dg) && (dg <=? 57)) with true
        by (symmetry; apply andb_true_iff; split; apply Z.leb_le; lia).
      rewrite (Hspan ds Hds). reflexivity. }
  unfold int_repr. destruct (z <? 0) eqn:Ez.
  - apply Z.ltb_lt in Ez.
    destruct (nat_repr_spec (- z)) as (dg & ds & Heq & Hall & Hval & Hz);
      [lia|].
    pose proof (Forall_inv Hall) as Hd. cbv beta in Hd.
    pose proof (Forall_inv_tail Hall) as Hds.
    assert (dg <> 48) as Hnz by (intros H; destruct (Hz H); lia).
    rewrite Heq. cbn [app]. unfold scan_atom.
    assert (forall p, match p with
                      | x :: y :: _ => x <> 45 \/ (y < 48 \/ 57 < y)
                      | _ => False
                      end ->
              starts_with p (45 :: dg :: ds ++ rest) = false) as Hsw.
    { intros [|x [|y p]] Hp; try contradiction. cbn [starts_with].
      destruct Hp as [Hp|Hp].
      - replace (x =? 45) with false by (symmetry; apply Z.eqb_neq; lia).
        reflexivity.
      - replace (y =? dg) with false by (symmetry; apply Z.eqb_neq; lia).
        apply andb_false_iff. right. reflexivity. }
    rewrite !Hsw by (vm_compute; (left; discriminate) || (right; right; reflexivity)).
    unfold match_number, match_int. cbn [tl].
    change (45 =? 45) with true. cbv iota.
    replace (dg =? 48) with false by (symmetry; apply Z.eqb_neq; exact Hnz).
    unfold is_digit at 1.
    replace ((48 <=? dg) && (dg <=? 57)) with true
      by (symmetry; apply andb_true_iff; split; apply Z.leb_le; lia).
    rewrite (Hspan ds Hds). cbn [fst snd]. rewrite Hf. cbn [fst snd].
    rewrite He. cbn [fst snd]. unfold digits_val.
    change (fun acc d0 : Z => acc * 10 + (d0 - 48)) with dstep.
    rewrite Hval. rewrite Z.opp_involutive. reflexivity.
  - apply Z.ltb_ge in Ez.
    destruct (nat_repr_spec z Ez) as (dg & ds & Heq & Hall & Hval & Hz).
    destruct (Hint z Ez dg ds Heq Hall Hval Hz) as [Hmi Hdv].
    pose proof (Forall_inv Hall) as Hd. cbv beta in Hd.
    rewrite Heq. cbn [app]. unfold scan_atom.
    assert (forall p, match p with
                      | x :: _ => x < 48 \/ 57 < x
                      | [] => False
                      end ->
              starts_with p (dg :: ds ++ rest) = false) as Hsw.
    { intros [|x p] Hp; [contradiction|]. cbn [starts_with].
      replace (x =? dg) with false by (symmetry; apply Z.eqb_neq; lia).
      reflexivity. }
    rewrite !Hsw by (vm_compute; (left; reflexivity) || (right; reflexivity)).
    unfold match_number. rewrite Hmi, Hf. cbn [fst snd]. rewrite He.
    cbn [fst snd]. rewrite Hdv. reflexivity.
Qed.

Lemma array_loop_next (f : nat) (s : pystr) (acc : list pyval) :
  array_loop (S f) s acc =
  rbind (scan_once f s) (fun vp => array_next f (snd vp) (acc ++ [fst vp])).
Proof. reflexivity. Qed.

Lemma object_loop_next (f : nat) (t : pystr) (acc : list (pystr * pyval)) :
  object_loop (S f) (34 :: t) acc =
  rbind (scanstring t) (fun kp =>
  match skip_ws (snd kp) with
  | c1 :: t1 =>
      if c1 =? 58 then
        rbind (scan_once f (skip_ws t1)) (fun vp =>
        object_next f (snd vp) (dict_set acc (fst kp) (fst vp)))
      else inr JSONDecodeError
  | [] => inr JSONDecodeError
  end).
Proof. reflexivity. Qed.

Lemma scalar_nonneg (s : pystr) : forallb is_scalar s = true -> nonneg s.
Proof.
  intros H. apply Forall_forall. intros c Hc.
  rewrite forallb_forall in H. specialize (H c Hc).
  apply is_scalar_range in H. lia.
Qed.

Lemma int_repr_scalar_any (z : Z) : forallb is_scalar (int_repr z) = true.
Proof.
  destruct (Z_lt_ge_dec z 0) as [Hneg|Hpos].
  - pose proof (int_repr_scalar (- z)) as H. unfold int_repr in *.
    replace (z <? 0) with true by (symmetry; apply Z.ltb_lt; lia).
    replace (- z <? 0) with false in H by (symmetry; apply Z.ltb_ge; lia).
    cbn [forallb]. rewrite H by lia. reflexivity.
  - apply int_repr_scalar. lia.
Qed.

Lemma int_repr_start (z : Z) :
  exists c t, int_repr z = c :: t /\ (c = 45 \/ 48 <= c <= 57).
Proof.
  unfold int_repr. destruct (z <? 0) eqn:E.
  - eexists _, _. split; [reflexivity|left; reflexivity].
  - apply Z.ltb_ge in E.
    destruct (nat_repr_spec z E) as (dg & ds & -> & Hall & _).
    exists dg, ds. split; [reflexivity|right].
    exact (Forall_inv Hall).
Qed.

Lemma value_start_of (c : Z) (t : pystr) :
  (c = 45 \/ 48 <= c <= 57 \/ c = 34 \/ c = 91 \/ c = 123
   \/ c = 110 \/ c = 116 \/ c = 102) ->
  value_start (c :: t).
Proof.
  intros H. exists c, t. split; [reflexivity|].
  assert (c <> 32 /\ c <> 9 /\ c <> 10 /\ c <> 13 /\ c <> 65279 /\ c <> 93)
    as (H1 & H2 & H3 & H4 & H5 & H6) by lia.
  split; [|split; assumption].
  unfold is_ws. apply Z.eqb_neq in H1, H2, H3, H4.
  rewrite H1, H2, H3, H4. reflexivity.
Qed.

Lemma reads_back_none : reads_back PNone.
Proof.
  intros _. exists (u "null"). split; [reflexivity|].
  split; [reflexivity|]. split; [apply value_start_of; vm_compute; lia|].
  intros f rest Hf _. destruct f as [|f]; [cbn in Hf; lia|]. reflexivity.
Qed.

Lemma reads_back_bool (b : bool) : reads_back (PBool b).
Proof.
  intros _. destruct b.
  - exists (u "true"). split; [reflexivity|].
    split; [reflexivity|]. split; [apply value_start_of; vm_compute; lia|].
    intros f rest Hf _. destruct f as [|f]; [cbn in Hf; lia|]. reflexivity.
  - exists (u "false"). split; [reflexivity|].
    split; [reflexivity|]. split; [apply value_start_of; vm_compute; lia|].
    intros f rest Hf _. destruct f as [|f]; [cbn in Hf; lia|]. reflexivity.
Qed.

Lemma reads_back_int (z : Z) : reads_back (PInt z).
Proof.
  intros _. exists (int_repr z). split; [reflexivity|].
  split; [apply int_repr_scalar_any|].
  destruct (int_repr_start z) as (c & t & Heq & Hc).
  split; [rewrite Heq; apply value_start_of; lia|].
  intros f rest Hf Hstop. destruct f as [|f]; [lia|].
  pose proof (scan_atom_int_any z rest Hstop) as Hatom.
  rewrite Heq in *. cbn [app] in *.
  rewrite scan_once_atom by lia. exact Hatom.
Qed.

Lemma reads_back_str (s : pystr) : reads_back (PStr s).
Proof.
  cbn [reads_back json_value]. intros Hs.
  exists (encode_basestring s). split; [reflexivity|].
  split; [apply basestring_scalar; exact Hs|].
  split; [apply value_start_of; lia|].
  intros f rest Hf _. destruct f as [|f]; [lia|].
  rewrite encode_basestring_app, scan_once_string.
  rewrite scanstring_escaped by (apply scalar_nonneg; exact Hs).
  reflexivity.
Qed.

(** The items after the first one, up to the closing bracket. *)
Lemma items_read_back (l : list pyval) :
  Forall reads_back l -> forallb json_value l = true ->
  exists body,
    dumps_items false l = inl body /\
    forallb is_scalar body = true /\
    (body = [] \/ exists t, body = 44 :: t) /\
    forall f rest acc,
      (2 * length body + 1 < f)%nat ->
      array_next f (body ++ 93 :: rest) acc = inl (PList (acc ++ l), rest).
Proof.
  induction 1 as [|x l Hx _ IH]; cbn [forallb dumps_items]; intros Hjson.
  - exists []. split; [reflexivity|]. split; [reflexivity|].
    split; [left; reflexivity|]. intros f rest acc _.
    rewrite app_nil_r. reflexivity.
  - apply andb_prop in Hjson. destruct Hjson as [Hjx Hjl].
    destruct (Hx Hjx) as (sx & Hdx & Hsx & (c & t & -> & Hws & _) & Hscan).
    destruct (IH Hjl) as (body & Hdl & Hsl & Hhead & Hnext).
    rewrite Hdx, Hdl. cbn [rbind].
    eexists. split; [reflexivity|].
    split; [|split; [right; eexists; reflexivity|]].
    { change (u ", ") with [44; 32].
      rewrite !forallb_app, Hsx, Hsl. reflexivity. }
    intros f rest acc Hf.
    assert (Hlen : (2 * length (c :: t) + 2 * length body + 5 < f)%nat).
    { change (u ", ") with [44; 32] in Hf.
      rewrite !length_app in Hf. cbn [length] in *. lia. }
    clear Hf. destruct f as [|f]; [lia|].
    change (u ", " ++ (c :: t) ++ body) with (44 :: 32 :: (c :: t) ++ body).
    cbn [app]. unfold array_next at 1.
    rewrite (skip_ws_keep 44) by reflexivity.
    change (44 =? 93) with false. change (44 =? 44) with true. cbv iota.
    rewrite skip_ws_space, skip_ws_keep by exact Hws.
    rewrite array_loop_next.
    change (c :: (t ++ body) ++ 93 :: rest)
      with (((c :: t) ++ body) ++ 93 :: rest).
    rewrite <- app_assoc, Hscan; cycle 1.
    { lia. }
    { destruct Hhead as [->|[t' ->]]; cbn; auto. }
    cbn [rbind fst snd]. rewrite Hnext by lia.
    rewrite <- app_assoc. reflexivity.
Qed.

Lemma reads_back_list (l : list pyval) :
  Forall reads_back l -> reads_back (PList l).
Proof.
  intros Hall. cbn [reads_back]. unfold reads_back at 1.
  cbn [json_value]. intros Hjson.
  rewrite dumps_list.
  destruct l as [|x l].
  - exists (u "[]"). split; [reflexivity|]. split; [reflexivity|].
    split; [apply value_start_of; vm_compute; lia|].
    intros f rest Hf _. destruct f as [|f]; [cbn in Hf; lia|]. reflexivity.
  - cbn [forallb dumps_items] in *.
    apply andb_prop in Hjson. destruct Hjson as [Hjx Hjl].
    pose proof (Forall_inv Hall) as Hx.
    pose proof (Forall_inv_tail Hall) as Hl.
    destruct (Hx Hjx) as (sx & Hdx & Hsx & (c & t & -> & Hws & _ & Hc) & Hscan).
    destruct (items_read_back l Hl Hjl) as (body & Hdl & Hsl & Hhead & Hnext).
    rewrite Hdx, Hdl. cbn [rbind].
    change (u "[") with [91]. change (u "]") with [93].
    eexists. split; [reflexivity|].
    split; [|split; [apply value_start_of; lia|]].
    { rewrite !forallb_app, Hsx, Hsl. reflexivity. }
    intros f rest Hf _.
    assert (Hlen : (2 * length (c :: t) + 2 * length body + 4 < f)%nat).
    { rewrite !length_app in Hf. cbn [length] in *. lia. }
    clear Hf. destruct f as [|f]; [lia|]. cbn [app].
    cbn [scan_once]. change (91 =? 34) with false.
    change (91 =? 123) with false. change (91 =? 91) with true. cbv iota.
    rewrite <- !app_assoc. cbn [app].
    rewrite skip_ws_keep by exact Hws.
    apply Z.eqb_neq in Hc. rewrite Hc.
    destruct f as [|f]; [lia|]. rewrite array_loop_next.
    change (c :: t ++ body ++ 93 :: rest)
      with ((c :: t) ++ body ++ 93 :: rest).
    rewrite Hscan; cycle 1.
    { lia. }
    { destruct Hhead as [->|[t' ->]]; cbn; auto. }
    cbn [rbind fst snd]. rewrite Hnext by lia. reflexivity.
Qed.

(** Dictionaries built by appending fresh keys. *)

Lemma pystr_eqb_sym (a b : pystr) : pystr_eqb a b = pystr_eqb b a.
Proof.
  revert b. induction a as [|x a IH]; intros [|y b]; cbn [pystr_eqb];
    try reflexivity.
  rewrite Z.eqb_sym, IH. reflexivity.
Qed.

Lemma dict_has_cons (k' k : pystr) (v : pyval) (d : list (pystr * pyval)) :
  dict_has ((k', v) :: d) k = pystr_eqb k' k || dict_has d k.
Proof.
  unfold dict_has. cbn [dict_get]. destruct (pystr_eqb k' k); reflexivity.
Qed.

Lemma dict_has_app (a b : list (pystr * pyval)) (k : pystr) :
  dict_has (a ++ b) k = dict_has a k || dict_has b k.
Proof.
  induction a as [|[k' v] a IH]; cbn [app]; [reflexivity|].
  rewrite !dict_has_cons, IH, orb_assoc. reflexivity.
Qed.

Lemma dict_set_fresh (d : list (pystr * pyval)) (k : pystr) (v : pyval) :
  dict_has d k = false -> dict_set d k v = d ++ [(k, v)].
Proof.
  induction d as [|[k' v'] d IH]; cbn [dict_set app]; [reflexivity|].
  rewrite dict_has_cons. intros H. apply orb_false_elim in H.
  destruct H as [-> H]. rewrite (IH H). reflexivity.
Qed.

Lemma fresh_nil (d : list (pystr * pyval)) :
  forallb (fun kv => negb (dict_has [] (fst kv))) d = true.
Proof. induction d as [|kv d IH]; cbn [forallb]; [reflexivity|exact IH]. Qed.

Lemma fresh_step (d acc : list (pystr * pyval)) (k : pystr) (x : pyval) :
  forallb (fun kv => negb (dict_has acc (fst kv))) d = true ->
  dict_has d k = false ->
  forallb (fun kv => negb (dict_has (acc ++ [(k, x)]) (fst kv))) d = true.
Proof.
  induction d as [|[k' v] d IH]; cbn [forallb fst]; [reflexivity|].
  intros Hacc. rewrite dict_has_cons. intros Hk.
  apply andb_prop in Hacc. destruct Hacc as [Hk' Hacc].
  apply orb_false_elim in Hk. destruct Hk as [Hne Hk].
  rewrite (IH Hacc Hk), andb_true_r.
  rewrite dict_has_app, dict_has_cons, pystr_eqb_sym, Hne.
  apply negb_true_iff in Hk'. rewrite Hk'. reflexivity.
Qed.

(** One member: the key, the colon and the value. *)
Lemma member_read_back (f : nat) (k sx tail : pystr) (x : pyval)
      (acc : list (pystr * pyval)) :
  forallb is_scalar k = true ->
  value_start sx ->
  scan_once f (sx ++ tail) = inl (x, tail) ->
  object_loop (S f) (encode_basestring k ++ u ": " ++ sx ++ tail) acc =
  object_next f tail (dict_set acc k x).
Proof.
  intros Hk (c & t & -> & Hws & _) Hscan.
  rewrite encode_basestring_app, object_loop_next.
  rewrite scanstring_escaped by (apply scalar_nonneg; exact Hk).
  cbn [rbind fst snd]. change (u ": ") with [58; 32]. cbn [app].
  rewrite (skip_ws_keep 58) by reflexivity.
  change (58 =? 58) with true. cbv iota.
  rewrite skip_ws_space, skip_ws_keep by exact Hws.
  change (c :: t ++ tail) with ((c :: t) ++ tail).
  rewrite Hscan. reflexivity.
Qed.

(** The members after the first one, up to the closing brace. *)
Lemma members_read_back (d : list (pystr * pyval)) :
  Forall (fun kv => reads_back (snd kv)) d ->
  forallb (fun kv => forallb is_scalar (fst kv) && json_value (snd kv)) d
    = true ->
  exists body,
    dumps_members false d = inl body /\
    forallb is_scalar body = true /\
    (body = [] \/ exists t, body = 44 :: t) /\
    forall f rest acc,
      (2 * length body + 1 < f)%nat ->
      keys_distinct d = true ->
      forallb (fun kv => negb (dict_has acc (fst kv))) d = true ->
      object_next f (body ++ 125 :: rest) acc = inl (PDict (acc ++ d), rest).
Proof.
  induction 1 as [|[k x] d Hx _ IH];
    cbn [forallb dumps_members fst snd]; intros Hjson.
  - exists []. split; [reflexivity|]. split; [reflexivity|].
    split; [left; reflexivity|]. intros f rest acc _ _ _.
    rewrite app_nil_r. reflexivity.
  - apply andb_prop in Hjson. destruct Hjson as [Hkx Hjd].
    apply andb_prop in Hkx. destruct Hkx as [Hk Hjx].
    cbn [snd] in Hx.
    destruct (Hx Hjx) as (sx & Hdx & Hsx & Hstart & Hscan).
    destruct (IH Hjd) as (body & Hdd & Hsd & Hhead & Hnext).
    rewrite Hdx, Hdd. cbn [rbind].
    change (u ", ") with [44; 32]. change (u ": ") with [58; 32].
    eexists. split; [reflexivity|].
    split; [|split; [right; eexists; reflexivity|]].
    { rewrite !forallb_app, (basestring_scalar k Hk), Hsx, Hsd.
      reflexivity. }
    intros f rest acc Hf Hkeys Hacc.
    cbn [keys_distinct] in Hkeys. apply andb_prop in Hkeys.
    destruct Hkeys as [Hfresh Hkeys]. apply negb_true_iff in Hfresh.
    cbn [forallb fst] in Hacc. apply andb_prop in Hacc.
    destruct Hacc as [Hnew Hacc]. apply negb_true_iff in Hnew.
    assert (Hlen : (2 * length sx + 2 * length body + 5 < f)%nat).
    { rewrite !length_app in Hf. cbn [length] in Hf. lia. }
    clear Hf. destruct f as [|f]; [lia|].
    cbn [app]. unfold object_next at 1.
    rewrite (skip_ws_keep 44) by reflexivity.
    change (44 =? 125) with false. change (44 =? 44) with true. cbv iota.
    rewrite skip_ws_space.
    rewrite <- !app_assoc.
    assert (Hk34 : forall r, skip_ws (encode_basestring k ++ r)
                             = encode_basestring k ++ r).
    { intros r. rewrite encode_basestring_app. reflexivity. }
    rewrite Hk34.
    match goal with
    | |- object_loop _ ?s _ = _ =>
        replace s
          with (encode_basestring k ++ u ": " ++ sx ++ body ++ 125 :: rest)
          by (change (u ": ") with [58; 32]; cbn [app];
              rewrite <- ?app_assoc; reflexivity)
    end.
    rewrite (member_read_back f k sx (body ++ 125 :: rest) x acc Hk Hstart).
    + rewrite (dict_set_fresh acc k x Hnew).
      rewrite Hnext; [|lia|exact Hkeys|apply fresh_step; assumption].
      rewrite <- app_assoc. reflexivity.
    + apply Hscan; [lia|].
      destruct Hhead as [->|[t' ->]]; cbn; auto.
Qed.

Lemma reads_back_dict (d : list (pystr * pyval)) :
  Forall (fun kv => reads_back (snd kv)) d -> reads_back (PDict d).
Proof.
  intros Hall. unfold reads_back at 1. cbn [json_value]. intros Hjson.
  apply andb_prop in Hjson. destruct Hjson as [Hjson Hkeys].
  rewrite dumps_dict.
  destruct d as [|[k x] d].
  - exists (u "{}"). split; [reflexivity|]. split; [reflexivity|].
    split; [apply value_start_of; vm_compute; lia|].
    intros f rest Hf _. destruct f as [|f]; [cbn in Hf; lia|]. reflexivity.
  - cbn [forallb dumps_members fst snd keys_distinct] in *.
    apply andb_prop in Hjson. destruct Hjson as [Hkx Hjd].
    apply andb_prop in Hkx. destruct Hkx as [Hk Hjx].
    apply andb_prop in Hkeys. destruct Hkeys as [Hfresh Hkeys].
    apply negb_true_iff in Hfresh.
    pose proof (Forall_inv Hall) as Hx. cbn [snd] in Hx.
    pose proof (Forall_inv_tail Hall) as Hd.
    destruct (Hx Hjx) as (sx & Hdx & Hsx & Hstart & Hscan).
    destruct (members_read_back d Hd Hjd)
      as (body & Hdd & Hsd & Hhead & Hnext).
    rewrite Hdx, Hdd. cbn [rbind].
    change (u "{") with [123]. change (u "}") with [125].
    change (u ": ") with [58; 32].
    eexists. split; [reflexivity|].
    split; [|split; [apply value_start_of; lia|]].
    { rewrite !forallb_app, (basestring_scalar k Hk), Hsx, Hsd.
      reflexivity. }
    intros f rest Hf _.
    assert (Hlen : (2 * length sx + 2 * length body + 4 < f)%nat).
    { rewrite !length_app in Hf. cbn [length] in Hf. lia. }
    clear Hf. destruct f as [|f]; [lia|]. cbn [app].
    cbn [scan_once]. change (123 =? 34) with false.
    change (123 =? 123) with true. cbv iota.
    rewrite <- !app_assoc. rewrite encode_basestring_app.
    rewrite (skip_ws_keep 34) by reflexivity.
    change (34 =? 125) with false. cbv iota.
    rewrite <- encode_basestring_app.
    destruct f as [|f]; [lia|].
    match goal with
    | |- object_loop _ ?s _ = _ =>
        replace s
          with (encode_basestring k ++ u ": " ++ sx ++ body ++ 125 :: rest)
          by (change (u ": ") with [58; 32]; cbn [app];
              rewrite <- ?app_assoc; reflexivity)
    end.
    rewrite (member_read_back f k sx (body ++ 125 :: rest) x [] Hk Hstart).
    + cbn [dict_set].
      rewrite (Hnext f rest [(k, x)]);
        [reflexivity|lia|exact Hkeys|].
      apply (fresh_step d [] k x); [apply fresh_nil|exact Hfresh].
    + apply Hscan; [lia|].
      destruct Hhead as [->|[t' ->]]; cbn; auto.
Qed.

(** Every value of the exchanged kind is read back from its own text. *)
Lemma reads_back_all (v : pyval) : reads_back v.
Proof.
  induction v using pyval_induction.
  - apply reads_back_none.
  - apply reads_back_bool.
  - apply reads_back_int.
  - intros H; discriminate.
  - apply reads_back_str.
  - intros H; discriminate.
  - apply reads_back_list; assumption.
  - apply reads_back_dict; assumption.
Qed.

(** The text of a value, read by [json.loads]. *)
Lemma loads_dumps (v : pyval) :
  json_value v = true ->
  exists text,
    dumps v = inl text /\ forallb is_scalar text = true /\
    loads text = inl v.
Proof.
  intros Hv.
  destruct (reads_back_all v Hv)
    as (text & Hd & Hs & (c & t & -> & Hws & Hbom & _) & Hscan).
  exists (c :: t). split; [exact Hd|]. split; [exact Hs|].
  unfold loads. cbn [starts_with].
  apply Z.eqb_neq in Hbom. rewrite Z.eqb_sym in Hbom.
  rewrite Hbom. cbn [andb].
  rewrite skip_ws_keep by exact Hws.
  rewrite <- (app_nil_r (c :: t)) at 2.
  rewrite Hscan; [reflexivity|lia|exact I].
Qed.

End RoundTrip.

(** X18.  A value made of [None], booleans, integers of at most 4300
    digits, strings without surrogates, and lists and dicts of such values
    with pairwise different keys, nested at most 64 deep, is encoded by
    [_json_encode] with ["utf-8"] without an exception, and [_json_decode]
    of those bytes with ["utf-8"] returns the value itself. *)
Theorem json_encode_decode_roundtrip (obj : pyval) :
  json_value obj = true ->
  (nesting obj <= 64)%nat ->
  exists json_bytes,
    _json_encode obj (u "utf-8") = inl json_bytes /\
    _json_decode json_bytes (PStr (u "utf-8")) = inl obj.
Proof.
  intros Hv _.
  destruct (RoundTrip.loads_dumps obj Hv) as (text & Hd & Hs & Hl).
  destruct (CodecFacts.utf8_encode_scalar text Hs) as [b Hb].
  exists b. unfold _json_encode, _json_decode. rewrite Hd.
  cbn [rbind]. change (Codec.lookup (u "utf-8")) with (Some Codec.Utf_8).
  cbv iota. cbn [Codec.encode Codec.decode]. split; [exact Hb|].
  rewrite (CodecFacts.utf8_roundtrip text b Hb). exact Hl.
Qed.

Lemma json_encode_decode_roundtrip_witness :
  exists json_bytes,
    _json_encode
      (PDict [ (u "result", PList [PInt (-7); PStr (u "ok"); PNone]);
               (u "done", PBool true) ]) (u "utf-8") = inl json_bytes /\
    _json_decode json_bytes (PStr (u "utf-8"))
    = inl (PDict [ (u "result", PList [PInt (-7); PStr (u "ok"); PNone]);
                   (u "done", PBool true) ]).
Proof.
  apply json_encode_decode_roundtrip; [vm_compute; reflexivity|].
  cbn [nesting fold_right snd Nat.max]. lia.
Defined.
